(** * read_data.py: streaming readers for line-delimited JSON datasets

    A shallow embedding of [src/read_data.py] (the inspection script of the
    Polymarket order book history collector) and the properties of its
    readers: record limits, identifier truncation, timestamp fallback,
    trade aggregates, per-line decoding, price movement classification,
    the final trade report, the dataset statistics and the disabled
    price-change reader; then further properties of the readers, of the
    display of records, of the statistics and of [main].

    Conventions of the embedding.
    - A Python [str] is a list of code points ([str := list N]); [lit]
      turns a Rocq string literal into one.
    - A Python [int] is a [Z]; a Python [float] is a binary64 value of the
      Standard Library's [spec_float] (53 bits of precision, emax 1024),
      with round-to-nearest-even arithmetic.
    - Expressions that may raise are in the [result] monad; statements are
      in [M], which also records the trace of calls made to the outside:
      [print], [os.path.exists], [open]/close, [os.path.getsize] and
      [json.loads].
    - The file system is a finite map from paths to nodes; it is only read.
    - [print] succeeds on every line: the output stream is taken to encode
      every code point.
    - Library functions ([int], [float], [json.loads], [format],
      [datetime.fromtimestamp], [strftime]) are modelled as CPython 3.11 on
      Linux has them: [int] and [float] read the decimal digits of every
      script (Unicode 14.0), [json.loads] ASCII digits only, and
      [strftime] does not pad the year; the local time zone is a parameter
      [utcoffset] of the development. *)

From Stdlib Require Import ZArith List String Ascii Bool Lia.
From Stdlib Require Import Floats.SpecFloat.
From stdpp Require Import base option list gmap fin_maps.

Local Open Scope Z_scope.

(** ** Text *)

Definition char := N.
Definition str := list char.

Definition lit (s : string) : str :=
  List.map N_of_ascii (list_ascii_of_string s).

Definition chr (s : string) : char :=
  match s with
  | String a _ => N_of_ascii a
  | EmptyString => 0%N
  end.

Definition is_digit (c : char) : bool := ((48 <=? c) && (c <=? 57))%N.

Definition digit_val (c : char) : Z := Z.of_N c - 48.

Definition digit_char (d : Z) : char := (48 + Z.to_N d)%N.

(** [str.isspace] for a single code point (the Unicode White_Space set
    together with the four information separators). *)
Definition is_space (c : char) : bool :=
  (((9 <=? c) && (c <=? 13)) || ((28 <=? c) && (c <=? 32))
   || (c =? 133) || (c =? 160) || (c =? 5760)
   || ((8192 <=? c) && (c <=? 8202)) || (c =? 8232) || (c =? 8233)
   || (c =? 8239) || (c =? 8287) || (c =? 12288))%N.

Fixpoint take_while {A} (p : A → bool) (l : list A) : list A :=
  match l with
  | x :: l' => if p x then x :: take_while p l' else []
  | [] => []
  end.

Fixpoint drop_while {A} (p : A → bool) (l : list A) : list A :=
  match l with
  | x :: l' => if p x then drop_while p l' else l
  | [] => []
  end.

(** White space for the C library ([Py_ISSPACE]): tab, line feed, vertical
    tab, form feed, carriage return and space. *)
Definition is_ascii_space (c : char) : bool :=
  (((9 <=? c) && (c <=? 13)) || (c =? 32))%N.

(** The white space that [int] and [float] skip at both ends of the text
    they are given. *)
Definition lstrip (s : str) : str := drop_while is_ascii_space s.
Definition rstrip (s : str) : str := rev (lstrip (rev s)).
Definition strip (s : str) : str := rstrip (lstrip s).

(** The zeros of the decimal digits of Unicode 14.0, the version of
    CPython 3.11 (general category Nd); each is followed by its digits 1
    to 9. *)
Definition decimal_zeros : list N :=
  [48; 1632; 1776; 1984; 2406; 2534; 2662; 2790; 2918; 3046; 3174; 3302;
   3430; 3558; 3664; 3792; 3872; 4160; 4240; 6112; 6160; 6470; 6608; 6784;
   6800; 6992; 7088; 7232; 7248; 42528; 43216; 43264; 43472; 43504; 43600;
   44016; 65296; 66720; 68912; 69734; 69872; 69942; 70096; 70384; 70736;
   70864; 71248; 71360; 71472; 71904; 72016; 72784; 73040; 73120; 92768;
   92864; 93008; 120782; 120792; 120802; 120812; 120822; 123200; 123632;
   125264; 130032]%N.

(** The value of a decimal digit of any script. *)
Definition decimal_value (c : char) : option N :=
  z ← List.find (λ z, (z <=? c) && (c <? z + 10))%N decimal_zeros;
  Some (c - z)%N.

(** What [int] and [float] make of a [str] before they read it
    ([_PyUnicode_TransformDecimalAndSpaceToASCII]): code points below 127
    are kept, other white space becomes a space, other decimal digits
    become ASCII digits, and the text ends with a question mark at the
    first code point that is none of these. *)
Fixpoint ascii_numeric (s : str) : str :=
  match s with
  | [] => []
  | c :: rest =>
      if (c <? 127)%N then c :: ascii_numeric rest
      else if is_space c then 32%N :: ascii_numeric rest
      else
        match decimal_value c with
        | Some d => (48 + d)%N :: ascii_numeric rest
        | None => [63%N]
        end
  end.

Definition to_lower (c : char) : char :=
  if ((65 <=? c) && (c <=? 90))%N then (c + 32)%N else c.

Definition str_eqb (a b : str) : bool := bool_decide (a = b).

(** Decimal digits of a non-negative integer, most significant first. *)
Fixpoint dec_digits (fuel : nat) (n : Z) (acc : str) : str :=
  match fuel with
  | O => acc
  | S fuel' =>
      let acc' := digit_char (n mod 10) :: acc in
      if n <? 10 then acc' else dec_digits fuel' (n / 10) acc'
  end.

Definition str_of_nonneg (n : Z) : str :=
  dec_digits (S (Z.to_nat (Z.log2 n))) n [].

(** [str(n)] for an [int]. *)
Definition str_of_int (n : Z) : str :=
  if n <? 0 then chr "-" :: str_of_nonneg (- n) else str_of_nonneg n.

(** [s.zfill(w)] on a string of digits, and [s.rjust(w)]. *)
Definition zfill (w : nat) (s : str) : str :=
  replicate (w - length s) (chr "0") ++ s.

Definition rjust (w : nat) (s : str) : str :=
  replicate (w - length s) (chr " ") ++ s.

(** Value of a run of digits read left to right. *)
Definition digits_value (ds : str) : Z :=
  fold_left (λ acc c, 10 * acc + digit_val c) ds 0.

Definition span_digits (s : str) : str * str :=
  (take_while is_digit s, drop_while is_digit s).

(** Underscores in numeric literals: allowed only between two digits.
    Returns the text with the underscores removed. *)
Fixpoint strip_underscores (prev : char) (s : str) : option str :=
  match s with
  | [] => if (prev =? chr "_")%N then None else Some []
  | c :: rest =>
      if (c =? chr "_")%N then
        if is_digit prev then strip_underscores c rest else None
      else
        if (prev =? chr "_")%N && negb (is_digit c) then None
        else cons c <$> strip_underscores c rest
  end.

(** ** Exceptions *)

Inductive exn :=
  | JSONDecodeError
  | KeyError
  | TypeError
  | ValueError
  | OverflowError
  | ZeroDivisionError
  | AttributeError
  | FileNotFoundError
  | IsADirectoryError.

Inductive result (A : Type) :=
  | Ok (a : A)
  | Raise (e : exn).
Arguments Ok {A} a.
Arguments Raise {A} e.

Definition rbind {A B} (r : result A) (f : A → result B) : result B :=
  match r with
  | Ok a => f a
  | Raise e => Raise e
  end.

#[global] Instance result_ret : MRet result := λ A a, Ok a.
#[global] Instance result_bind : MBind result := λ A B f r, rbind r f.

(** ** Floats (binary64) *)

Definition prec : Z := 53.
Definition emax : Z := 1024.

Abbreviation float := spec_float.

Definition fadd : float → float → float := SFadd prec emax.
Definition fsub : float → float → float := SFsub prec emax.
Definition fmul : float → float → float := SFmul prec emax.
Definition fdiv_raw : float → float → float := SFdiv prec emax.

Definition fzero : float := S754_zero false.

Definition is_fzero (x : float) : bool :=
  match x with S754_zero _ => true | _ => false end.

(** [x / y] on floats: division by a zero raises. *)
Definition fdiv (x y : float) : result float :=
  if is_fzero y then Raise ZeroDivisionError else Ok (fdiv_raw x y).

(** The nearest binary64 to [± m * 2^e] (ties to even); infinite on overflow. *)
Definition round_dyadic (neg : bool) (m : Z) (e : Z) : float :=
  match m with
  | Zpos p => binary_round prec emax neg p e
  | _ => S754_zero neg
  end.

(** The nearest binary64 to [± a / b] for integers [a >= 0], [b > 0]. *)
Definition round_quotient (neg : bool) (a b : Z) : float :=
  match a with
  | Zpos _ =>
      let '(q, e, l) := SFdiv_core_binary prec emax a 0 b 0 in
      binary_round_aux prec emax neg q e l
  | _ => S754_zero neg
  end.

(** The nearest binary64 to [± d * 10^e]. *)
Definition float_of_decimal (neg : bool) (d : Z) (e : Z) : float :=
  if 0 <=? e then round_dyadic neg (d * 10 ^ e) 0
  else round_quotient neg d (10 ^ (- e)).

Definition is_inf (x : float) : bool :=
  match x with S754_infinity _ => true | _ => false end.

(** [float(n)] for an [int]: raises when the integer is too large. *)
Definition float_of_int (n : Z) : result float :=
  let x := round_dyadic (n <? 0) (Z.abs n) 0 in
  if is_inf x then Raise OverflowError else Ok x.

(** [a / b] on two [int]s: the correctly rounded quotient. *)
Definition int_truediv (a b : Z) : result float :=
  if b =? 0 then Raise ZeroDivisionError
  else
    let x := round_quotient (xorb (a <? 0) (b <? 0)) (Z.abs a) (Z.abs b) in
    if is_inf x then Raise OverflowError else Ok x.

(** The exact value of a finite float as [m * 2^e], [m] signed. *)
Definition dyadic_of_float (x : float) : option (Z * Z) :=
  match x with
  | S754_zero _ => Some (0, 0)
  | S754_finite s m e => Some (if s then Zneg m else Zpos m, e)
  | _ => None
  end.

(** Comparison of the dyadic numbers [m1 * 2^e1] and [m2 * 2^e2]. *)
Definition dyadic_compare (m1 e1 m2 e2 : Z) : comparison :=
  let e := Z.min e1 e2 in
  (m1 * 2 ^ (e1 - e)) ?= (m2 * 2 ^ (e2 - e)).

(** An optional exponent, [(e|E) [sign] digits]: its value and the unread
    rest.  Without a digit after the sign nothing is read. *)
Definition scan_exponent (s : str) : Z * str :=
  match s with
  | c :: rest =>
      if ((c =? chr "e") || (c =? chr "E"))%N then
        let '(neg, rest') :=
          match rest with
          | sg :: r =>
              if (sg =? chr "-")%N then (true, r)
              else if (sg =? chr "+")%N then (false, r)
              else (false, rest)
          | [] => (false, rest)
          end in
        let '(ds, rest'') := span_digits rest' in
        match ds with
        | [] => (0, s)
        | _ => ((if neg then - digits_value ds else digits_value ds), rest'')
        end
      else (0, s)
  | [] => (0, s)
  end.

(** Decimal text as [strtod] reads it: [digits [. digits]] and an optional
    exponent, with at least one digit in the mantissa.  Returns the mantissa
    digits as an integer, the decimal exponent and the unread rest. *)
Definition scan_decimal (s : str) : option (Z * Z * str) :=
  let '(ip, r1) := span_digits s in
  let '(fp, r2) :=
    match r1 with
    | c :: r =>
        if (c =? chr ".")%N then span_digits r else ([], r1)
    | [] => ([], r1)
    end in
  match ip ++ fp with
  | [] => None
  | ds =>
      let '(ex, r3) := scan_exponent r2 in
      Some (digits_value ds, ex - Z.of_nat (length fp), r3)
  end.

Definition split_sign (s : str) : bool * str :=
  match s with
  | c :: rest =>
      if (c =? chr "-")%N then (true, rest)
      else if (c =? chr "+")%N then (false, rest)
      else (false, s)
  | [] => (false, s)
  end.

(** [float(s)] for a [str]. *)
Definition float_of_str (s : str) : result float :=
  match strip_underscores 0%N (strip (ascii_numeric s)) with
  | None => Raise ValueError
  | Some t =>
      let '(neg, body) := split_sign t in
      let low := to_lower <$> body in
      if str_eqb low (lit "inf") || str_eqb low (lit "infinity")
      then Ok (S754_infinity neg)
      else if str_eqb low (lit "nan") then Ok S754_nan
      else
        match scan_decimal body with
        | Some (d, e, []) => Ok (float_of_decimal neg d e)
        | _ => Raise ValueError
        end
  end.

(** [int(s)] for a [str] (base 10). *)
Definition int_of_str (s : str) : result Z :=
  match strip_underscores 0%N (strip (ascii_numeric s)) with
  | None => Raise ValueError
  | Some t =>
      let '(neg, body) := split_sign t in
      match span_digits body with
      | (c :: ds, []) =>
          let n := digits_value (c :: ds) in Ok (if neg then - n else n)
      | _ => Raise ValueError
      end
  end.

(** [int(x)] for a [float]: truncation towards zero. *)
Definition int_of_float (x : float) : result Z :=
  match x with
  | S754_zero _ => Ok 0
  | S754_finite s m e =>
      let a := if 0 <=? e then Zpos m * 2 ^ e else Zpos m / 2 ^ (- e) in
      Ok (if s then - a else a)
  | S754_infinity _ => Raise OverflowError
  | S754_nan => Raise ValueError
  end.

(** ** Decoded values *)

#[local] Set Warnings "-register-all".

Inductive value :=
  | VNone
  | VBool (b : bool)
  | VInt (n : Z)
  | VFloat (x : float)
  | VStr (s : str)
  | VList (l : list value)
  | VDict (d : list (str * value)).

(** [d[k]] on the items of a dict, in insertion order: the last binding of
    a repeated key is the one the dict holds. *)
Fixpoint dict_get (d : list (str * value)) (k : str) : option value :=
  match d with
  | [] => None
  | (k', v) :: d' =>
      match dict_get d' k with
      | Some w => Some w
      | None => if str_eqb k' k then Some v else None
      end
  end.

(** ** json.loads *)

Inductive parsed (A : Type) :=
  | Parsed (a : A) (rest : str)
  | Malformed
  | OutOfFuel.
Arguments Parsed {A} a rest.
Arguments Malformed {A}.
Arguments OutOfFuel {A}.

Definition is_json_ws (c : char) : bool :=
  ((c =? 32) || (c =? 9) || (c =? 10) || (c =? 13))%N.

Definition skip_ws (s : str) : str := drop_while is_json_ws s.

Definition hex_val (c : char) : option N :=
  if is_digit c then Some (c - 48)%N
  else if ((97 <=? c) && (c <=? 102))%N then Some (c - 87)%N
  else if ((65 <=? c) && (c <=? 70))%N then Some (c - 55)%N
  else None.

Definition hex4 (a b c d : char) : option N :=
  x1 ← hex_val a; x2 ← hex_val b; x3 ← hex_val c; x4 ← hex_val d;
  Some (((x1 * 16 + x2) * 16 + x3) * 16 + x4)%N.

Definition is_high_surrogate (u : N) : bool := ((55296 <=? u) && (u <=? 56319))%N.
Definition is_low_surrogate (u : N) : bool := ((56320 <=? u) && (u <=? 57343))%N.
Definition join_surrogates (hi lo : N) : N :=
  (65536 + (hi - 55296) * 1024 + (lo - 56320))%N.

Definition quote : char := 34%N.
Definition backslash : char := 92%N.
Definition newline : char := 10%N.

Definition escape_char (e : char) : option char :=
  if (e =? quote)%N then Some quote
  else if (e =? backslash)%N then Some backslash
  else if (e =? chr "/")%N then Some (chr "/")
  else if (e =? chr "b")%N then Some 8%N
  else if (e =? chr "f")%N then Some 12%N
  else if (e =? chr "n")%N then Some 10%N
  else if (e =? chr "r")%N then Some 13%N
  else if (e =? chr "t")%N then Some 9%N
  else None.

(** The body of a string literal, after its opening quote (strict mode:
    control characters are refused). *)
Fixpoint scanstring (s : str) (acc : str) : option (str * str) :=
  match s with
  | [] => None
  | c :: rest =>
      if (c =? quote)%N then Some (rev acc, rest)
      else if (c =? backslash)%N then
        match rest with
        | [] => None
        | e :: rest1 =>
            if (e =? chr "u")%N then
              match rest1 with
              | h1 :: h2 :: h3 :: h4 :: rest2 =>
                  match hex4 h1 h2 h3 h4 with
                  | None => None
                  | Some u =>
                      match rest2 with
                      | b :: u' :: g1 :: g2 :: g3 :: g4 :: (_ :: _) as rest3 =>
                          if is_high_surrogate u && (b =? backslash)%N
                             && (u' =? chr "u")%N then
                            match hex4 g1 g2 g3 g4 with
                            | None => None
                            | Some u2 =>
                                if is_low_surrogate u2
                                then scanstring rest3 (join_surrogates u u2 :: acc)
                                else scanstring rest2 (u :: acc)
                            end
                          else scanstring rest2 (u :: acc)
                      | _ => scanstring rest2 (u :: acc)
                      end
                  end
              | _ => None
              end
            else
              match escape_char e with
              | Some ch => scanstring rest1 (ch :: acc)
              | None => None
              end
        end
      else if (c <? 32)%N then None
      else scanstring rest (c :: acc)
  end.

(** A number: an optional minus sign, then a single zero or a run of digits
    that does not start with zero, then an optional fraction (a dot and at
    least one digit) and an optional exponent ([e] or [E], an optional sign
    and at least one digit).  It is an [int] unless it has a fraction or an
    exponent. *)
Definition match_number (s : str) : option (value * str) :=
  let '(neg, s1) :=
    match s with
    | c :: r => if (c =? chr "-")%N then (true, r) else (false, s)
    | [] => (false, s)
    end in
  match s1 with
  | [] => None
  | c :: r =>
      if negb (is_digit c) then None
      else
        let '(ip, r1) :=
          if (c =? chr "0")%N then ([c], r) else span_digits s1 in
        let '(fp, r2) :=
          match r1 with
          | p :: d :: _ =>
              if (p =? chr ".")%N && is_digit d
              then span_digits (tail r1) else ([], r1)
          | _ => ([], r1)
          end in
        let '(ex, r3) := scan_exponent r2 in
        let is_float := negb (bool_decide (fp = [])) || negb (bool_decide (r3 = r2)) in
        if is_float
        then Some (VFloat (float_of_decimal neg (digits_value (ip ++ fp))
                             (ex - Z.of_nat (length fp))), r3)
        else Some (VInt (if neg then - digits_value ip else digits_value ip), r3)
  end.

Definition starts_with (p s : str) : option str :=
  if str_eqb (take (length p) s) p then Some (drop (length p) s) else None.

(** Literals and numbers: the values that do not nest. *)
Definition scan_atom (s : str) : option (value * str) :=
  match starts_with (lit "null") s with Some r => Some (VNone, r) | None =>
  match starts_with (lit "true") s with Some r => Some (VBool true, r) | None =>
  match starts_with (lit "false") s with Some r => Some (VBool false, r) | None =>
  match starts_with (lit "NaN") s with Some r => Some (VFloat S754_nan, r) | None =>
  match starts_with (lit "Infinity") s with Some r => Some (VFloat (S754_infinity false), r) | None =>
  match starts_with (lit "-Infinity") s with Some r => Some (VFloat (S754_infinity true), r) | None =>
  match_number s
  end end end end end end.

Fixpoint scan_once (fuel : nat) (s : str) : parsed value :=
  match fuel with
  | O => OutOfFuel
  | S fuel' =>
      match s with
      | [] => Malformed
      | c :: rest =>
          if (c =? quote)%N then
            match scanstring rest [] with
            | Some (t, r) => Parsed (VStr t) r
            | None => Malformed
            end
          else if (c =? chr "{")%N then
            match skip_ws rest with
            | c' :: r =>
                if (c' =? chr "}")%N then Parsed (VDict []) r
                else parse_members fuel' (c' :: r) []
            | [] => Malformed
            end
          else if (c =? chr "[")%N then
            match skip_ws rest with
            | c' :: r =>
                if (c' =? chr "]")%N then Parsed (VList []) r
                else parse_items fuel' (c' :: r) []
            | [] => Malformed
            end
          else
            match scan_atom s with
            | Some (v, r) => Parsed v r
            | None => Malformed
            end
      end
  end
with parse_items (fuel : nat) (s : str) (acc : list value) : parsed value :=
  match fuel with
  | O => OutOfFuel
  | S fuel' =>
      match scan_once fuel' s with
      | Parsed v r =>
          match skip_ws r with
          | c :: r' =>
              if (c =? chr "]")%N then Parsed (VList (rev (v :: acc))) r'
              else if (c =? chr ",")%N then parse_items fuel' (skip_ws r') (v :: acc)
              else Malformed
          | [] => Malformed
          end
      | Malformed => Malformed
      | OutOfFuel => OutOfFuel
      end
  end
with parse_members (fuel : nat) (s : str) (acc : list (str * value)) : parsed value :=
  match fuel with
  | O => OutOfFuel
  | S fuel' =>
      match s with
      | q :: s' =>
          if (q =? quote)%N then
            match scanstring s' [] with
            | Some (k, r) =>
                match skip_ws r with
                | c :: r1 =>
                    if (c =? chr ":")%N then
                      match scan_once fuel' (skip_ws r1) with
                      | Parsed v r2 =>
                          match skip_ws r2 with
                          | c' :: r3 =>
                              if (c' =? chr "}")%N
                              then Parsed (VDict (rev ((k, v) :: acc))) r3
                              else if (c' =? chr ",")%N
                              then parse_members fuel' (skip_ws r3) ((k, v) :: acc)
                              else Malformed
                          | [] => Malformed
                          end
                      | Malformed => Malformed
                      | OutOfFuel => OutOfFuel
                      end
                    else Malformed
                | [] => Malformed
                end
            | None => Malformed
            end
          else Malformed
      | [] => Malformed
      end
  end.

(** [json.loads(s)]: one value surrounded by optional whitespace.  The fuel
    given is enough for any input (lemma [scan_once_fuel]); nesting depth is
    not bounded in the model. *)
Definition json_loads (s : str) : result value :=
  match s with
  | 65279%N :: _ => Raise JSONDecodeError
  | _ =>
      match scan_once (2 * length s + 2) (skip_ws s) with
      | Parsed v r =>
          match skip_ws r with
          | [] => Ok v
          | _ => Raise JSONDecodeError
          end
      | _ => Raise JSONDecodeError
      end
  end.

(** ** Fixed-point formatting of floats: the format specs [.2f], [,.2f], [+.2f] *)

(** The integer nearest to [a / b] ([a >= 0], [b > 0]), ties to even. *)
Definition round_half_even_div (a b : Z) : Z :=
  let q := a / b in
  match (2 * (a mod b)) ?= b with
  | Lt => q
  | Gt => q + 1
  | Eq => if Z.even q then q else q + 1
  end.

(** The integer nearest to [m * 2^e * 10^p], ties to even. *)
Definition scaled_round (m : positive) (e : Z) (p : nat) : Z :=
  if 0 <=? e then Zpos m * 2 ^ e * 10 ^ Z.of_nat p
  else round_half_even_div (Zpos m * 10 ^ Z.of_nat p) (2 ^ (- e)).

Fixpoint commas_rev (rds : str) (i : nat) : str :=
  match rds with
  | [] => []
  | d :: r =>
      (if (0 <? i)%nat && (i mod 3 =? 0)%nat then [chr ","] else [])
      ++ d :: commas_rev r (S i)
  end.

Definition group_thousands (ds : str) : str := rev (commas_rev (rev ds) 0).

Definition is_negative (x : float) : bool :=
  match x with
  | S754_zero s | S754_infinity s | S754_finite s _ _ => s
  | S754_nan => false
  end.

(** [format(x, spec)] for a float [x] and the spec [.pf], with the [+] and
    [,] options. *)
Definition format_f (plus comma : bool) (p : nat) (x : float) : str :=
  let sign := if is_negative x then lit "-" else if plus then lit "+" else [] in
  let fixed (n : Z) :=
    let ip := str_of_nonneg (n / 10 ^ Z.of_nat p) in
    let fp := zfill p (str_of_nonneg (n mod 10 ^ Z.of_nat p)) in
    (if comma then group_thousands ip else ip)
    ++ (match p with O => [] | _ => chr "." :: fp end) in
  sign ++
  match x with
  | S754_nan => lit "nan"
  | S754_infinity _ => lit "inf"
  | S754_zero _ => fixed 0
  | S754_finite _ m e => fixed (scaled_round m e p)
  end.

(** ** datetime.fromtimestamp and strftime *)

Record datetime := {
  year : Z; month : Z; day : Z;
  hour : Z; minute : Z; second : Z; microsecond : Z
}.

(** The proleptic Gregorian date of a day number (days since 1970-01-01). *)
Definition civil_from_days (z : Z) : Z * Z * Z :=
  let z := z + 719468 in
  let era := z / 146097 in
  let doe := z - era * 146097 in
  let yoe := (doe - doe / 1460 + doe / 36524 - doe / 146096) / 365 in
  let y := yoe + era * 400 in
  let doy := doe - (365 * yoe + yoe / 4 - yoe / 100) in
  let mp := (5 * doy + 2) / 153 in
  let d := doy - (153 * mp + 2) / 5 + 1 in
  let m := if mp <? 10 then mp + 3 else mp - 9 in
  ((if m <=? 2 then y + 1 else y), m, d).

Definition MINYEAR : Z := 1.
Definition MAXYEAR : Z := 9999.
Definition max_fold_seconds : Z := 24 * 3600.

(** [modf] followed by the rounding of the fraction to microseconds
    (ties to even): whole seconds and microseconds of a finite float. *)
Definition float_round_half_even (x : float) : Z :=
  match x with
  | S754_finite s m e =>
      let a := if 0 <=? e then Zpos m * 2 ^ e
               else round_half_even_div (Zpos m) (2 ^ (- e)) in
      if s then - a else a
  | _ => 0
  end.

Definition modf (x : float) : Z * float :=
  match x with
  | S754_finite s m e =>
      if 0 <=? e then ((if s then - (Zpos m * 2 ^ e) else Zpos m * 2 ^ e), S754_zero s)
      else
        let a := Zpos m / 2 ^ (- e) in
        ((if s then - a else a), round_dyadic s (Zpos m mod 2 ^ (- e)) e)
  | _ => (0, x)
  end.

Definition f1000000 : float := Eval vm_compute in round_dyadic false 1000000 0.
Definition f1000 : float := Eval vm_compute in round_dyadic false 1000 0.
Definition f100 : float := Eval vm_compute in round_dyadic false 100 0.

Definition timeval_of_float (x : float) : result (Z * Z) :=
  match x with
  | S754_nan => Raise ValueError
  | S754_infinity _ => Raise OverflowError
  | _ =>
      let '(intpart, floatpart) := modf x in
      let us := float_round_half_even (fmul floatpart f1000000) in
      let '(intpart, us) :=
        if 1000000 <=? us then (intpart + 1, us - 1000000)
        else if us <? 0 then (intpart - 1, us + 1000000)
        else (intpart, us) in
      if (- 2 ^ 63 <=? intpart) && (intpart <? 2 ^ 63)
      then Ok (intpart, us)
      else Raise OverflowError
  end.

Section LocalTime.
(** The local time zone: the offset from UTC, in seconds, that is in
    force at a given number of seconds since the epoch. *)
Variable utcoffset : Z → Z.

(** [localtime] followed by the range check on the year. *)
Definition local_civil (t : Z) (us : Z) : result datetime :=
  let l := t + utcoffset t in
  let '(y, m, d) := civil_from_days (l / 86400) in
  let sod := l mod 86400 in
  if (MINYEAR <=? y) && (y <=? MAXYEAR) then
    Ok {| year := y; month := m; day := d;
          hour := sod / 3600; minute := sod mod 3600 / 60;
          second := Z.min 59 (sod mod 60); microsecond := us |}
  else Raise ValueError.

(** [datetime.fromtimestamp(x)] for a float [x], with the two probes that
    detect a repeated local time, each of which may fall out of range. *)
Definition fromtimestamp (x : float) : result datetime :=
  '(timet, us) ← timeval_of_float x;
  dt ← local_civil timet us;
  probe ← local_civil (timet - max_fold_seconds) 0;
  let transition := utcoffset timet - utcoffset (timet - max_fold_seconds) in
  if transition <? 0 then
    probe' ← local_civil (timet + transition) 0;
    mret dt
  else mret dt.
End LocalTime.

(** [dt.strftime('%Y-%m-%d %H:%M:%S')] with the C library of CPython on
    Linux (glibc): [%Y] is the year without padding, so it has fewer than
    four digits before the year 1000; the other fields have two digits. *)
Definition strftime (dt : datetime) : str :=
  str_of_int (year dt) ++ lit "-" ++
  zfill 2 (str_of_int (month dt)) ++ lit "-" ++
  zfill 2 (str_of_int (day dt)) ++ lit " " ++
  zfill 2 (str_of_int (hour dt)) ++ lit ":" ++
  zfill 2 (str_of_int (minute dt)) ++ lit ":" ++
  zfill 2 (str_of_int (second dt)).

(** ** Operations on decoded values *)

(** [v[k]] for a [str] key [k]. *)
Definition subscript (v : value) (k : str) : result value :=
  match v with
  | VDict d =>
      match dict_get d k with
      | Some w => Ok w
      | None => Raise KeyError
      end
  | _ => Raise TypeError
  end.

(** [v[:n]]: defined on strings and lists. *)
Definition slice_to (n : nat) (v : value) : result value :=
  match v with
  | VStr s => Ok (VStr (take n s))
  | VList l => Ok (VList (take n l))
  | _ => Raise TypeError
  end.

(** [k in v] and [v.get(k, dflt)], used on a value that earlier subscripts
    by a [str] key have shown to be a dict. *)
Definition contains_key (v : value) (k : str) : result bool :=
  match v with
  | VDict d => Ok (bool_decide (is_Some (dict_get d k)))
  | _ => Raise TypeError
  end.

Definition get_default (v : value) (k : str) (dflt : value) : result value :=
  match v with
  | VDict d => Ok (default dflt (dict_get d k))
  | _ => Raise AttributeError
  end.

(** Truth value of a decoded value. *)
Definition truthy (v : value) : bool :=
  match v with
  | VNone => false
  | VBool b => b
  | VInt n => negb (n =? 0)
  | VFloat x => negb (is_fzero x)
  | VStr s => negb (bool_decide (s = []))
  | VList l => match l with [] => false | _ => true end
  | VDict d => match d with [] => false | _ => true end
  end.

(** The items a [for] loop takes from a string or a list. *)
Definition iter_items (v : value) : result (list value) :=
  match v with
  | VList l => Ok l
  | VStr s => Ok ((λ c, VStr [c]) <$> s)
  | VDict d => Ok ((λ kv, VStr kv.1) <$> d)
  | _ => Raise TypeError
  end.

(** [format(v, '>ws')]: only a [str] accepts the [s] presentation type. *)
Definition format_s (w : nat) (v : value) : result str :=
  match v with
  | VStr s => Ok (rjust w s)
  | VBool _ | VInt _ | VFloat _ => Raise ValueError
  | _ => Raise TypeError
  end.

(** [int(v)] and [float(v)]. *)
Definition py_int (v : value) : result Z :=
  match v with
  | VStr s => int_of_str s
  | VInt n => Ok n
  | VBool b => Ok (if b then 1 else 0)
  | VFloat x => int_of_float x
  | _ => Raise TypeError
  end.

Definition py_float (v : value) : result float :=
  match v with
  | VStr s => float_of_str s
  | VInt n => float_of_int n
  | VBool b => float_of_int (if b then 1 else 0)
  | VFloat x => Ok x
  | _ => Raise TypeError
  end.

(** Numbers: [int] (with [bool]) and [float]. *)
Inductive num :=
  | NInt (n : Z)
  | NFloat (x : float).

Definition as_num (v : value) : result num :=
  match v with
  | VBool b => Ok (NInt (if b then 1 else 0))
  | VInt n => Ok (NInt n)
  | VFloat x => Ok (NFloat x)
  | _ => Raise TypeError
  end.

Definition num_to_float (a : num) : result float :=
  match a with
  | NInt n => float_of_int n
  | NFloat x => Ok x
  end.

(** Comparison of an [int] with a [float] is exact. *)
Definition int_float_compare (n : Z) (y : float) : option comparison :=
  match y with
  | S754_nan => None
  | S754_infinity s => Some (if s then Gt else Lt)
  | S754_zero _ => Some (n ?= 0)
  | S754_finite s m e => Some (dyadic_compare n 0 (if s then Zneg m else Zpos m) e)
  end.

(** [None] when the operands are unordered (one of them is a NaN). *)
Definition num_compare (a b : num) : option comparison :=
  match a, b with
  | NInt x, NInt y => Some (x ?= y)
  | NFloat x, NFloat y => SFcompare x y
  | NInt x, NFloat y => int_float_compare x y
  | NFloat x, NInt y => CompOpp <$> int_float_compare y x
  end.

Definition num_gt (a b : num) : bool :=
  match num_compare a b with Some Gt => true | _ => false end.
Definition num_ge (a b : num) : bool :=
  match num_compare a b with Some (Gt | Eq) => true | _ => false end.

Definition num_sub (a b : num) : result num :=
  match a, b with
  | NInt x, NInt y => Ok (NInt (x - y))
  | _, _ => x ← num_to_float a; y ← num_to_float b; Ok (NFloat (fsub x y))
  end.

Definition num_truediv (a b : num) : result float :=
  match a, b with
  | NInt x, NInt y => int_truediv x y
  | _, _ => x ← num_to_float a; y ← num_to_float b; fdiv x y
  end.

(** [format(a, spec)] for the fixed-point specs: an [int] is converted to a
    float first. *)
Definition num_format_f (plus comma : bool) (p : nat) (a : num) : result str :=
  x ← num_to_float a; Ok (format_f plus comma p x).

(** ** Output, file system and the statement monad *)

(** A printed line is the sequence of the parts of its f-string: literal or
    already formatted text, and decoded values shown through [str()]. *)
Inductive piece :=
  | Lit (s : str)
  | Val (v : value).

Definition line := list piece.

(** A file holds its decoded text and its size in bytes; of a directory
    only the size matters. *)
Inductive node :=
  | File (text : str) (size : Z)
  | Dir (size : Z).

Abbreviation filesystem := (gmap str node).

Inductive event :=
  | EPrint (l : line)
  | EExists (path : str)
  | EOpen (path : str)
  | EClose (path : str)
  | EGetsize (path : str)
  | EDecode (s : str).

Definition M (A : Type) : Type := list event * result A.

#[global] Instance M_ret : MRet M := λ A a, ([], Ok a).
#[global] Instance M_bind : MBind M := λ A B f m,
  match m with
  | (t, Ok a) => let '(t', r) := f a in (t ++ t', r)
  | (t, Raise e) => (t, Raise e)
  end.

Definition lift {A} (r : result A) : M A := ([], r).
Definition emit (e : event) : M unit := ([e], Ok tt).
Definition print (l : line) : M unit := emit (EPrint l).

(** The lines of a text file opened in text mode: every line keeps its
    terminator, and the terminators CR and CR LF are read as LF. *)
Fixpoint readlines (s : str) (cur : str) : list str :=
  match s with
  | [] => match cur with [] => [] | _ => [rev cur] end
  | c :: rest =>
      if (c =? 10)%N then rev (newline :: cur) :: readlines rest []
      else if (c =? 13)%N then
        match rest with
        | c' :: rest' =>
            if (c' =? 10)%N then rev (newline :: cur) :: readlines rest' []
            else rev (newline :: cur) :: readlines rest []
        | [] => [rev (newline :: cur)]
        end
      else readlines rest (c :: cur)
  end.

(** [os.path.join(a, b)]. *)
Definition path_join (a b : str) : str :=
  match b with
  | 47%N :: _ => b
  | _ =>
      match last a with
      | None => b
      | Some c => if (c =? 47)%N then a ++ b else a ++ lit "/" ++ b
      end
  end.

Definition rule : str := replicate 70 (chr "=").

Record Args := {
  arg_stats : bool;
  arg_snapshots : bool;
  arg_price_changes : bool;
  arg_trades : bool;
  arg_tick_changes : bool;
  arg_all : bool;
  arg_limit : option Z;
  arg_data_dir : str
}.

(** The running aggregate of [read_trades]. *)
Record aggregate := {
  count : Z;
  total_volume : float;
  side_counts : gmap str Z
}.

Inductive movement := UP | DOWN.

Definition movement_label (m : movement) : str :=
  match m with
  | UP => lit "UP " ++ [128200%N]
  | DOWN => lit "DOWN " ++ [128201%N]
  end.

(** A literal segment of an f-string. *)
Definition T (s : string) : piece := Lit (lit s).

(** [if limit and count >= limit]: [None] and [0] never stop the loop. *)
Definition limit_reached (limit : option Z) (count : Z) : bool :=
  match limit with
  | Some n => negb (n =? 0) && (n <=? count)
  | None => false
  end.

(** ** The script *)

Section ReadData.
Variable utcoffset : Z → Z.
Variable fs : filesystem.

Definition path_exists (path : str) : M bool :=
  ([EExists path], Ok (bool_decide (is_Some (fs !! path)))).

Definition getsize (path : str) : M Z :=
  ([EGetsize path],
   match fs !! path with
   | Some (File _ size) | Some (Dir size) => Ok size
   | None => Raise FileNotFoundError
   end).

Definition loads (s : str) : M value := ([EDecode s], json_loads s).

(** [with open(path, 'r') as f: body], the body being given the lines that
    iterating over [f] yields; the file is closed on every exit. *)
Definition with_open {A} (path : str) (body : list str → M A) : M A :=
  match fs !! path with
  | Some (File text _) =>
      let '(t, r) := body (readlines text []) in
      (EOpen path :: t ++ [EClose path], r)
  | Some (Dir _) => ([EOpen path], Raise IsADirectoryError)
  | None => ([EOpen path], Raise FileNotFoundError)
  end.

Definition format_timestamp (ts_str : value) : value :=
  match
    n ← py_int ts_str;
    x ← float_of_int n;
    ts ← fdiv x f1000;
    dt ← fromtimestamp utcoffset ts;
    mret (strftime dt)
  with
  | Ok s => VStr s
  | Raise _ => ts_str
  end.

(** The three lines that open the display of every record. *)
Definition time_line (record : value) : result line :=
  ts ← subscript record (lit "timestamp");
  mret [T "Time: "; Val (format_timestamp ts)].

Definition asset_line (record : value) : result line :=
  asset_id ← subscript record (lit "asset_id");
  prefix ← slice_to 20 asset_id;
  mret [T "Asset ID: "; Val prefix; T "..."].

Definition market_line (record : value) : result line :=
  market ← subscript record (lit "market");
  mret [T "Market: "; Val market].

(** *** read_orderbook_snapshots *)

Definition classify (current hourly_open : num) : movement :=
  if num_ge current hourly_open then UP else DOWN.

(** The line of the hourly candle: open, current, change, change in per
    cent and movement. *)
Definition candle_line (current hourly_open : num) : result line :=
  let movement := classify current hourly_open in
  change ← num_sub current hourly_open;
  ratio ← num_truediv change hourly_open;
  let change_pct := fmul ratio f100 in
  s_open ← num_format_f false true 2 hourly_open;
  s_current ← num_format_f false true 2 current;
  s_change ← num_format_f true false 2 change;
  mret [T "BTC 1H Candle: Open=$"; Lit s_open;
        T " Current=$"; Lit s_current;
        T " ("; Lit s_change; T " / ";
        Lit (format_f true false 2 change_pct); T "%) ";
        Lit (movement_label movement)].

Definition price_line (current : num) : result line :=
  s_current ← num_format_f false true 2 current;
  mret [T "BTC Price: $"; Lit s_current].

(** The BTC price line of a snapshot, if it has one. *)
Definition btc_line (snapshot : value) : result (option line) :=
  present ← contains_key snapshot (lit "btc_price_current");
  positive ←
    (if present : bool then
       v ← subscript snapshot (lit "btc_price_current");
       a ← as_num v;
       mret (num_gt a (NInt 0))
     else mret false);
  if positive : bool then
    v ← subscript snapshot (lit "btc_price_current");
    current ← as_num v;
    legacy ← get_default snapshot (lit "btc_price_hourly") (VInt 0);
    w ← get_default snapshot (lit "btc_price_hourly_open") legacy;
    hourly_open ← as_num w;
    if num_gt hourly_open (NInt 0)
    then l ← candle_line current hourly_open; mret (Some l)
    else l ← price_line current; mret (Some l)
  else mret None.

Definition level_line (i : Z) (level : value) : result line :=
  price ← subscript level (lit "price");
  s_price ← format_s 6 price;
  size ← subscript level (lit "size");
  mret [T "  "; Val (VInt (i + 1)); T ". Price: "; Lit s_price;
        T "  Size: "; Val size].

Fixpoint print_levels (levels : list value) (i : Z) : M unit :=
  match levels with
  | [] => mret tt
  | level :: rest =>
      l ← lift (level_line i level);
      print l;;
      print_levels rest (i + 1)
  end.

(** One side of the book: [key] is [bids] or [asks]. *)
Definition print_side (snapshot : value) (key : str) (title : str) : M unit :=
  levels ← lift (subscript snapshot key);
  if truthy levels then
    print [Lit (newline :: title)];;
    top ← lift (v ← subscript snapshot key; s ← slice_to 5 v; iter_items s);
    print_levels top 0
  else mret tt.

Definition snapshot_body (count : Z) (line : str) : M unit :=
  snapshot ← loads line;
  print [Lit (newline :: lit "Snapshot #"); Val (VInt (count + 1))];;
  l ← lift (time_line snapshot); print l;;
  l ← lift (asset_line snapshot); print l;;
  l ← lift (market_line snapshot); print l;;
  btc ← lift (btc_line snapshot);
  match btc with Some l => print l | None => mret tt end;;
  print_side snapshot (lit "bids") (lit "Top 5 Bids:");;
  print_side snapshot (lit "asks") (lit "Top 5 Asks:").

Fixpoint snapshots_loop (limit : option Z) (lines : list str) (count : Z) : M Z :=
  match lines with
  | [] => mret count
  | line :: rest =>
      if limit_reached limit count then mret count
      else snapshot_body count line;; snapshots_loop limit rest (count + 1)
  end.

Definition read_orderbook_snapshots (filepath : str) (limit : option Z) : M unit :=
  found ← path_exists filepath;
  if negb found then print [T "File not found: "; Lit filepath]
  else
    print [Lit (newline :: rule)];;
    print [T "ORDERBOOK SNAPSHOTS"];;
    print [Lit rule];;
    count ← with_open filepath (λ lines, snapshots_loop limit lines 0);
    print [Lit (newline :: lit "Total snapshots: "); Val (VInt count)].

(** *** read_price_changes *)

Definition read_price_changes (filepath : str) (limit : option Z) : M unit :=
  print [T "price_changes.json storage is disabled."].

(** *** read_trades *)

Definition initial_aggregate : aggregate :=
  {| count := 0; total_volume := fzero; side_counts := ∅ |}.

(** [side_counts[side] += 1] on a [defaultdict(int)]. *)
Definition bump (side : str) (m : gmap str Z) : gmap str Z :=
  <[side := default 0 (m !! side) + 1]> m.

Definition side_line (trade : value) : result line :=
  side ← subscript trade (lit "side");
  s_side ← format_s 4 side;
  price ← subscript trade (lit "price");
  s_price ← format_s 6 price;
  size ← subscript trade (lit "size");
  mret [T "Side: "; Lit s_side; T "  Price: "; Lit s_price;
        T "  Size: "; Val size].

Definition fee_line (trade : value) : result line :=
  fee ← subscript trade (lit "fee_rate_bps");
  x ← py_float fee;
  pct ← fdiv x f100;
  mret [T "Fee Rate: "; Val fee; T " bps ("; Val (VFloat pct); T "%)"].

Definition notional_of (trade : value) : result float :=
  price ← subscript trade (lit "price");
  p ← py_float price;
  size ← subscript trade (lit "size");
  s ← py_float size;
  mret (fmul p s).

(** The key under which a trade is counted: its [side], a [str] once the
    side line has been formatted. *)
Definition side_key (trade : value) : result str :=
  side ← subscript trade (lit "side");
  match side with
  | VStr s => Ok s
  | _ => Raise TypeError
  end.

(** The three updates that end the body of the loop. *)
Definition record_trade (st : aggregate) (notional : float) (side : str)
  : aggregate :=
  {| count := count st + 1;
     total_volume := fadd (total_volume st) notional;
     side_counts := bump side (side_counts st) |}.

Definition trade_body (st : aggregate) (line : str) : M aggregate :=
  trade ← loads line;
  print [Lit (newline :: lit "Trade #"); Val (VInt (count st + 1))];;
  l ← lift (time_line trade); print l;;
  l ← lift (asset_line trade); print l;;
  l ← lift (side_line trade); print l;;
  l ← lift (fee_line trade); print l;;
  notional ← lift (notional_of trade);
  print [T "Notional Value: $"; Lit (format_f false false 2 notional)];;
  side ← lift (side_key trade);
  mret (record_trade st notional side).

Fixpoint trades_loop (limit : option Z) (lines : list str) (st : aggregate)
  : M aggregate :=
  match lines with
  | [] => mret st
  | line :: rest =>
      if limit_reached limit (count st) then mret st
      else st' ← trade_body st line; trades_loop limit rest st'
  end.

(** The report printed after the loop; reading a missing key of the
    [defaultdict] gives 0. *)
Definition trades_report (st : aggregate) : M unit :=
  print [Lit (newline :: rule)];;
  print [T "Total trades: "; Val (VInt (count st))];;
  print [T "Total volume: $"; Lit (format_f false false 2 (total_volume st))];;
  if bool_decide (side_counts st = ∅) then mret tt
  else
    print [T "Buy trades: "; Val (VInt (default 0 (side_counts st !! lit "BUY")))];;
    print [T "Sell trades: "; Val (VInt (default 0 (side_counts st !! lit "SELL")))].

Definition read_trades (filepath : str) (limit : option Z) : M unit :=
  found ← path_exists filepath;
  if negb found then print [T "File not found: "; Lit filepath]
  else
    print [Lit (newline :: rule)];;
    print [T "TRADES"];;
    print [Lit rule];;
    st ← with_open filepath (λ lines, trades_loop limit lines initial_aggregate);
    trades_report st.

(** *** read_tick_size_changes *)

Definition tick_line (change : value) : result line :=
  old ← subscript change (lit "old_tick_size");
  new ← subscript change (lit "new_tick_size");
  mret [T "Old Tick Size: "; Val old; T " -> New Tick Size: "; Val new].

Definition tick_body (count : Z) (line : str) : M unit :=
  change ← loads line;
  print [Lit (newline :: lit "Change #"); Val (VInt (count + 1))];;
  l ← lift (time_line change); print l;;
  l ← lift (asset_line change); print l;;
  l ← lift (market_line change); print l;;
  l ← lift (tick_line change); print l.

Fixpoint ticks_loop (lines : list str) (count : Z) : M Z :=
  match lines with
  | [] => mret count
  | line :: rest => tick_body count line;; ticks_loop rest (count + 1)
  end.

Definition read_tick_size_changes (filepath : str) : M unit :=
  found ← path_exists filepath;
  if negb found then print [T "File not found: "; Lit filepath]
  else
    print [Lit (newline :: rule)];;
    print [T "TICK SIZE CHANGES"];;
    print [Lit rule];;
    count ← with_open filepath (λ lines, ticks_loop lines 0);
    print [Lit (newline :: lit "Total tick size changes: "); Val (VInt count)].

(** *** get_statistics *)

Definition files : list (str * str) :=
  [ (lit "Orderbook Snapshots", lit "orderbook_snapshots.json");
    (lit "Trades", lit "trades.json");
    (lit "Tick Size Changes", lit "tick_size_changes.json") ].

(** The body of the loop over [files.items()]. *)
Definition dataset_statistics (data_dir : str) (entry : str * str) : M unit :=
  let '(name, filename) := entry in
  let filepath := path_join data_dir filename in
  found ← path_exists filepath;
  if found : bool then
    line_count ← with_open filepath (λ lines, mret (Z.of_nat (length lines)));
    size_bytes ← getsize filepath;
    size_mb ← lift (int_truediv size_bytes (1024 * 1024));
    print [Lit [newline]; Lit name; T ":"];;
    print [T "  File: "; Lit filepath];;
    print [T "  Messages: "; Val (VInt line_count)];;
    print [T "  Size: "; Lit (format_f false false 2 size_mb); T " MB"]
  else
    print [Lit [newline]; Lit name; T ": No data yet"].

Fixpoint for_each {A} (body : A → M unit) (l : list A) : M unit :=
  match l with
  | [] => mret tt
  | x :: rest => body x;; for_each body rest
  end.

Definition get_statistics (data_dir : str) : M unit :=
  print [Lit (newline :: rule)];;
  print [T "DATA STATISTICS"];;
  print [Lit rule];;
  for_each (dataset_statistics data_dir) files.

(** *** main, after [parse_args] *)

Definition when (b : bool) (m : M unit) : M unit := if b then m else mret tt.

Definition main (args : Args) : M unit :=
  let stats :=
    if arg_stats args || arg_snapshots args || arg_trades args
       || arg_tick_changes args || arg_all args
    then arg_stats args else true in
  found ← path_exists (arg_data_dir args);
  if negb found then
    print [T "Error: Data directory '"; Lit (arg_data_dir args); T "' does not exist."];;
    print [T "Run the Go client first to generate data."]
  else
    when (stats || arg_all args) (get_statistics (arg_data_dir args));;
    when (arg_snapshots args || arg_all args)
      (read_orderbook_snapshots
         (arg_data_dir args ++ lit "/orderbook_snapshots.json") (arg_limit args));;
    when (arg_price_changes args)
      (read_price_changes
         (arg_data_dir args ++ lit "/price_changes.json") (arg_limit args));;
    when (arg_trades args || arg_all args)
      (read_trades (arg_data_dir args ++ lit "/trades.json") (arg_limit args));;
    when (arg_tick_changes args || arg_all args)
      (read_tick_size_changes (arg_data_dir args ++ lit "/tick_size_changes.json")).
End ReadData.

(** ** Observations on a trace *)

Definition printed (t : list event) : list line :=
  omap (λ e, match e with EPrint l => Some l | _ => None end) t.

Definition decoded (t : list event) : list str :=
  omap (λ e, match e with EDecode s => Some s | _ => None end) t.

Definition is_file_access (e : event) : bool :=
  match e with
  | EPrint _ | EDecode _ => false
  | _ => true
  end.

Definition file_accesses (t : list event) : list event :=
  List.filter is_file_access t.

(** The text of a printed line, when every value it shows is a string or
    an integer ([str()] of the other values is not modelled). *)
Definition show_text (v : value) : option str :=
  match v with
  | VStr s => Some s
  | VInt n => Some (str_of_int n)
  | _ => None
  end.

Definition piece_text (p : piece) : option str :=
  match p with
  | Lit s => Some s
  | Val v => show_text v
  end.

Fixpoint line_text (l : line) : option str :=
  match l with
  | [] => Some []
  | p :: l' => s ← piece_text p; r ← line_text l'; Some (s ++ r)
  end.

(** The integer that the first printed line labelled [label] shows. *)
Fixpoint find_count (label : str) (ls : list line) : option Z :=
  match ls with
  | [] => None
  | [Lit s; Val (VInt n)] :: ls' =>
      if str_eqb s label then Some n else find_count label ls'
  | _ :: ls' => find_count label ls'
  end.

(** Text of the form [dddd-dd-dd dd:dd:dd]. *)
Definition is_calendar_string (s : str) : bool :=
  match s with
  | [y1; y2; y3; y4; s1; m1; m2; s2; d1; d2; s3; h1; h2; s4; n1; n2; s5; c1; c2] =>
      forallb is_digit [y1; y2; y3; y4; m1; m2; d1; d2; h1; h2; n1; n2; c1; c2]
      && (s1 =? chr "-")%N && (s2 =? chr "-")%N && (s3 =? chr " ")%N
      && (s4 =? chr ":")%N && (s5 =? chr ":")%N
  | _ => false
  end.

(** A line that holds nothing but white space. *)
Definition is_blank (line : str) : bool := forallb is_space line.

(** What the body of the trades loop takes from a line, the notional and
    the side, or the first exception that the body raises on it. *)
Definition trade_parts (line : str) : result (float * str) :=
  trade ← json_loads line;
  _ ← subscript trade (lit "timestamp");
  _ ← asset_line trade;
  _ ← side_line trade;
  _ ← fee_line trade;
  notional ← notional_of trade;
  side ← side_key trade;
  mret (notional, side).

Definition is_print (e : event) : Prop :=
  match e with EPrint _ => True | _ => False end.

(** Sum of the counts held by the per-side mapping. *)
Definition sum_counts (m : gmap str Z) : Z :=
  map_fold (λ _ n acc, n + acc) 0 m.

(** The lines a reader takes from the file before its limit stops it, when
    it starts with [count] records already displayed. *)
Definition processed (limit : option Z) (count : Z) (lines : list str) : list str :=
  match limit with
  | Some n => if n =? 0 then lines else take (Z.to_nat (n - count)) lines
  | None => lines
  end.

Definition utc : Z → Z := λ _, 0.

(** ** Definitions used to state the properties *)

(** The bodies of the snapshot and tick-size loops, with the increment of
    the record count that ends them in the source. *)
Definition snapshot_step (utcoffset : Z → Z) (n : Z) (line : str) : M Z :=
  snapshot_body utcoffset n line;; mret (n + 1).

Definition tick_step (utcoffset : Z → Z) (n : Z) (line : str) : M Z :=
  tick_body utcoffset n line;; mret (n + 1).

(** The aggregate after a run of trades, given as notional and side. *)
Definition record_all (parts : list (float * str)) (st : aggregate) : aggregate :=
  fold_left (λ st p, record_trade st p.1 p.2) parts st.

(** Computations that only print. *)
Definition only_prints {A} (m : M A) : Prop := Forall is_print m.1.

Abbreviation all_digits := (Forall (λ c, is_digit c = true)).

Definition in_calendar_range (dt : datetime) : Prop :=
  1 <= year dt <= 9999 ∧ 1 <= month dt <= 12 ∧ 1 <= day dt <= 31
  ∧ 0 <= hour dt <= 23 ∧ 0 <= minute dt <= 59 ∧ 0 <= second dt <= 59.

(** A loop that decodes the lines of the file one by one, in order, blank
    lines included: what it has decoded is always an initial part of the
    file; a pass that ends normally has decoded exactly the lines that the
    limit lets through; a blank line that is reached raises the decoding
    error, and no line after it is decoded. *)
Definition decodes_line_by_line {S : Type} (limit : option Z) (count_of : S → Z)
    (body : S → str → M S) (loop : list str → S → M S) : Prop :=
  (∀ lines st, ∃ k, decoded (loop lines st).1 = take k lines)
  ∧ (∀ lines st st',
       (loop lines st).2 = Ok st' →
       decoded (loop lines st).1 = processed limit (count_of st) lines)
  ∧ (∀ good blank rest st,
       is_blank blank = true →
       limit_reached limit (count_of st + Z.of_nat (length good)) = false →
       Forall (λ line, ∀ st, ∃ st', (body st line).2 = Ok st') good →
       (loop (good ++ blank :: rest) st).2 = Raise JSONDecodeError
       ∧ decoded (loop (good ++ blank :: rest) st).1 = good ++ [blank]).






(** The report that the statistics reporter is specified to give for one
    dataset: for a file, its line count and its size in mebibytes with two
    decimals; for a missing file, the notice that there is no data yet. *)
Definition expected_statistics (name filepath : str) (n : option node) : list event :=
  match n with
  | Some (File text size) =>
      [ EExists filepath; EOpen filepath; EClose filepath; EGetsize filepath;
        EPrint [Lit [newline]; Lit name; T ":"];
        EPrint [T "  File: "; Lit filepath];
        EPrint [T "  Messages: "; Val (VInt (Z.of_nat (length (readlines text []))))];
        EPrint [T "  Size: ";
                Lit (format_f false false 2 (round_quotient false size (1024 * 1024)));
                T " MB"] ]
  | _ => [ EExists filepath; EPrint [Lit [newline]; Lit name; T ": No data yet"] ]
  end.

(** A path that names a regular file (of a size that a file system can
    hold) or nothing at all. *)
Definition file_or_missing (n : option node) : Prop :=
  match n with
  | Some (File _ size) => 0 <= size < 2 ^ 63
  | Some (Dir _) => False
  | None => True
  end.

(** What a parser gives when its fuel is enough: never [OutOfFuel], and a
    rest that is shorter than its input. *)
Definition consumes {A} (s : str) (p : parsed A) : Prop :=
  match p with
  | Parsed _ r => (length r < length s)%nat
  | Malformed => True
  | OutOfFuel => False
  end.

(** ** Example data

    JSON text is written with apostrophes in place of double quotes. *)

Definition sample (s : string) : str :=
  (λ c, if (c =? 39)%N then quote else c) <$> lit s.

Definition buy_line : str :=
  sample "{'timestamp':'1700000000000','asset_id':'abc123...','side':'BUY','price':'0.55','size':'10','fee_rate_bps':'50'}"
  ++ [newline].

Definition sell_line : str :=
  sample "{'timestamp':'1700000000000','asset_id':'abc123...','side':'SELL','price':'0.60','size':'5','fee_rate_bps':'50'}"
  ++ [newline].

Definition big_line : str :=
  sample "{'timestamp':'1700000000000','asset_id':'abc123...','side':'BUY','price':'1','size':'10000000000000000','fee_rate_bps':'50'}"
  ++ [newline].

Definition unit_line : str :=
  sample "{'timestamp':'1700000000000','asset_id':'abc123...','side':'SELL','price':'1','size':'1','fee_rate_bps':'50'}"
  ++ [newline].

Definition snapshot_line : str :=
  sample "{'timestamp':'1700000000000','asset_id':'abc123...','market':'0xabc','bids':[{'price':'0.54','size':'100'}],'asks':[],'btc_price_current':50100.5,'btc_price_hourly_open':50000}"
  ++ [newline].

Definition change_line : str :=
  sample "{'timestamp':'1700000000000','asset_id':'abc123...','market':'0xabc','old_tick_size':'0.01','new_tick_size':'0.001'}"
  ++ [newline].

Definition trades_json : str := lit "data/trades.json".
Definition snapshots_json : str := lit "data/orderbook_snapshots.json".
Definition changes_json : str := lit "data/tick_size_changes.json".

Definition file_of (text : str) : node := File text (Z.of_nat (length text)).

(** A data directory with two records in each dataset. *)
Definition example_fs : filesystem :=
  {[ lit "data" := Dir 4096;
     snapshots_json := file_of (snapshot_line ++ snapshot_line);
     trades_json := file_of (buy_line ++ sell_line);
     changes_json := file_of (change_line ++ change_line) ]}.

(** A data directory that holds the snapshot file only. *)
Definition snapshots_only_fs : filesystem :=
  {[ lit "data" := Dir 4096;
     snapshots_json := file_of (snapshot_line ++ snapshot_line) ]}.

(** A data directory that holds the trades file only, 1.5 MiB on disk. *)
Definition trades_only_fs : filesystem :=
  {[ lit "data" := Dir 4096;
     trades_json := File (buy_line ++ sell_line) 1572864 ]}.

(** The arguments of [--tick-changes --limit N]. *)
Definition tick_only (limit : option Z) : Args :=
  {| arg_stats := false; arg_snapshots := false; arg_price_changes := false;
     arg_trades := false; arg_tick_changes := true; arg_all := false;
     arg_limit := limit; arg_data_dir := lit "data" |}.

(** ** Definitions used to state the further properties *)

(** The calls to the file system that a reader makes on [path], by what the
    path names: it is tested, then opened if it exists, then closed if it
    could be opened. *)
Definition reader_accesses (fs : filesystem) (path : str) : list event :=
  match fs !! path with
  | Some (File _ _) => [EExists path; EOpen path; EClose path]
  | Some (Dir _) => [EExists path; EOpen path]
  | None => [EExists path]
  end.

(** The fields that each kind of record must have. *)
Definition snapshot_fields : list str :=
  [lit "timestamp"; lit "asset_id"; lit "market"; lit "bids"; lit "asks"].

Definition trade_fields : list str :=
  [lit "timestamp"; lit "asset_id"; lit "side"; lit "price"; lit "size";
   lit "fee_rate_bps"].

Definition tick_fields : list str :=
  [lit "timestamp"; lit "asset_id"; lit "market"; lit "old_tick_size";
   lit "new_tick_size"].

(** The lines that display the levels [shown], given as price and size. *)
Definition level_lines (shown : list (str * value)) : list event :=
  imap (λ i p, EPrint [T "  "; Val (VInt (Z.of_nat i + 1)); T ". Price: ";
                       Lit (rjust 6 p.1); T "  Size: "; Val p.2]) shown.

(** The display of one side of the book: nothing for an empty side, else
    the title and the lines of the levels shown. *)
Definition side_block (title : str) (levels : list value)
    (shown : list (str * value)) : list event :=
  match levels with
  | [] => []
  | _ => EPrint [Lit (newline :: title)] :: level_lines shown
  end.

(** A level that can be displayed: an object whose price is a string. *)
Definition level_shows (level : value) (p : str * value) : Prop :=
  subscript level (lit "price") = Ok (VStr p.1)
  ∧ subscript level (lit "size") = Ok p.2.

(** The fields of a trade that the body of the loop accepts, with the
    notional and the side that it takes from them. *)
Definition trade_fields_ok (fields : list (str * value)) (notional : float)
    (side : str) : Prop :=
  ∃ ts asset_id prefix price size fee p s f,
    dict_get fields (lit "timestamp") = Some ts
    ∧ dict_get fields (lit "asset_id") = Some asset_id
    ∧ slice_to 20 asset_id = Ok prefix
    ∧ dict_get fields (lit "side") = Some (VStr side)
    ∧ dict_get fields (lit "price") = Some (VStr price)
    ∧ float_of_str price = Ok p
    ∧ dict_get fields (lit "size") = Some size
    ∧ py_float size = Ok s
    ∧ dict_get fields (lit "fee_rate_bps") = Some fee
    ∧ py_float fee = Ok f
    ∧ notional = fmul p s.

(** The arguments that select no dataset, with or without
    [--price-changes], and the arguments of [--stats]. *)
Definition no_selection (price_changes : bool) (limit : option Z) (data_dir : str)
  : Args :=
  {| arg_stats := false; arg_snapshots := false; arg_price_changes := price_changes;
     arg_trades := false; arg_tick_changes := false; arg_all := false;
     arg_limit := limit; arg_data_dir := data_dir |}.

Definition stats_only (price_changes : bool) (limit : option Z) (data_dir : str)
  : Args :=
  {| arg_stats := true; arg_snapshots := false; arg_price_changes := price_changes;
     arg_trades := false; arg_tick_changes := false; arg_all := false;
     arg_limit := limit; arg_data_dir := data_dir |}.

(** A trace whose calls to the file system are all on one of [paths], and
    in which no line is decoded. *)
Definition touches_only (paths : list str) (t : list event) : Prop :=
  Forall (λ e, match e with
               | EPrint _ => True
               | EDecode _ => False
               | EExists p | EOpen p | EClose p | EGetsize p => p ∈ paths
               end) t.

(** The number of line terminators of a text, and whether the text ends
    with a line that has none. *)
Definition terminators (text : str) : nat :=
  length (List.filter (λ c, c =? 10)%N text).

Definition unterminated (text : str) : bool :=
  match last text with
  | Some c => negb (c =? 10)%N
  | None => false
  end.

(** ** Further example data *)

(** A line that holds a JSON object with a timestamp and no other field. *)
Definition stub_line : str :=
  sample "{'timestamp':'1700000000000'}" ++ [newline].

(** A level of the book with the given price and the size 10. *)
Definition example_level (price : string) : value :=
  VDict [(lit "price", VStr (lit price)); (lit "size", VStr (lit "10"))].

(** The arguments of [--all]. *)
Definition all_datasets : Args :=
  {| arg_stats := false; arg_snapshots := false; arg_price_changes := false;
     arg_trades := false; arg_tick_changes := false; arg_all := true;
     arg_limit := None; arg_data_dir := lit "data" |}.

(** A data directory whose snapshot file holds one line without the fields
    of a snapshot. *)
Definition broken_fs : filesystem :=
  {[ lit "data" := Dir 4096;
     snapshots_json := file_of stub_line;
     trades_json := file_of (buy_line ++ sell_line) ]}.

(** A trade whose side is written in lower case. *)
Definition lower_line : str :=
  sample "{'timestamp':'1700000000000','asset_id':'abc123...','side':'buy','price':'0.55','size':'10','fee_rate_bps':'50'}"
  ++ [newline].

(** A snapshot with no bids, one ask and no reference price. *)
Definition asks_only_line : str :=
  sample "{'timestamp':'1700000000000','asset_id':'abc123...','market':'0xabc','bids':[],'asks':[{'price':'0.56','size':'100'}]}"
  ++ [newline].

(** * Lemmas *)

(** ** The statement monad *)

Lemma M_bind_ok {A B} (t : list event) (a : A) (f : A → M B) :
  ((t, Ok a) : M A) ≫= f = (t ++ (f a).1, (f a).2).
Proof. unfold mbind, M_bind. destruct (f a); reflexivity. Qed.

Lemma M_bind_raise {A B} (t : list event) (e : exn) (f : A → M B) :
  ((t, Raise e) : M A) ≫= f = (t, Raise e).
Proof. reflexivity. Qed.

Lemma M_bind_fst {A B} (m : M A) (f : A → M B) :
  ∃ rest, (m ≫= f).1 = m.1 ++ rest.
Proof.
  destruct m as [t [a|e]].
  - rewrite M_bind_ok. eauto.
  - exists []. rewrite M_bind_raise, app_nil_r. reflexivity.
Qed.

Lemma print_bind {B} (l : line) (k : M B) :
  (print l ;; k) = (EPrint l :: k.1, k.2).
Proof. unfold print, emit. rewrite M_bind_ok. reflexivity. Qed.

Lemma lift_ok_bind {A B} (a : A) (f : A → M B) : lift (Ok a) ≫= f = f a.
Proof. unfold lift. rewrite M_bind_ok. destruct (f a); reflexivity. Qed.

Lemma lift_raise_bind {A B} (e : exn) (f : A → M B) :
  lift (Raise e) ≫= f = ([], Raise e).
Proof. reflexivity. Qed.

Lemma loads_bind {B} (s : str) (f : value → M B) :
  loads s ≫= f =
  match json_loads s with
  | Ok v => (EDecode s :: (f v).1, (f v).2)
  | Raise e => ([EDecode s], Raise e)
  end.
Proof.
  unfold loads. destruct (json_loads s).
  - rewrite M_bind_ok. reflexivity.
  - reflexivity.
Qed.

Lemma Ok_bind {A B} (a : A) (f : A → result B) : Ok a ≫= f = f a.
Proof. reflexivity. Qed.

Lemma Raise_bind {A B} (e : exn) (f : A → result B) : Raise e ≫= f = Raise e.
Proof. reflexivity. Qed.

Lemma civil_from_days_range (z : Z) :
  let '(y, m, d) := civil_from_days z in
  1 <= m <= 12 ∧ 1 <= d <= 31.
Proof.
  unfold civil_from_days.
  set (z' := z + 719468).
  set (era := z' / 146097).
  set (doe := z' - era * 146097).
  assert (Hdoe : 0 <= doe <= 146096) by (subst doe era; Z.div_mod_to_equations; lia).
  clearbody doe. clear era z'.
  set (yoe := (doe - doe / 1460 + doe / 36524 - doe / 146096) / 365).
  set (doy := doe - (365 * yoe + yoe / 4 - yoe / 100)).
  assert (Hdoy : 0 <= doy <= 365) by (subst doy yoe; Z.div_mod_to_equations; lia).
  clearbody doy. clear yoe.
  set (mp := (5 * doy + 2) / 153).
  assert (Hmp : 0 <= mp <= 11) by (subst mp; Z.div_mod_to_equations; lia).
  assert (Hd : 1 <= doy - (153 * mp + 2) / 5 + 1 <= 31) by (subst mp; Z.div_mod_to_equations; lia).
  clearbody mp.
  destruct (mp <? 10) eqn:E; [apply Z.ltb_lt in E | apply Z.ltb_ge in E]; split; lia.
Qed.

(** ** Decimal digits and fixed-width fields *)

Lemma digit_char_is_digit (d : Z) : 0 <= d <= 9 → is_digit (digit_char d) = true.
Proof.
  intros H. unfold is_digit, digit_char.
  apply andb_true_intro; split; apply N.leb_le; lia.
Qed.

Lemma dec_digits_spec (fuel : nat) :
  ∀ n acc k, 0 <= n → Z.log2 n < Z.of_nat fuel → n < 10 ^ Z.of_nat k → (1 ≤ k)%nat →
    all_digits acc →
    all_digits (dec_digits fuel n acc)
    ∧ (length (dec_digits fuel n acc) ≤ k + length acc)%nat.
Proof.
  induction fuel as [|fuel IH]; intros n acc k Hn Hlog Hk Hk1 Hacc.
  - pose proof (Z.log2_nonneg n). lia.
  - simpl. assert (Hd : is_digit (digit_char (n mod 10)) = true).
    { apply digit_char_is_digit. Z.div_mod_to_equations. lia. }
    destruct (n <? 10) eqn:E.
    + split; [constructor; assumption | simpl; lia].
    + apply Z.ltb_ge in E.
      destruct k as [|[|k]]; [lia | simpl in Hk; lia |].
      destruct (IH (n / 10) (digit_char (n mod 10) :: acc) (S k)) as [H1 H2].
      * Z.div_mod_to_equations. lia.
      * assert (Z.log2 (n / 10) < Z.log2 n); [|lia].
        apply Z.log2_lt_pow2; [Z.div_mod_to_equations; lia|].
        destruct (Z.log2_spec n) as [_ Hup]; [lia|].
        rewrite Z.pow_succ_r in Hup by apply Z.log2_nonneg.
        Z.div_mod_to_equations. lia.
      * replace (Z.of_nat (S (S k))) with (Z.of_nat (S k) + 1) in Hk by lia.
        rewrite Z.pow_add_r in Hk by lia. Z.div_mod_to_equations. lia.
      * lia.
      * constructor; assumption.
      * split; [assumption | simpl in H2; lia].
Qed.

Lemma str_of_int_digits (n : Z) (k : nat) :
  0 <= n < 10 ^ Z.of_nat k → (1 ≤ k)%nat →
  all_digits (str_of_int n) ∧ (length (str_of_int n) ≤ k)%nat.
Proof.
  intros [Hn Hk] Hk1. unfold str_of_int.
  destruct (n <? 0) eqn:E; [apply Z.ltb_lt in E; lia|].
  unfold str_of_nonneg.
  assert (Hfuel : Z.log2 n < Z.of_nat (S (Z.to_nat (Z.log2 n)))).
  { pose proof (Z.log2_nonneg n). lia. }
  destruct (dec_digits_spec _ n [] k Hn Hfuel Hk Hk1) as [H1 H2]; [constructor|].
  split; [assumption | rewrite Nat.add_0_r in H2; exact H2].
Qed.

Lemma zfill_digits (w : nat) (s : str) :
  all_digits s → (length s ≤ w)%nat →
  all_digits (zfill w s) ∧ length (zfill w s) = w.
Proof.
  intros Hs Hlen. unfold zfill. split.
  - apply Forall_app. split; [|assumption].
    apply Forall_replicate. reflexivity.
  - rewrite length_app, length_replicate. lia.
Qed.

Lemma field_digits (w : nat) (n : Z) :
  0 <= n < 10 ^ Z.of_nat w → (1 ≤ w)%nat →
  all_digits (zfill w (str_of_int n)) ∧ length (zfill w (str_of_int n)) = w.
Proof.
  intros Hn Hw. destruct (str_of_int_digits n w Hn Hw). apply zfill_digits; assumption.
Qed.

Lemma digit_val_char (d : Z) : 0 <= d <= 9 → digit_val (digit_char d) = d.
Proof. intros H. unfold digit_val, digit_char. lia. Qed.

Lemma digits_value_snoc (ds : str) (c : char) :
  digits_value (ds ++ [c]) = 10 * digits_value ds + digit_val c.
Proof. unfold digits_value. rewrite fold_left_app. reflexivity. Qed.

Lemma dec_digits_value (fuel : nat) :
  ∀ n acc, 0 <= n → Z.log2 n < Z.of_nat fuel →
    ∃ ds, dec_digits fuel n acc = ds ++ acc ∧ all_digits ds ∧ ds ≠ []
          ∧ digits_value ds = n.
Proof.
  induction fuel as [|fuel IH]; intros n acc Hn Hlog.
  - pose proof (Z.log2_nonneg n). lia.
  - cbn [dec_digits].
    assert (Hmod : 0 <= n mod 10 <= 9) by (Z.div_mod_to_equations; lia).
    destruct (n <? 10) eqn:E.
    + apply Z.ltb_lt in E. exists [digit_char (n mod 10)].
      split; [reflexivity|]. split; [|split; [discriminate|]].
      * repeat constructor. apply digit_char_is_digit, Hmod.
      * unfold digits_value. simpl. rewrite digit_val_char by exact Hmod.
        rewrite Z.mod_small by lia. reflexivity.
    + apply Z.ltb_ge in E.
      destruct (IH (n / 10) (digit_char (n mod 10) :: acc)) as (ds & Hds & Hall & _ & Hv).
      * Z.div_mod_to_equations. lia.
      * assert (Z.log2 (n / 10) < Z.log2 n); [|lia].
        apply Z.log2_lt_pow2; [Z.div_mod_to_equations; lia|].
        destruct (Z.log2_spec n) as [_ Hup]; [lia|].
        rewrite Z.pow_succ_r in Hup by apply Z.log2_nonneg.
        Z.div_mod_to_equations. lia.
      * exists (ds ++ [digit_char (n mod 10)]).
        split; [rewrite Hds, <- app_assoc; reflexivity|].
        split; [|split].
        -- apply Forall_app. split; [exact Hall|].
           repeat constructor. apply digit_char_is_digit, Hmod.
        -- destruct ds; discriminate.
        -- rewrite digits_value_snoc, Hv, digit_val_char by exact Hmod.
           Z.div_mod_to_equations. lia.
Qed.

Lemma str_of_nonneg_value (n : Z) :
  0 <= n →
  all_digits (str_of_nonneg n) ∧ str_of_nonneg n ≠ []
  ∧ digits_value (str_of_nonneg n) = n.
Proof.
  intros Hn. unfold str_of_nonneg.
  destruct (dec_digits_value (S (Z.to_nat (Z.log2 n))) n [] Hn) as (ds & -> & H).
  { pose proof (Z.log2_nonneg n). lia. }
  rewrite app_nil_r. exact H.
Qed.

Lemma digits_value_bound (ds : str) :
  all_digits ds → 0 <= digits_value ds < 10 ^ Z.of_nat (length ds).
Proof.
  induction ds as [|c ds IH] using rev_ind; intros Hall;
    [unfold digits_value; simpl; lia|].
  apply Forall_app in Hall. destruct Hall as [Hds Hc].
  apply Forall_cons in Hc. destruct Hc as [Hc _].
  specialize (IH Hds). rewrite digits_value_snoc, length_app.
  assert (Hd : 0 <= digit_val c <= 9).
  { unfold is_digit in Hc. apply andb_true_iff in Hc. destruct Hc as [H1 H2].
    apply N.leb_le in H1, H2. unfold digit_val. lia. }
  replace (Z.of_nat (length ds + length [c])) with (Z.of_nat (length ds) + 1)
    by (simpl; lia).
  rewrite Z.pow_add_r by lia. lia.
Qed.

(** A year from 1000 on is written with four digits. *)
Lemma year_four_digits (y : Z) :
  1000 <= y <= 9999 → all_digits (str_of_int y) ∧ length (str_of_int y) = 4%nat.
Proof.
  intros Hy. destruct (str_of_int_digits y 4) as [Hall Hlen]; [simpl; lia | lia |].
  split; [exact Hall|].
  assert (Hv : digits_value (str_of_int y) = y).
  { unfold str_of_int. replace (y <? 0) with false by (symmetry; apply Z.ltb_ge; lia).
    apply str_of_nonneg_value. lia. }
  pose proof (digits_value_bound _ Hall) as Hb. rewrite Hv in Hb.
  destruct (length (str_of_int y)) as [|[|[|[|[|n]]]]]; simpl in Hb; lia.
Qed.

Lemma calendar_shape (Y Mo D H Mi S : str) :
  all_digits Y → all_digits Mo → all_digits D →
  all_digits H → all_digits Mi → all_digits S →
  length Y = 4%nat → length Mo = 2%nat → length D = 2%nat →
  length H = 2%nat → length Mi = 2%nat → length S = 2%nat →
  is_calendar_string
    (Y ++ lit "-" ++ Mo ++ lit "-" ++ D ++ lit " " ++ H ++ lit ":" ++ Mi ++ lit ":" ++ S)
  = true.
Proof.
  intros HY HMo HD HH HMi HS LY LMo LD LH LMi LS.
  destruct Y as [|y1 [|y2 [|y3 [|y4 [|]]]]]; try discriminate.
  destruct Mo as [|m1 [|m2 [|]]]; try discriminate.
  destruct D as [|d1 [|d2 [|]]]; try discriminate.
  destruct H as [|h1 [|h2 [|]]]; try discriminate.
  destruct Mi as [|n1 [|n2 [|]]]; try discriminate.
  destruct S as [|c1 [|c2 [|]]]; try discriminate.
  repeat match goal with
         | H : all_digits (_ :: _) |- _ => apply Forall_cons in H; destruct H
         end.
  cbn. repeat match goal with H : is_digit _ = true |- _ => rewrite H; clear H end.
  reflexivity.
Qed.

(** ** Timestamps *)

Lemma local_civil_range (utcoffset : Z → Z) (t us : Z) (dt : datetime) :
  local_civil utcoffset t us = Ok dt → in_calendar_range dt.
Proof.
  unfold local_civil.
  pose proof (civil_from_days_range ((t + utcoffset t) / 86400)) as Hc.
  destruct (civil_from_days ((t + utcoffset t) / 86400)) as [[y m] d].
  set (sod := (t + utcoffset t) mod 86400).
  assert (0 <= sod < 86400) by (subst sod; apply Z.mod_pos_bound; lia).
  destruct ((MINYEAR <=? y) && (y <=? MAXYEAR)) eqn:E; [|discriminate].
  apply andb_prop in E. destruct E as [E1 E2].
  apply Z.leb_le in E1, E2. unfold MINYEAR, MAXYEAR in *.
  intros [= <-]. unfold in_calendar_range. simpl.
  repeat split; try lia; clearbody sod; Z.div_mod_to_equations; lia.
Qed.

Lemma fromtimestamp_range (utcoffset : Z → Z) (x : float) (dt : datetime) :
  fromtimestamp utcoffset x = Ok dt → in_calendar_range dt.
Proof.
  unfold fromtimestamp.
  destruct (timeval_of_float x) as [[timet us]|]; [|discriminate].
  rewrite Ok_bind.
  destruct (local_civil utcoffset timet us) as [dt0|] eqn:E0; [|discriminate].
  rewrite Ok_bind.
  destruct (local_civil utcoffset (timet - max_fold_seconds) 0); [|discriminate].
  rewrite Ok_bind.
  destruct (_ <? 0).
  - destruct (local_civil utcoffset _ 0); [|discriminate].
    intros [= <-]. eapply local_civil_range; eassumption.
  - intros [= <-]. eapply local_civil_range; eassumption.
Qed.

Lemma strftime_calendar (dt : datetime) :
  in_calendar_range dt → 1000 <= year dt →
  is_calendar_string (strftime dt) = true.
Proof.
  intros (Hy & Hm & Hd & Hh & Hn & Hs) Hy4. unfold strftime.
  destruct (year_four_digits (year dt)) as [? ?]; [lia|].
  destruct (field_digits 2 (month dt)) as [? ?]; [simpl; lia | lia |].
  destruct (field_digits 2 (day dt)) as [? ?]; [simpl; lia | lia |].
  destruct (field_digits 2 (hour dt)) as [? ?]; [simpl; lia | lia |].
  destruct (field_digits 2 (minute dt)) as [? ?]; [simpl; lia | lia |].
  destruct (field_digits 2 (second dt)) as [? ?]; [simpl; lia | lia |].
  apply calendar_shape; assumption.
Qed.

(** ** Projections of the statement monad *)

Lemma snd_bind {A B} (m : M A) (f : A → M B) :
  (m ≫= f).2 = (m.2 ≫= λ a, (f a).2).
Proof. destruct m as [t [a|e]]; [rewrite M_bind_ok|]; reflexivity. Qed.

Lemma fst_bind {A B} (m : M A) (f : A → M B) :
  (m ≫= f).1 = m.1 ++ match m.2 with Ok a => (f a).1 | Raise _ => [] end.
Proof.
  destruct m as [t [a|e]]; [rewrite M_bind_ok; reflexivity|].
  simpl. rewrite app_nil_r. reflexivity.
Qed.

Lemma snd_print_bind {B} (l : line) (k : M B) : (print l ;; k).2 = k.2.
Proof. rewrite snd_bind. reflexivity. Qed.

Lemma snd_lift_bind {A B} (r : result A) (f : A → M B) :
  (lift r ≫= f).2 = (r ≫= λ a, (f a).2).
Proof. rewrite snd_bind. reflexivity. Qed.

Lemma snd_loads_bind {B} (s : str) (f : value → M B) :
  (loads s ≫= f).2 = (json_loads s ≫= λ v, (f v).2).
Proof. rewrite snd_bind. reflexivity. Qed.

Lemma fst_loads_bind {B} (s : str) (f : value → M B) :
  (loads s ≫= f).1 =
  EDecode s :: match json_loads s with Ok v => (f v).1 | Raise _ => [] end.
Proof. rewrite fst_bind. reflexivity. Qed.

Lemma only_prints_bind {A B} (m : M A) (f : A → M B) :
  only_prints m → (∀ a, only_prints (f a)) → only_prints (m ≫= f).
Proof.
  unfold only_prints. intros Hm Hf. rewrite fst_bind.
  apply Forall_app. split; [assumption|].
  destruct m.2; [apply Hf | constructor].
Qed.

Lemma only_prints_print (l : line) : only_prints (print l).
Proof. repeat constructor. Qed.

Lemma only_prints_lift {A} (r : result A) : only_prints (lift r).
Proof. constructor. Qed.

Lemma only_prints_ret {A} (a : A) : only_prints (mret a : M A).
Proof. constructor. Qed.

Lemma only_prints_match {A} (o : option A) (f : A → M unit) (m : M unit) :
  (∀ a, only_prints (f a)) → only_prints m →
  only_prints (match o with Some a => f a | None => m end).
Proof. destruct o; auto. Qed.

Create HintDb prints.
#[export] Hint Resolve only_prints_print only_prints_lift only_prints_ret : prints.

Ltac only_prints :=
  repeat first
    [ solve [eauto 2 with prints nocore]
    | apply only_prints_bind; [|intros ?]
    | apply only_prints_match; [intros ?|] ].

Lemma only_prints_decoded (t : list event) : Forall is_print t → decoded t = [].
Proof.
  induction 1 as [|e t He _ IH]; [reflexivity|].
  destruct e; try contradiction. exact IH.
Qed.

Lemma only_prints_accesses (t : list event) : Forall is_print t → file_accesses t = [].
Proof.
  induction 1 as [|e t He _ IH]; [reflexivity|].
  destruct e; try contradiction. exact IH.
Qed.

Lemma decoded_app (t1 t2 : list event) : decoded (t1 ++ t2) = decoded t1 ++ decoded t2.
Proof. apply omap_app. Qed.

(** ** The bodies of the three loops *)

Section Bodies.
Variable utcoffset : Z → Z.

Lemma only_prints_levels (levels : list value) :
  ∀ i, only_prints (print_levels levels i).
Proof.
  induction levels as [|level rest IH]; intros i.
  - constructor.
  - change (only_prints (l ← lift (level_line i level); print l;;
                         print_levels rest (i + 1))).
    only_prints.
Qed.

Hint Resolve only_prints_levels : prints.

Lemma only_prints_side (snapshot : value) (key title : str) :
  only_prints (print_side snapshot key title).
Proof.
  unfold print_side. only_prints.
  destruct (truthy _); only_prints.
Qed.

Hint Resolve only_prints_side : prints.

Lemma snapshot_body_trace (n : Z) (line : str) :
  ∃ t, (snapshot_body utcoffset n line).1 = EDecode line :: t ∧ Forall is_print t.
Proof.
  unfold snapshot_body. rewrite fst_loads_bind. eexists. split; [reflexivity|].
  destruct (json_loads line); [|constructor].
  change (only_prints
    (print [Lit (newline :: lit "Snapshot #"); Val (VInt (n + 1))];;
     l ← lift (time_line utcoffset a); print l;;
     l ← lift (asset_line a); print l;;
     l ← lift (market_line a); print l;;
     btc ← lift (btc_line a);
     match btc with Some l => print l | None => mret tt end;;
     print_side a (lit "bids") (lit "Top 5 Bids:");;
     print_side a (lit "asks") (lit "Top 5 Asks:"))).
  only_prints.
Qed.

Lemma trade_body_trace (st : aggregate) (line : str) :
  ∃ t, (trade_body utcoffset st line).1 = EDecode line :: t ∧ Forall is_print t.
Proof.
  unfold trade_body. rewrite fst_loads_bind. eexists. split; [reflexivity|].
  destruct (json_loads line) as [trade|]; [|constructor].
  match goal with |- Forall is_print (?m).1 => change (only_prints m) end.
  only_prints.
Qed.

Lemma tick_body_trace (n : Z) (line : str) :
  ∃ t, (tick_body utcoffset n line).1 = EDecode line :: t ∧ Forall is_print t.
Proof.
  unfold tick_body. rewrite fst_loads_bind. eexists. split; [reflexivity|].
  destruct (json_loads line) as [change|]; [|constructor].
  match goal with |- Forall is_print (?m).1 => change (only_prints m) end.
  only_prints.
Qed.

Lemma time_line_ok (record ts : value) :
  subscript record (lit "timestamp") = Ok ts →
  time_line utcoffset record = Ok [T "Time: "; Val (format_timestamp utcoffset ts)].
Proof. intros H. unfold time_line. rewrite H. reflexivity. Qed.

Lemma time_line_raise (record : value) (e : exn) :
  subscript record (lit "timestamp") = Raise e →
  time_line utcoffset record = Raise e.
Proof. intros H. unfold time_line. rewrite H. reflexivity. Qed.

Lemma trade_body_result (st : aggregate) (line : str) :
  (trade_body utcoffset st line).2
  = (p ← trade_parts line; mret (record_trade st p.1 p.2)).
Proof.
  unfold trade_body, trade_parts. rewrite snd_loads_bind.
  destruct (json_loads line) as [trade|e]; [|reflexivity].
  rewrite !Ok_bind, snd_print_bind, snd_lift_bind.
  destruct (subscript trade (lit "timestamp")) as [ts|e] eqn:Ets;
    [rewrite (time_line_ok _ _ Ets) | rewrite (time_line_raise _ _ Ets); reflexivity].
  rewrite !Ok_bind, snd_print_bind, snd_lift_bind.
  destruct (asset_line trade) as [l1|e]; [|reflexivity].
  rewrite !Ok_bind, snd_print_bind, snd_lift_bind.
  destruct (side_line trade) as [l2|e]; [|reflexivity].
  rewrite !Ok_bind, snd_print_bind, snd_lift_bind.
  destruct (fee_line trade) as [l3|e]; [|reflexivity].
  rewrite !Ok_bind, snd_print_bind, snd_lift_bind.
  destruct (notional_of trade) as [x|e]; [|reflexivity].
  rewrite !Ok_bind, snd_print_bind, snd_lift_bind.
  destruct (side_key trade) as [s|e]; reflexivity.
Qed.
End Bodies.

(** ** The record limit *)

Lemma processed_reached (limit : option Z) (c : Z) (lines : list str) :
  limit_reached limit c = true → processed limit c lines = [].
Proof.
  unfold limit_reached, processed. destruct limit as [n|]; [|discriminate].
  destruct (n =? 0); [discriminate|]. simpl. intros H. apply Z.leb_le in H.
  replace (Z.to_nat (n - c)) with 0%nat by lia. reflexivity.
Qed.

Lemma processed_cons (limit : option Z) (c : Z) (line : str) (rest : list str) :
  limit_reached limit c = false →
  processed limit c (line :: rest) = line :: processed limit (c + 1) rest.
Proof.
  unfold limit_reached, processed. destruct limit as [n|]; [|reflexivity].
  destruct (n =? 0); [reflexivity|]. simpl. intros H. apply Z.leb_gt in H.
  replace (Z.to_nat (n - c)) with (S (Z.to_nat (n - (c + 1)))) by lia. reflexivity.
Qed.

Lemma processed_nil (limit : option Z) (c : Z) : processed limit c [] = [].
Proof.
  unfold processed. destruct limit as [n|]; [|reflexivity].
  destruct (n =? 0); [reflexivity|apply take_nil].
Qed.

Lemma processed_limit (n c : Z) (lines : list str) :
  0 < n → processed (Some n) c lines = take (Z.to_nat (n - c)) lines.
Proof.
  intros H. unfold processed. destruct (n =? 0) eqn:E; [apply Z.eqb_eq in E; lia|].
  reflexivity.
Qed.

Lemma limit_reached_mono (limit : option Z) (c c' : Z) :
  c <= c' → limit_reached limit c' = false → limit_reached limit c = false.
Proof.
  unfold limit_reached. destruct limit as [n|]; [|reflexivity].
  destruct (n =? 0); [reflexivity|]. simpl.
  intros Hc H. apply Z.leb_gt in H. apply Z.leb_gt. lia.
Qed.

(** ** A loop over the lines of a file

    The three loops of the script have one shape: stop when the limit is
    reached, else run the body, which decodes the line, prints, and on
    success moves the record count up by one. *)

Section Loop.
Context {S : Type}.
Variable count_of : S → Z.
Variable limit : option Z.
Variable body : S → str → M S.
Variable loop : list str → S → M S.

Hypothesis loop_nil : ∀ st, loop [] st = mret st.
Hypothesis loop_cons : ∀ line rest st,
  loop (line :: rest) st =
  if limit_reached limit (count_of st) then mret st
  else st' ← body st line; loop rest st'.
Hypothesis body_trace : ∀ st line,
  ∃ t, (body st line).1 = EDecode line :: t ∧ Forall is_print t.
Hypothesis body_count : ∀ st line st',
  (body st line).2 = Ok st' → count_of st' = count_of st + 1.

Lemma body_decoded (st : S) (line : str) : decoded (body st line).1 = [line].
Proof.
  destruct (body_trace st line) as (t & -> & Ht).
  simpl. rewrite (only_prints_decoded t Ht). reflexivity.
Qed.

(** What has been decoded is always an initial part of the file. *)
Lemma loop_decoded_prefix (lines : list str) :
  ∀ st, ∃ k, decoded (loop lines st).1 = take k lines.
Proof.
  induction lines as [|line rest IH]; intros st.
  - exists 0%nat. rewrite loop_nil. reflexivity.
  - rewrite loop_cons. destruct (limit_reached _ _).
    + exists 0%nat. reflexivity.
    + rewrite fst_bind, decoded_app, body_decoded.
      destruct (body st line).2 as [st'|e].
      * destruct (IH st') as [k Hk]. exists (Datatypes.S k). rewrite Hk. reflexivity.
      * exists 1%nat. simpl. rewrite take_0. reflexivity.
Qed.

(** A pass that ends normally has decoded, one by one and in order, the
    lines that the limit lets through, and nothing else. *)
Lemma loop_ok_decoded (lines : list str) :
  ∀ st st', (loop lines st).2 = Ok st' →
    decoded (loop lines st).1 = processed limit (count_of st) lines
    ∧ count_of st' = count_of st + Z.of_nat (length (processed limit (count_of st) lines)).
Proof.
  induction lines as [|line rest IH]; intros st st'.
  - rewrite loop_nil, processed_nil. intros [= <-]. split; [reflexivity|simpl; lia].
  - rewrite loop_cons. destruct (limit_reached _ _) eqn:E.
    + rewrite processed_reached by assumption. intros [= <-].
      split; [reflexivity|simpl; lia].
    + rewrite processed_cons by assumption.
      rewrite snd_bind, fst_bind, decoded_app, body_decoded.
      destruct (body st line).2 as [st1|e] eqn:E1; [|discriminate].
      rewrite Ok_bind. intros H. destruct (IH _ _ H) as [H1 H2].
      rewrite (body_count _ _ _ E1) in H1, H2.
      split; [rewrite H1; reflexivity|]. rewrite H2. simpl length. lia.
Qed.

(** When the body succeeds on every line that the limit lets through,
    the pass ends normally. *)
Lemma loop_ok (lines : list str) :
  ∀ st,
    Forall (λ line, ∀ st, ∃ st', (body st line).2 = Ok st')
           (processed limit (count_of st) lines) →
    ∃ st', (loop lines st).2 = Ok st'.
Proof.
  induction lines as [|line rest IH]; intros st Hall.
  - rewrite loop_nil. eexists. reflexivity.
  - rewrite loop_cons. destruct (limit_reached _ _) eqn:E.
    + eexists. reflexivity.
    + rewrite processed_cons in Hall by assumption.
      apply Forall_cons in Hall. destruct Hall as [Hline Hrest].
      destruct (Hline st) as [st1 E1]. rewrite snd_bind, E1, Ok_bind.
      apply IH. rewrite (body_count _ _ _ E1). exact Hrest.
Qed.

(** The first line on which the body raises ends the pass: the lines
    before it have been decoded, the lines after it have not. *)
Lemma loop_raise (good : list str) (bad : str) (rest : list str) (e : exn) :
  ∀ st,
    limit_reached limit (count_of st + Z.of_nat (length good)) = false →
    Forall (λ line, ∀ st, ∃ st', (body st line).2 = Ok st') good →
    (∀ st, (body st bad).2 = Raise e) →
    (loop (good ++ bad :: rest) st).2 = Raise e
    ∧ decoded (loop (good ++ bad :: rest) st).1 = good ++ [bad].
Proof.
  induction good as [|line good IH]; intros st Hlim Hgood Hbad.
  - simpl in *. rewrite Z.add_0_r in Hlim.
    rewrite loop_cons, Hlim, snd_bind, fst_bind, decoded_app, body_decoded, Hbad.
    split; reflexivity.
  - apply Forall_cons in Hgood. destruct Hgood as [Hline Hgood].
    assert (Hnow : limit_reached limit (count_of st) = false).
    { eapply limit_reached_mono; [|exact Hlim]. lia. }
    simpl app. rewrite loop_cons, Hnow, snd_bind, fst_bind, decoded_app, body_decoded.
    destruct (Hline st) as [st1 E1]. rewrite E1, Ok_bind.
    destruct (IH st1) as [H1 H2]; try assumption.
    { rewrite (body_count _ _ _ E1). rewrite <- Hlim. f_equal.
      simpl length. lia. }
    split; [assumption|]. rewrite H2. reflexivity.
Qed.
End Loop.

Lemma M_bind_assoc {A B C} (m : M A) (g : A → M B) (f : B → M C) :
  (m ≫= g) ≫= f = m ≫= (λ a, g a ≫= f).
Proof.
  unfold mbind, M_bind.
  destruct m as [t [a|e]]; [|reflexivity].
  destruct (g a) as [t1 [b|e]]; [|reflexivity].
  destruct (f b) as [t2 r]. rewrite app_assoc. reflexivity.
Qed.

Lemma M_ret_bind {A B} (a : A) (f : A → M B) : mret a ≫= f = f a.
Proof. unfold mret, M_ret. rewrite M_bind_ok. destruct (f a); reflexivity. Qed.

Section Loops.
Variable utcoffset : Z → Z.
Variable limit : option Z.

Lemma snapshots_loop_cons (line : str) (rest : list str) (n : Z) :
  snapshots_loop utcoffset limit (line :: rest) n =
  if limit_reached limit n then mret n
  else n' ← snapshot_step utcoffset n line; snapshots_loop utcoffset limit rest n'.
Proof.
  simpl. destruct (limit_reached limit n); [reflexivity|].
  unfold snapshot_step. rewrite M_bind_assoc.
  destruct (snapshot_body utcoffset n line) as [t [[]|e]]; [|reflexivity].
  rewrite !M_bind_ok, M_ret_bind. reflexivity.
Qed.

Lemma ticks_loop_cons (line : str) (rest : list str) (n : Z) :
  ticks_loop utcoffset (line :: rest) n =
  if limit_reached None n then mret n
  else n' ← tick_step utcoffset n line; ticks_loop utcoffset rest n'.
Proof.
  simpl. unfold tick_step. rewrite M_bind_assoc.
  destruct (tick_body utcoffset n line) as [t [[]|e]]; [|reflexivity].
  rewrite !M_bind_ok, M_ret_bind. reflexivity.
Qed.

Lemma snapshot_step_trace (n : Z) (line : str) :
  ∃ t, (snapshot_step utcoffset n line).1 = EDecode line :: t ∧ Forall is_print t.
Proof.
  unfold snapshot_step. rewrite fst_bind.
  destruct (snapshot_body_trace utcoffset n line) as (t & -> & Ht).
  exists (t ++ match (snapshot_body utcoffset n line).2 with
               | Ok _ => [] | Raise _ => [] end).
  split; [reflexivity|]. destruct (_.2); rewrite app_nil_r; exact Ht.
Qed.

Lemma tick_step_trace (n : Z) (line : str) :
  ∃ t, (tick_step utcoffset n line).1 = EDecode line :: t ∧ Forall is_print t.
Proof.
  unfold tick_step. rewrite fst_bind.
  destruct (tick_body_trace utcoffset n line) as (t & -> & Ht).
  exists (t ++ match (tick_body utcoffset n line).2 with
               | Ok _ => [] | Raise _ => [] end).
  split; [reflexivity|]. destruct (_.2); rewrite app_nil_r; exact Ht.
Qed.

Lemma snapshot_step_count (n : Z) (line : str) (n' : Z) :
  (snapshot_step utcoffset n line).2 = Ok n' → n' = n + 1.
Proof.
  unfold snapshot_step. rewrite snd_bind.
  destruct (snapshot_body utcoffset n line).2; [|discriminate].
  intros [= <-]. reflexivity.
Qed.

Lemma tick_step_count (n : Z) (line : str) (n' : Z) :
  (tick_step utcoffset n line).2 = Ok n' → n' = n + 1.
Proof.
  unfold tick_step. rewrite snd_bind.
  destruct (tick_body utcoffset n line).2; [|discriminate].
  intros [= <-]. reflexivity.
Qed.

Lemma trade_body_count (st : aggregate) (line : str) (st' : aggregate) :
  (trade_body utcoffset st line).2 = Ok st' → count st' = count st + 1.
Proof.
  rewrite trade_body_result. destruct (trade_parts line); [|discriminate].
  intros [= <-]. reflexivity.
Qed.
End Loops.

(** ** The per-side counts *)

Lemma sum_counts_empty : sum_counts ∅ = 0.
Proof. apply map_fold_empty. Qed.

Lemma sum_counts_insert (m : gmap str Z) (k : str) (n : Z) :
  m !! k = None → sum_counts (<[k := n]> m) = n + sum_counts m.
Proof.
  intros H. unfold sum_counts.
  apply (map_fold_insert_L (λ (_ : str) (n acc : Z), n + acc)); [|assumption].
  intros. lia.
Qed.

Lemma sum_counts_bump (side : str) (m : gmap str Z) :
  sum_counts (bump side m) = sum_counts m + 1.
Proof.
  unfold bump. destruct (m !! side) as [n|] eqn:E; simpl.
  - rewrite <- (insert_delete_eq m side (n + 1)).
    rewrite sum_counts_insert by apply lookup_delete_eq.
    rewrite <- (insert_delete_id m side n E) at 2.
    rewrite sum_counts_insert by apply lookup_delete_eq. lia.
  - rewrite sum_counts_insert by assumption. lia.
Qed.

Lemma bump_lookup (side s : str) (m : gmap str Z) :
  default 0 (bump side m !! s)
  = default 0 (m !! s) + (if bool_decide (side = s) then 1 else 0).
Proof.
  unfold bump. case_bool_decide as E.
  - subst. rewrite lookup_insert_eq. reflexivity.
  - rewrite lookup_insert_ne by assumption. lia.
Qed.

Lemma bump_nonempty (side : str) (m : gmap str Z) : bump side m ≠ ∅.
Proof. apply insert_non_empty. Qed.

Lemma record_all_count (parts : list (float * str)) :
  ∀ st, count (record_all parts st) = count st + Z.of_nat (length parts).
Proof.
  induction parts as [|p parts IH]; intros st; simpl; [lia|].
  unfold record_all in *. simpl. rewrite IH. simpl. lia.
Qed.

Lemma record_all_volume (parts : list (float * str)) :
  ∀ st, total_volume (record_all parts st)
        = fold_left fadd parts.*1 (total_volume st).
Proof.
  induction parts as [|p parts IH]; intros st; [reflexivity|].
  unfold record_all in *. simpl. rewrite IH. reflexivity.
Qed.

Lemma record_all_sides (parts : list (float * str)) (s : str) :
  ∀ st, default 0 (side_counts (record_all parts st) !! s)
        = default 0 (side_counts st !! s)
          + Z.of_nat (length (filter (λ x, x = s) parts.*2)).
Proof.
  induction parts as [|p parts IH]; intros st; [simpl; lia|].
  unfold record_all in *. simpl fold_left. rewrite IH. simpl side_counts.
  rewrite bump_lookup. rewrite fmap_cons, filter_cons.
  case_bool_decide; case_decide; try contradiction; simpl length; lia.
Qed.

Lemma record_all_nonempty (parts : list (float * str)) (st : aggregate) :
  parts ≠ [] ∨ side_counts st ≠ ∅ → side_counts (record_all parts st) ≠ ∅.
Proof.
  revert st. induction parts as [|p parts IH]; intros st H.
  - destruct H as [H|H]; [contradiction|exact H].
  - unfold record_all in *. simpl. apply IH. right. apply bump_nonempty.
Qed.

Lemma record_all_sum (parts : list (float * str)) :
  ∀ st, sum_counts (side_counts st) = count st →
        sum_counts (side_counts (record_all parts st)) = count (record_all parts st).
Proof.
  induction parts as [|p parts IH]; intros st H; [exact H|].
  unfold record_all in *. simpl. apply IH. simpl.
  rewrite sum_counts_bump. lia.
Qed.

Section Trades.
Variable utcoffset : Z → Z.
Variable limit : option Z.

(** A pass over valid trades ends with the aggregate of all of them. *)
Lemma trades_loop_ok (lines : list str) :
  ∀ st parts,
    Forall2 (λ line p, trade_parts line = Ok p)
            (processed limit (count st) lines) parts →
    (trades_loop utcoffset limit lines st).2 = Ok (record_all parts st).
Proof.
  induction lines as [|line rest IH]; intros st parts Hall.
  - rewrite processed_nil in Hall. apply Forall2_nil_inv_l in Hall. subst.
    reflexivity.
  - simpl. destruct (limit_reached limit (count st)) eqn:E.
    + rewrite processed_reached in Hall by assumption.
      apply Forall2_nil_inv_l in Hall. subst. reflexivity.
    + rewrite processed_cons in Hall by assumption.
      apply Forall2_cons_inv_l in Hall.
      destruct Hall as (p & parts' & Hp & Hrest & ->).
      rewrite snd_bind, trade_body_result, Hp, !Ok_bind.
      apply (IH (record_trade st p.1 p.2)). exact Hrest.
Qed.

(** A pass that ends normally went over valid trades only. *)
Lemma trades_loop_inv (lines : list str) :
  ∀ st st',
    (trades_loop utcoffset limit lines st).2 = Ok st' →
    ∃ parts,
      Forall2 (λ line p, trade_parts line = Ok p)
              (processed limit (count st) lines) parts
      ∧ st' = record_all parts st.
Proof.
  induction lines as [|line rest IH]; intros st st'.
  - intros [= <-]. exists []. rewrite processed_nil. split; [constructor|reflexivity].
  - simpl. destruct (limit_reached limit (count st)) eqn:E.
    + intros [= <-]. exists []. rewrite processed_reached by assumption.
      split; [constructor|reflexivity].
    + rewrite snd_bind, trade_body_result.
      destruct (trade_parts line) as [p|e] eqn:Ep; [|discriminate].
      rewrite !Ok_bind. intros H. destruct (IH _ _ H) as (parts & Hall & ->).
      exists (p :: parts). rewrite processed_cons by assumption.
      split; [constructor; assumption|reflexivity].
Qed.
End Trades.

Lemma trades_report_ok (st : aggregate) : (trades_report st).2 = Ok tt.
Proof.
  unfold trades_report. rewrite !snd_print_bind.
  destruct (bool_decide _); [reflexivity|]. rewrite snd_print_bind. reflexivity.
Qed.

Lemma trades_report_prints (st : aggregate) : only_prints (trades_report st).
Proof.
  unfold trades_report. only_prints. destruct (bool_decide _); only_prints.
Qed.

Lemma trades_report_lines (st : aggregate) :
  printed (trades_report st).1 =
  [ [Lit (newline :: rule)];
    [T "Total trades: "; Val (VInt (count st))];
    [T "Total volume: $"; Lit (format_f false false 2 (total_volume st))] ]
  ++ (if bool_decide (side_counts st = ∅) then []
      else [ [T "Buy trades: "; Val (VInt (default 0 (side_counts st !! lit "BUY")))];
             [T "Sell trades: "; Val (VInt (default 0 (side_counts st !! lit "SELL")))] ]).
Proof.
  unfold trades_report. rewrite !fst_bind. simpl.
  destruct (bool_decide _); reflexivity.
Qed.

Section Readers.
Variable utcoffset : Z → Z.
Variable fs : filesystem.

Lemma with_open_file {A} (path text : str) (size : Z) (body : list str → M A) :
  fs !! path = Some (File text size) →
  with_open fs path body
  = (EOpen path :: (body (readlines text [])).1 ++ [EClose path],
     (body (readlines text [])).2).
Proof. intros H. unfold with_open. rewrite H. destruct (body _). reflexivity. Qed.

Lemma path_exists_some {B} (path : str) (n : node) (f : bool → M B) :
  fs !! path = Some n →
  path_exists fs path ≫= f = (EExists path :: (f true).1, (f true).2).
Proof.
  intros H. unfold path_exists. rewrite M_bind_ok, H.
  rewrite bool_decide_eq_true_2 by eauto. reflexivity.
Qed.

Lemma path_exists_none {B} (path : str) (f : bool → M B) :
  fs !! path = None →
  path_exists fs path ≫= f = (EExists path :: (f false).1, (f false).2).
Proof.
  intros H. unfold path_exists. rewrite M_bind_ok, H.
  rewrite bool_decide_eq_false_2 by (intros [? ?]; discriminate). reflexivity.
Qed.

Lemma read_trades_file (path text : str) (size : Z) (limit : option Z) :
  fs !! path = Some (File text size) →
  let pass := trades_loop utcoffset limit (readlines text []) initial_aggregate in
  read_trades utcoffset fs path limit =
  ([EExists path; EPrint [Lit (newline :: rule)]; EPrint [T "TRADES"];
    EPrint [Lit rule]; EOpen path] ++ pass.1 ++ [EClose path]
   ++ match pass.2 with Ok st => (trades_report st).1 | Raise _ => [] end,
   match pass.2 with Ok st => Ok tt | Raise e => Raise e end).
Proof.
  intros H pass. unfold read_trades.
  rewrite (path_exists_some _ _ _ H). simpl negb. cbv iota.
  rewrite !print_bind, (with_open_file _ _ _ _ H). fold pass.
  destruct pass as [t [st|e]]; cbn [fst snd].
  - rewrite M_bind_ok.
    cbn [fst snd app]. rewrite trades_report_ok, <- app_assoc. reflexivity.
  - reflexivity.
Qed.
End Readers.

Section OtherReaders.
Variable utcoffset : Z → Z.
Variable fs : filesystem.

Lemma read_orderbook_snapshots_file (path text : str) (size : Z) (limit : option Z) :
  fs !! path = Some (File text size) →
  let pass := snapshots_loop utcoffset limit (readlines text []) 0 in
  read_orderbook_snapshots utcoffset fs path limit =
  ([EExists path; EPrint [Lit (newline :: rule)]; EPrint [T "ORDERBOOK SNAPSHOTS"];
    EPrint [Lit rule]; EOpen path] ++ pass.1 ++ [EClose path]
   ++ match pass.2 with
      | Ok n => [EPrint [Lit (newline :: lit "Total snapshots: "); Val (VInt n)]]
      | Raise _ => []
      end,
   match pass.2 with Ok _ => Ok tt | Raise e => Raise e end).
Proof.
  intros H pass. unfold read_orderbook_snapshots.
  rewrite (path_exists_some _ _ _ _ H). simpl negb. cbv iota.
  rewrite !print_bind, (with_open_file _ _ _ _ _ H). fold pass.
  destruct pass as [t [n|e]]; cbn [fst snd].
  - rewrite M_bind_ok. cbn [fst snd app print emit]. rewrite <- app_assoc. reflexivity.
  - reflexivity.
Qed.

Lemma read_tick_size_changes_file (path text : str) (size : Z) :
  fs !! path = Some (File text size) →
  let pass := ticks_loop utcoffset (readlines text []) 0 in
  read_tick_size_changes utcoffset fs path =
  ([EExists path; EPrint [Lit (newline :: rule)]; EPrint [T "TICK SIZE CHANGES"];
    EPrint [Lit rule]; EOpen path] ++ pass.1 ++ [EClose path]
   ++ match pass.2 with
      | Ok n => [EPrint [Lit (newline :: lit "Total tick size changes: "); Val (VInt n)]]
      | Raise _ => []
      end,
   match pass.2 with Ok _ => Ok tt | Raise e => Raise e end).
Proof.
  intros H pass. unfold read_tick_size_changes.
  rewrite (path_exists_some _ _ _ _ H). simpl negb. cbv iota.
  rewrite !print_bind, (with_open_file _ _ _ _ _ H). fold pass.
  destruct pass as [t [n|e]]; cbn [fst snd].
  - rewrite M_bind_ok. cbn [fst snd app print emit]. rewrite <- app_assoc. reflexivity.
  - reflexivity.
Qed.
End OtherReaders.

(** ** The three loops decode line by line *)

Section Passes.
Variable utcoffset : Z → Z.
Variable limit : option Z.

Lemma snapshots_pass (lines : list str) (n : Z) :
  Forall (λ line, ∀ n, (snapshot_body utcoffset n line).2 = Ok tt)
         (processed limit n lines) →
  (snapshots_loop utcoffset limit lines n).2
    = Ok (n + Z.of_nat (length (processed limit n lines)))
  ∧ decoded (snapshots_loop utcoffset limit lines n).1 = processed limit n lines.
Proof.
  intros Hall.
  destruct (loop_ok (λ n, n) limit (snapshot_step utcoffset)
              (snapshots_loop utcoffset limit) (λ _, eq_refl)
              (snapshots_loop_cons utcoffset limit)
              (snapshot_step_count utcoffset) lines n) as [n' Hn'].
  { eapply Forall_impl; [exact Hall|]. intros line Hline st. exists (st + 1).
    unfold snapshot_step. rewrite snd_bind, Hline. reflexivity. }
  destruct (loop_ok_decoded (λ n, n) limit (snapshot_step utcoffset)
              (snapshots_loop utcoffset limit) (λ _, eq_refl)
              (snapshots_loop_cons utcoffset limit)
              (snapshot_step_trace utcoffset)
              (snapshot_step_count utcoffset) lines n n' Hn') as [H1 H2].
  rewrite Hn', H2. split; [reflexivity|exact H1].
Qed.

Lemma trades_pass (lines : list str) (st : aggregate) :
  Forall (λ line, ∀ st, ∃ st', (trade_body utcoffset st line).2 = Ok st')
         (processed limit (count st) lines) →
  ∃ st', (trades_loop utcoffset limit lines st).2 = Ok st'
    ∧ count st' = count st + Z.of_nat (length (processed limit (count st) lines))
    ∧ decoded (trades_loop utcoffset limit lines st).1
      = processed limit (count st) lines.
Proof.
  intros Hall.
  destruct (loop_ok count limit (trade_body utcoffset)
              (trades_loop utcoffset limit) (λ _, eq_refl) (λ _ _ _, eq_refl)
              (trade_body_count utcoffset) lines st Hall) as [st' Hst'].
  destruct (loop_ok_decoded count limit (trade_body utcoffset)
              (trades_loop utcoffset limit) (λ _, eq_refl) (λ _ _ _, eq_refl)
              (trade_body_trace utcoffset)
              (trade_body_count utcoffset) lines st st' Hst') as [H1 H2].
  exists st'. repeat split; assumption.
Qed.
End Passes.

Lemma ticks_pass (utcoffset : Z → Z) (lines : list str) (n : Z) :
  Forall (λ line, ∀ n, (tick_body utcoffset n line).2 = Ok tt) lines →
  (ticks_loop utcoffset lines n).2 = Ok (n + Z.of_nat (length lines))
  ∧ decoded (ticks_loop utcoffset lines n).1 = lines.
Proof.
  intros Hall.
  destruct (loop_ok (λ n, n) None (tick_step utcoffset)
              (ticks_loop utcoffset) (λ _, eq_refl)
              (ticks_loop_cons utcoffset)
              (tick_step_count utcoffset) lines n) as [n' Hn'].
  { eapply Forall_impl; [exact Hall|]. intros line Hline st. exists (st + 1).
    unfold tick_step. rewrite snd_bind, Hline. reflexivity. }
  destruct (loop_ok_decoded (λ n, n) None (tick_step utcoffset)
              (ticks_loop utcoffset) (λ _, eq_refl)
              (ticks_loop_cons utcoffset)
              (tick_step_trace utcoffset)
              (tick_step_count utcoffset) lines n n' Hn') as [H1 H2].
  rewrite Hn', H2. split; [reflexivity|exact H1].
Qed.

Lemma decoded_cons_other (e : event) (t : list event) :
  match e with EDecode _ => False | _ => True end → decoded (e :: t) = decoded t.
Proof. destruct e; simpl; intros H; try reflexivity; contradiction. Qed.

Lemma M_eta {A} (m : M A) : m = (m.1, m.2).
Proof. destruct m; reflexivity. Qed.

(** ** The decoder has fuel enough *)

Lemma drop_while_length {A} (p : A → bool) (l : list A) :
  (length (drop_while p l) ≤ length l)%nat.
Proof.
  induction l as [|x l IH]; simpl; [lia|]. destruct (p x); simpl; lia.
Qed.

Lemma skip_ws_length (s : str) : (length (skip_ws s) ≤ length s)%nat.
Proof. apply drop_while_length. Qed.

Lemma scanstring_shorter (n : nat) :
  ∀ s acc t r, (length s ≤ n)%nat → scanstring s acc = Some (t, r) →
               (length r < length s)%nat.
Proof.
  induction n as [|n IH]; intros s acc t r Hn; destruct s as [|c rest];
    simpl in Hn; try discriminate; try lia.
  cbn [scanstring]. destruct (c =? quote)%N.
  { intros [= <- <-]. simpl. lia. }
  destruct (c =? backslash)%N.
  - destruct rest as [|e rest1]; [discriminate|].
    destruct (e =? chr "u")%N.
    + destruct rest1 as [|h1 [|h2 [|h3 [|h4 rest2]]]]; try (cbn; discriminate).
      destruct (hex4 h1 h2 h3 h4) as [u|]; [|discriminate].
      assert (Hplain : scanstring rest2 (u :: acc) = Some (t, r) →
                       (length r < S (S (S (S (S (S (length rest2)))))))%nat).
      { intros H. apply IH in H; simpl in *; lia. }
      destruct rest2 as [|b [|u' [|g1 [|g2 [|g3 [|g4 [|x rest3]]]]]]];
        try exact Hplain.
      cbv beta iota.
      cbv beta iota.
      destruct (is_high_surrogate u && (b =? backslash)%N && (u' =? chr "u")%N);
        [|exact Hplain].
      destruct (hex4 g1 g2 g3 g4) as [u2|]; [|discriminate].
      destruct (is_low_surrogate u2); [|exact Hplain].
      intros H. apply IH in H; simpl in *; lia.
    + destruct (escape_char e); [|discriminate].
      intros H. apply IH in H; simpl in *; lia.
  - destruct (c <? 32)%N; [discriminate|].
    intros H. apply IH in H; simpl in *; lia.
Qed.

Lemma starts_with_shorter (p s r : str) :
  p ≠ [] → starts_with p s = Some r → (length r < length s)%nat.
Proof.
  intros Hp. unfold starts_with, str_eqb. case_bool_decide as E; [|discriminate].
  intros [= <-]. rewrite length_drop.
  assert (length p ≤ length s)%nat.
  { rewrite <- E at 1. rewrite length_take. lia. }
  destruct p; [contradiction|simpl in *; lia].
Qed.

Lemma scan_exponent_length (s : str) :
  (length (scan_exponent s).2 ≤ length s)%nat.
Proof.
  unfold scan_exponent. destruct s as [|c rest]; [simpl; lia|].
  destruct ((c =? chr "e")%N || (c =? chr "E")%N); [|simpl; lia].
  set (signed := match rest with
                 | [] => (false, rest)
                 | sg :: r =>
                     if (sg =? chr "-")%N then (true, r)
                     else if (sg =? chr "+")%N then (false, r) else (false, rest)
                 end).
  assert (Hs : (length signed.2 ≤ length rest)%nat).
  { subst signed. destruct rest as [|sg r]; [simpl; lia|].
    destruct (sg =? chr "-")%N; [simpl; lia|].
    destruct (sg =? chr "+")%N; simpl; lia. }
  destruct signed as [neg rest']. simpl in Hs.
  unfold span_digits.
  pose proof (drop_while_length is_digit rest').
  destruct (take_while is_digit rest'); simpl; lia.
Qed.

Lemma match_number_shorter (s : str) (v : value) (r : str) :
  match_number s = Some (v, r) → (length r < length s)%nat.
Proof.
  unfold match_number.
  set (signed := match s with
                 | [] => (false, s)
                 | c :: r => if (c =? chr "-")%N then (true, r) else (false, s)
                 end).
  assert (Hs : (length signed.2 ≤ length s)%nat).
  { subst signed. destruct s as [|c s']; [simpl; lia|].
    destruct (c =? chr "-")%N; simpl; lia. }
  destruct signed as [neg s1]. simpl in Hs.
  destruct s1 as [|c r0]; [discriminate|].
  destruct (negb (is_digit c)) eqn:Ed; [discriminate|].
  set (int_part := if (c =? chr "0")%N then ([c], r0) else span_digits (c :: r0)).
  assert (Hi : (length int_part.2 ≤ length r0)%nat).
  { subst int_part. destruct (c =? chr "0")%N; [simpl; lia|].
    unfold span_digits. simpl. apply negb_false_iff in Ed. rewrite Ed.
    apply drop_while_length. }
  destruct int_part as [ip r1]. simpl in Hi.
  set (frac := match r1 with
               | p :: d :: _ =>
                   if (p =? chr ".")%N && is_digit d
                   then span_digits (tail r1) else ([], r1)
               | _ => ([], r1)
               end).
  assert (Hf : (length frac.2 ≤ length r1)%nat).
  { subst frac. destruct r1 as [|p [|d r1']]; try (simpl; lia).
    destruct ((p =? chr ".")%N && is_digit d); [|simpl; lia].
    unfold span_digits. simpl snd.
    pose proof (drop_while_length is_digit (tail (p :: d :: r1'))).
    simpl in *. lia. }
  destruct frac as [fp r2]. simpl in Hf.
  pose proof (scan_exponent_length r2) as He.
  destruct (scan_exponent r2) as [ex r3]. simpl in He.
  destruct (_ || _); intros [= <- <-]; simpl in *; lia.
Qed.

Lemma scan_atom_shorter (s : str) (v : value) (r : str) :
  scan_atom s = Some (v, r) → (length r < length s)%nat.
Proof.
  unfold scan_atom.
  repeat match goal with
         | |- context [starts_with ?p s] =>
             let E := fresh "E" in
             destruct (starts_with p s) eqn:E;
             [intros [= <- <-]; eapply starts_with_shorter; [|exact E]; discriminate|]
         end.
  apply match_number_shorter.
Qed.

Lemma scan_fuel (fuel : nat) :
  (∀ s, (2 * length s + 1 ≤ fuel)%nat → consumes s (scan_once fuel s))
  ∧ (∀ s acc, (2 * length s + 2 ≤ fuel)%nat → consumes s (parse_items fuel s acc))
  ∧ (∀ s acc, (2 * length s + 2 ≤ fuel)%nat → consumes s (parse_members fuel s acc)).
Proof.
  induction fuel as [|fuel (IHscan & IHitems & IHmembers)].
  { repeat split; intros; lia. }
  split; [|split].
  - intros s Hf. destruct s as [|c rest]; [exact I|]. simpl in Hf.
    cbn [scan_once].
    destruct (c =? quote)%N.
    { destruct (scanstring rest []) as [[t r]|] eqn:E; [|exact I].
      apply (scanstring_shorter (length rest)) in E; simpl; lia. }
    destruct (c =? chr "{")%N.
    { pose proof (skip_ws_length rest) as Hw.
      destruct (skip_ws rest) as [|c' r] eqn:E; [exact I|]. simpl in Hw.
      destruct (c' =? chr "}")%N; [simpl; lia|].
      pose proof (IHmembers (c' :: r) [] ltac:(simpl; lia)) as H.
      destruct (parse_members fuel (c' :: r) []); simpl in *; try assumption; lia. }
    destruct (c =? chr "[")%N.
    { pose proof (skip_ws_length rest) as Hw.
      destruct (skip_ws rest) as [|c' r] eqn:E; [exact I|]. simpl in Hw.
      destruct (c' =? chr "]")%N; [simpl; lia|].
      pose proof (IHitems (c' :: r) [] ltac:(simpl; lia)) as H.
      destruct (parse_items fuel (c' :: r) []); simpl in *; try assumption; lia. }
    destruct (scan_atom (c :: rest)) as [[v r]|] eqn:E; [|exact I].
    apply scan_atom_shorter in E. exact E.
  - intros s acc Hf. cbn [parse_items].
    pose proof (IHscan s ltac:(lia)) as H.
    destruct (scan_once fuel s) as [v r| |]; simpl in H; try assumption.
    pose proof (skip_ws_length r) as Hw.
    destruct (skip_ws r) as [|c r'] eqn:E; [exact I|]. simpl in Hw.
    destruct (c =? chr "]")%N; [simpl; lia|].
    destruct (c =? chr ",")%N; [|exact I].
    pose proof (skip_ws_length r') as Hw'.
    pose proof (IHitems (skip_ws r') (v :: acc) ltac:(lia)) as H'.
    destruct (parse_items fuel (skip_ws r') (v :: acc)); simpl in *;
      try assumption; lia.
  - intros s acc Hf. cbn [parse_members]. destruct s as [|q s']; [exact I|].
    simpl in Hf.
    destruct (q =? quote)%N; [|exact I].
    destruct (scanstring s' []) as [[k r]|] eqn:Ek; [|exact I].
    apply (scanstring_shorter (length s')) in Ek; [|lia].
    pose proof (skip_ws_length r) as Hw.
    destruct (skip_ws r) as [|c r1] eqn:E; [exact I|]. simpl in Hw.
    destruct (c =? chr ":")%N; [|exact I].
    pose proof (skip_ws_length r1) as Hw1.
    pose proof (IHscan (skip_ws r1) ltac:(lia)) as H.
    destruct (scan_once fuel (skip_ws r1)) as [v r2| |]; simpl in H;
      try assumption.
    pose proof (skip_ws_length r2) as Hw2.
    destruct (skip_ws r2) as [|c' r3] eqn:E2; [exact I|]. simpl in Hw2.
    destruct (c' =? chr "}")%N; [simpl; lia|].
    destruct (c' =? chr ",")%N; [|exact I].
    pose proof (skip_ws_length r3) as Hw3.
    pose proof (IHmembers (skip_ws r3) ((k, v) :: acc) ltac:(lia)) as H'.
    destruct (parse_members fuel (skip_ws r3) ((k, v) :: acc)); simpl in *;
      try assumption; lia.
Qed.

(** The fuel that [json_loads] gives to the decoder is never used up. *)
Lemma scan_once_fuel (s : str) :
  scan_once (2 * length s + 2) (skip_ws s) ≠ OutOfFuel.
Proof.
  pose proof (skip_ws_length s) as Hw.
  destruct (scan_fuel (2 * length s + 2)) as [H _].
  specialize (H (skip_ws s) ltac:(lia)).
  intros E. rewrite E in H. exact H.
Qed.

(** ** White space is not JSON *)

Lemma is_space_range (c : char) :
  is_space c = true → (c <= 32 ∨ 128 <= c)%N.
Proof.
  unfold is_space. rewrite !orb_true_iff, !andb_true_iff, !N.leb_le, !N.eqb_eq. lia.
Qed.

Lemma skip_ws_blank (s : str) :
  forallb is_space s = true →
  skip_ws s = [] ∨ ∃ c r, skip_ws s = c :: r ∧ is_space c = true.
Proof.
  unfold skip_ws. induction s as [|c s IH]; [left; reflexivity|].
  simpl. intros H. apply andb_prop in H. destruct H as [Hc Hs].
  destruct (is_json_ws c); [exact (IH Hs)|]. right. eauto.
Qed.

Lemma scan_once_space (fuel : nat) (c : char) (r : str) :
  is_space c = true → scan_once (S fuel) (c :: r) = Malformed.
Proof.
  intros H. apply is_space_range in H.
  assert (Hne : ∀ k, (33 <= k < 128)%N → (c =? k)%N = false).
  { intros k Hk. apply N.eqb_neq. lia. }
  assert (Hhead : ∀ a p, (33 <= N_of_ascii a < 128)%N →
                         starts_with (lit (String a p)) (c :: r) = None).
  { intros a p Hk. unfold starts_with, str_eqb.
    change (lit (String a p)) with (N_of_ascii a :: lit p). simpl.
    rewrite bool_decide_eq_false_2; [reflexivity|]. intros [= E _]. lia. }
  simpl. unfold quote. rewrite !Hne by (vm_compute; split; [discriminate|reflexivity]).
  unfold scan_atom.
  rewrite !Hhead by (vm_compute; split; [discriminate|reflexivity]).
  unfold match_number. unfold chr. simpl N_of_ascii.
  rewrite Hne by (vm_compute; split; [discriminate|reflexivity]).
  assert (Hd : is_digit c = false).
  { unfold is_digit. apply andb_false_iff. rewrite !N.leb_gt. lia. }
  rewrite Hd. reflexivity.
Qed.

Lemma blank_line_is_not_json (line : str) :
  is_blank line = true → json_loads line = Raise JSONDecodeError.
Proof.
  intros H. unfold json_loads.
  replace (2 * length line + 2)%nat with (S (2 * length line + 1)) by lia.
  destruct (skip_ws_blank line H) as [E|(c & r & E & Hc)].
  - rewrite E. destruct line as [|c line]; [reflexivity|]. destruct c; try reflexivity.
    repeat (destruct p; try reflexivity).
  - rewrite E, scan_once_space by assumption.
    destruct line as [|c' line]; [reflexivity|]. destruct c'; try reflexivity.
    repeat (destruct p; try reflexivity).
Qed.

Section LineByLine.
Variable utcoffset : Z → Z.

Lemma snapshot_step_blank (n : Z) (line : str) :
  is_blank line = true → (snapshot_step utcoffset n line).2 = Raise JSONDecodeError.
Proof.
  intros H. unfold snapshot_step, snapshot_body.
  rewrite snd_bind, snd_loads_bind, (blank_line_is_not_json _ H). reflexivity.
Qed.

Lemma trade_body_blank (st : aggregate) (line : str) :
  is_blank line = true → (trade_body utcoffset st line).2 = Raise JSONDecodeError.
Proof.
  intros H. unfold trade_body.
  rewrite snd_loads_bind, (blank_line_is_not_json _ H). reflexivity.
Qed.

Lemma tick_step_blank (n : Z) (line : str) :
  is_blank line = true → (tick_step utcoffset n line).2 = Raise JSONDecodeError.
Proof.
  intros H. unfold tick_step, tick_body.
  rewrite snd_bind, snd_loads_bind, (blank_line_is_not_json _ H). reflexivity.
Qed.
End LineByLine.

(** ** The running aggregate *)

Lemma processed_take_length (limit : option Z) (lines : list str) (j k : nat) :
  (j ≤ k)%nat →
  (length (processed limit 0 (take j lines))
   ≤ length (processed limit 0 (take k lines)))%nat.
Proof.
  intros H. unfold processed. destruct limit as [n|]; [destruct (n =? 0)|];
    rewrite ?length_take; lia.
Qed.

(** ** Rounding to binary64 does not overflow below 2^1023 *)

Lemma fexp_eq (x : Z) : fexp prec emax x = Z.max (x - 53) (-1074).
Proof. reflexivity. Qed.

Lemma digits2_pos_bounds (p : positive) :
  2 ^ (Zpos (digits2_pos p) - 1) <= Zpos p < 2 ^ Zpos (digits2_pos p).
Proof.
  induction p as [p IH|p IH|]; simpl digits2_pos.
  - rewrite Pos2Z.inj_succ. replace (Z.succ (Zpos (digits2_pos p)) - 1)
      with (Z.succ (Zpos (digits2_pos p) - 1)) by lia.
    rewrite !Z.pow_succ_r by lia. lia.
  - rewrite Pos2Z.inj_succ. replace (Z.succ (Zpos (digits2_pos p)) - 1)
      with (Z.succ (Zpos (digits2_pos p) - 1)) by lia.
    rewrite !Z.pow_succ_r by lia. lia.
  - simpl. lia.
Qed.

Lemma Zdigits2_nonneg (m : Z) : 0 <= Zdigits2 m.
Proof. destruct m; simpl; lia. Qed.

Lemma Zdigits2_le (m k : Z) : 0 <= m → 0 <= k → m < 2 ^ k → Zdigits2 m <= k.
Proof.
  intros Hm Hk H. destruct m as [|p|p]; simpl; [lia| |lia].
  destruct (digits2_pos_bounds p) as [Hlo _].
  assert (2 ^ (Zpos (digits2_pos p) - 1) < 2 ^ k) by lia.
  apply Z.pow_lt_mono_r_iff in H0; lia.
Qed.

Lemma Zdigits2_lt (m : Z) : 0 <= m → m < 2 ^ Zdigits2 m.
Proof.
  intros Hm. destruct m as [|p|p]; simpl; [lia| |lia].
  apply digits2_pos_bounds.
Qed.

Lemma shr_1_m (mrs : shr_record) :
  0 <= shr_m mrs → shr_m (shr_1 mrs) = shr_m mrs / 2.
Proof.
  destruct mrs as [m r s]. simpl. intros Hm.
  destruct m as [|[p|p|]|p]; try lia; simpl;
    try reflexivity; rewrite <- Z.div2_div; reflexivity.
Qed.

Lemma pow2_xI (p : positive) : 2 ^ Zpos p~1 = 2 * 2 ^ Zpos p * 2 ^ Zpos p.
Proof.
  rewrite (Pos2Z.inj_xI p).
  replace (2 * Zpos p + 1) with (1 + Zpos p + Zpos p) by lia.
  rewrite !Z.pow_add_r by lia. reflexivity.
Qed.

Lemma pow2_xO (p : positive) : 2 ^ Zpos p~0 = 2 ^ Zpos p * 2 ^ Zpos p.
Proof.
  rewrite (Pos2Z.inj_xO p).
  replace (2 * Zpos p) with (Zpos p + Zpos p) by lia.
  rewrite !Z.pow_add_r by lia. reflexivity.
Qed.

Lemma pow2_pos (k : Z) : 0 <= k → 0 < 2 ^ k.
Proof. intros H. apply Z.pow_pos_nonneg; lia. Qed.

Lemma iter_shr_1_m (p : positive) :
  ∀ mrs, 0 <= shr_m mrs →
         shr_m (SpecFloat.iter_pos shr_1 p mrs) = shr_m mrs / 2 ^ Zpos p.
Proof.
  induction p as [p IH|p IH|]; intros mrs Hm; simpl SpecFloat.iter_pos.
  - assert (H1 : 0 <= shr_m (shr_1 mrs)).
    { rewrite shr_1_m by assumption. apply Z.div_pos; lia. }
    assert (H2 : 0 <= shr_m (SpecFloat.iter_pos shr_1 p (shr_1 mrs))).
    { rewrite IH by assumption. apply Z.div_pos; [assumption|]. apply pow2_pos; lia. }
    pose proof (pow2_pos (Zpos p) ltac:(lia)) as Hp.
    rewrite IH, IH, shr_1_m by assumption.
    rewrite pow2_xI, !Z.div_div by lia. f_equal. lia.
  - assert (H2 : 0 <= shr_m (SpecFloat.iter_pos shr_1 p mrs)).
    { rewrite IH by assumption. apply Z.div_pos; [assumption|]. apply pow2_pos; lia. }
    pose proof (pow2_pos (Zpos p) ltac:(lia)) as Hp.
    rewrite IH, IH by assumption.
    rewrite pow2_xO, !Z.div_div by lia. f_equal.
  - rewrite shr_1_m by assumption. reflexivity.
Qed.

(** One right shift to the canonical exponent: the new exponent and a
    bound on the new mantissa. *)
Lemma shr_fexp_spec (m e : Z) (l : location) :
  0 <= m →
  let '(mrs, e') := shr_fexp prec emax m e l in
  e' = Z.max e (fexp prec emax (Zdigits2 m + e))
  ∧ 0 <= shr_m mrs
  ∧ shr_m mrs = m / 2 ^ (e' - e).
Proof.
  intros Hm. unfold shr_fexp, shr.
  assert (Hrec : shr_m (shr_record_of_loc m l) = m).
  { destruct l as [|[]]; reflexivity. }
  destruct (fexp prec emax (Zdigits2 m + e) - e) as [|p|p] eqn:En.
  - split; [lia|]. rewrite Hrec. split; [assumption|].
    rewrite Z.sub_diag, Z.pow_0_r, Z.div_1_r. reflexivity.
  - split; [lia|]. rewrite iter_shr_1_m by (rewrite Hrec; assumption).
    rewrite Hrec. split.
    + apply Z.div_pos; [assumption|]. apply pow2_pos; lia.
    + f_equal. f_equal. lia.
  - split; [lia|]. rewrite Hrec. split; [assumption|].
    rewrite Z.sub_diag, Z.pow_0_r, Z.div_1_r. reflexivity.
Qed.

Lemma round_nearest_even_bounds (m : Z) (l : location) :
  0 <= m → m <= round_nearest_even m l <= m + 1.
Proof.
  intros Hm. unfold round_nearest_even.
  destruct l as [|[]]; try lia. destruct (Z.even m); lia.
Qed.

Lemma binary_round_aux_finite (s : bool) (m e : Z) (l : location) :
  0 <= m → e <= 971 → Zdigits2 m + e <= 1023 →
  is_inf (binary_round_aux prec emax s m e l) = false.
Proof.
  intros Hm He Hd. unfold binary_round_aux.
  pose proof (shr_fexp_spec m e l Hm) as H1.
  destruct (shr_fexp prec emax m e l) as [mrs1 e1].
  destruct H1 as (He1 & Hm1 & Hv1).
  set (m1 := round_nearest_even (shr_m mrs1) (loc_of_shr_record mrs1)).
  pose proof (round_nearest_even_bounds (shr_m mrs1) (loc_of_shr_record mrs1) Hm1) as Hr.
  fold m1 in Hr.
  pose proof (shr_fexp_spec m1 e1 loc_Exact ltac:(lia)) as H2.
  destruct (shr_fexp prec emax m1 e1 loc_Exact) as [mrs2 e2].
  destruct H2 as (He2 & Hm2 & Hv2).
  destruct (shr_m mrs2) as [|p|p] eqn:E; try reflexivity.
  assert (Hfin : e2 <= 971); [|].
  { rewrite fexp_eq in He1.
    assert (Hm1' : Zdigits2 m1 + e1 <= 1024).
    { assert (e <= e1) by lia.
      assert (Hlt : m < 2 ^ Zdigits2 m) by (apply Zdigits2_lt; assumption).
      pose proof (Zdigits2_nonneg m) as Hdn.
      destruct (Z_le_gt_dec (e1 - e) (Zdigits2 m)) as [Hsmall|Hbig].
      - assert (shr_m mrs1 < 2 ^ (Zdigits2 m - (e1 - e))).
        { rewrite Hv1. apply Z.div_lt_upper_bound; [apply Z.pow_pos_nonneg; lia|].
          rewrite <- Z.pow_add_r by lia.
          replace (e1 - e + (Zdigits2 m - (e1 - e))) with (Zdigits2 m) by lia.
          assumption. }
        assert (m1 < 2 ^ (Zdigits2 m - (e1 - e) + 1)).
        { rewrite Z.pow_add_r by lia. simpl (2 ^ 1).
          assert (0 < 2 ^ (Zdigits2 m - (e1 - e))) by (apply Z.pow_pos_nonneg; lia).
          lia. }
        assert (Zdigits2 m1 <= Zdigits2 m - (e1 - e) + 1)
          by (apply Zdigits2_le; lia).
        lia.
      - assert (shr_m mrs1 = 0).
        { rewrite Hv1. apply Z.div_small. split; [assumption|].
          eapply Z.lt_le_trans; [exact Hlt|].
          apply Z.pow_le_mono_r; lia. }
        assert (Zdigits2 m1 <= 1) by (apply Zdigits2_le; simpl; lia).
        lia. }
    rewrite fexp_eq in He2. lia. }
  apply Z.leb_le in Hfin. unfold emax, prec.
  change (1024 - 53) with 971. rewrite Hfin. reflexivity.
Qed.



Lemma round_quotient_finite (neg : bool) (a b : Z) :
  0 <= a < 2 ^ 1023 → 0 < b → is_inf (round_quotient neg a b) = false.
Proof.
  intros [Ha Hlt] Hb. destruct a as [|p|p]; try reflexivity.
  unfold round_quotient, SFdiv_core_binary.
  rewrite !Z.add_0_r, !Z.sub_0_r, Z.sub_0_l, fexp_eq.
  set (e' := Z.min (Z.max (Zdigits2 (Zpos p) - Zdigits2 b - 53) (-1074)) 0).
  assert (He' : e' <= 0) by (subst e'; lia).
  set (m' := match - e' with
             | 0 => Zpos p
             | Zpos _ => Z.shiftl (Zpos p) (- e')
             | Zneg _ => 0
             end).
  assert (Hm' : m' = Zpos p * 2 ^ (- e')).
  { subst m'. destruct (- e') as [|s|s] eqn:Es; [simpl; lia| |lia].
    rewrite Z.shiftl_mul_pow2 by lia. reflexivity. }
  destruct (Z.div_eucl m' b) as [q r] eqn:Eqr.
  assert (Hq : q = m' / b) by (unfold Z.div; rewrite Eqr; reflexivity).
  assert (Hpow : 0 < 2 ^ (- e')) by (apply Z.pow_pos_nonneg; lia).
  assert (Hq0 : 0 <= q) by (rewrite Hq; apply Z.div_pos; lia).
  assert (Hqm : q <= m').
  { rewrite Hq. apply Z.div_le_upper_bound; [lia|]. nia. }
  assert (Hp : Zdigits2 (Zpos p) <= 1023) by (apply Zdigits2_le; lia).
  apply binary_round_aux_finite; try lia.
  assert (Zdigits2 q <= Zdigits2 (Zpos p) + - e'); [|lia].
  apply Zdigits2_le; try lia.
  { pose proof (Zdigits2_nonneg (Zpos p)). lia. }
  rewrite Z.pow_add_r by (try apply Zdigits2_nonneg; lia).
  pose proof (Zdigits2_lt (Zpos p) ltac:(lia)). nia.
Qed.


Lemma int_truediv_total (a b : Z) :
  Z.abs a < 2 ^ 1023 → b ≠ 0 →
  int_truediv a b = Ok (round_quotient (xorb (a <? 0) (b <? 0)) (Z.abs a) (Z.abs b)).
Proof.
  intros Ha Hb. unfold int_truediv.
  destruct (b =? 0) eqn:E; [apply Z.eqb_eq in E; contradiction|].
  rewrite round_quotient_finite by lia. reflexivity.
Qed.

(** ** Rounding a non-zero integer does not give zero *)







(** ** Order on numbers *)














(** ** The two price lines, value by value *)







Lemma dataset_statistics_spec (fs : filesystem) (data_dir name filename : str) :
  file_or_missing (fs !! path_join data_dir filename) →
  dataset_statistics fs data_dir (name, filename)
  = (expected_statistics name (path_join data_dir filename)
       (fs !! path_join data_dir filename), Ok tt).
Proof.
  unfold dataset_statistics. set (p := path_join data_dir filename).
  intros H. destruct (fs !! p) as [[text size|size]|] eqn:E; [|contradiction|];
    simpl in H.
  - rewrite (path_exists_some _ _ _ _ E).
    rewrite (with_open_file _ _ _ _ _ E). cbn [mret M_ret fst snd app].
    rewrite M_bind_ok. unfold getsize. rewrite E, M_bind_ok.
    assert (2 ^ 63 < 2 ^ 1023) by (apply Z.pow_lt_mono_r; lia).
    rewrite int_truediv_total by lia.
    replace (size <? 0) with false by (symmetry; apply Z.ltb_ge; lia).
    rewrite (Z.abs_eq size) by lia.
    rewrite lift_ok_bind, !print_bind. reflexivity.
  - rewrite (path_exists_none _ _ _ E). reflexivity.
Qed.

(** ** The loops make no call to the file system *)

Lemma file_accesses_app (t1 t2 : list event) :
  file_accesses (t1 ++ t2) = file_accesses t1 ++ file_accesses t2.
Proof. apply List.filter_app. Qed.

Section LoopAccess.
Context {S : Type}.
Variable count_of : S → Z.
Variable limit : option Z.
Variable body : S → str → M S.
Variable loop : list str → S → M S.

Hypothesis loop_nil : ∀ st, loop [] st = mret st.
Hypothesis loop_cons : ∀ line rest st,
  loop (line :: rest) st =
  if limit_reached limit (count_of st) then mret st
  else st' ← body st line; loop rest st'.
Hypothesis body_trace : ∀ st line,
  ∃ t, (body st line).1 = EDecode line :: t ∧ Forall is_print t.

Lemma loop_no_access (lines : list str) :
  ∀ st, file_accesses (loop lines st).1 = [].
Proof.
  induction lines as [|line rest IH]; intros st.
  - rewrite loop_nil. reflexivity.
  - rewrite loop_cons. destruct (limit_reached _ _); [reflexivity|].
    rewrite fst_bind, file_accesses_app.
    destruct (body_trace st line) as (t & -> & Ht).
    simpl. rewrite (only_prints_accesses t Ht).
    destruct (body st line).2; [apply IH|reflexivity].
Qed.
End LoopAccess.

Lemma snapshots_loop_no_access (utcoffset : Z → Z) (limit : option Z)
    (lines : list str) (n : Z) :
  file_accesses (snapshots_loop utcoffset limit lines n).1 = [].
Proof.
  apply (loop_no_access (λ n, n) limit (snapshot_step utcoffset));
    [reflexivity | apply snapshots_loop_cons | apply snapshot_step_trace].
Qed.

Lemma trades_loop_no_access (utcoffset : Z → Z) (limit : option Z)
    (lines : list str) (st : aggregate) :
  file_accesses (trades_loop utcoffset limit lines st).1 = [].
Proof.
  apply (loop_no_access count limit (trade_body utcoffset));
    [reflexivity | reflexivity | apply trade_body_trace].
Qed.

Lemma ticks_loop_no_access (utcoffset : Z → Z) (lines : list str) (n : Z) :
  file_accesses (ticks_loop utcoffset lines n).1 = [].
Proof.
  apply (loop_no_access (λ n, n) None (tick_step utcoffset));
    [reflexivity | apply ticks_loop_cons | apply tick_step_trace].
Qed.
(** ** A pass over a file, part by part *)

Section LoopParts.
Context {S : Type}.
Variable count_of : S → Z.
Variable limit : option Z.
Variable body : S → str → M S.
Variable loop : list str → S → M S.

Hypothesis loop_nil : ∀ st, loop [] st = mret st.
Hypothesis loop_cons : ∀ line rest st,
  loop (line :: rest) st =
  if limit_reached limit (count_of st) then mret st
  else st' ← body st line; loop rest st'.

Lemma loop_reached (lines : list str) (st : S) :
  limit_reached limit (count_of st) = true → loop lines st = mret st.
Proof.
  intros H. destruct lines as [|line rest]; [apply loop_nil|].
  rewrite loop_cons, H. reflexivity.
Qed.

(** The pass over [l1 ++ l2] is the pass over [l1] followed, from the
    state it ends in, by the pass over [l2]. *)
Lemma loop_app (l1 l2 : list str) :
  ∀ st, loop (l1 ++ l2) st = loop l1 st ≫= loop l2.
Proof.
  induction l1 as [|line rest IH]; intros st.
  - rewrite loop_nil, M_ret_bind. reflexivity.
  - simpl app. rewrite !loop_cons.
    destruct (limit_reached limit (count_of st)) eqn:E.
    + rewrite M_ret_bind, loop_reached by assumption. reflexivity.
    + rewrite M_bind_assoc.
      destruct (body st line) as [t [st'|e]]; [|reflexivity].
      rewrite !M_bind_ok, IH. reflexivity.
Qed.

(** The limit has no effect on a pass whose lines it lets through. *)
Variable loop_all : list str → S → M S.
Hypothesis loop_all_nil : ∀ st, loop_all [] st = mret st.
Hypothesis loop_all_cons : ∀ line rest st,
  loop_all (line :: rest) st = st' ← body st line; loop_all rest st'.
Hypothesis body_count : ∀ st line st',
  (body st line).2 = Ok st' → count_of st' = count_of st + 1.

Lemma loop_unlimited (lines : list str) :
  ∀ st, processed limit (count_of st) lines = lines →
        loop lines st = loop_all lines st.
Proof.
  induction lines as [|line rest IH]; intros st Hall.
  - rewrite loop_nil, loop_all_nil. reflexivity.
  - rewrite loop_cons, loop_all_cons.
    destruct (limit_reached limit (count_of st)) eqn:E.
    + rewrite processed_reached in Hall by assumption. discriminate.
    + rewrite processed_cons in Hall by assumption.
      injection Hall as Hall.
      destruct (body st line) as [t [st'|e]] eqn:Eb; [|reflexivity].
      rewrite !M_bind_ok, IH; [reflexivity|].
      rewrite (body_count st line st') by (rewrite Eb; reflexivity).
      exact Hall.
Qed.
End LoopParts.

Lemma snapshots_loop_none_cons (utcoffset : Z → Z) (line : str) (rest : list str)
    (n : Z) :
  snapshots_loop utcoffset None (line :: rest) n =
  n' ← snapshot_step utcoffset n line; snapshots_loop utcoffset None rest n'.
Proof. apply (snapshots_loop_cons utcoffset None). Qed.

Lemma processed_all (limit : option Z) (c : Z) (lines : list str) :
  limit = None ∨ limit = Some 0
  ∨ (∃ n, limit = Some n ∧ c + Z.of_nat (length lines) <= n) →
  processed limit c lines = lines.
Proof.
  intros [->|[->|(n & -> & H)]]; [reflexivity|reflexivity|].
  unfold processed. destruct (n =? 0); [reflexivity|].
  apply take_ge. lia.
Qed.

Section Unlimited.
Variable utcoffset : Z → Z.
Variable limit : option Z.

Lemma snapshots_loop_unlimited (lines : list str) (n : Z) :
  processed limit n lines = lines →
  snapshots_loop utcoffset limit lines n = snapshots_loop utcoffset None lines n.
Proof.
  apply (loop_unlimited (λ n, n) limit (snapshot_step utcoffset)
           (snapshots_loop utcoffset limit) (λ _, eq_refl)
           (snapshots_loop_cons utcoffset limit)
           (snapshots_loop utcoffset None) (λ _, eq_refl)
           (snapshots_loop_none_cons utcoffset)
           (snapshot_step_count utcoffset)).
Qed.

Lemma trades_loop_unlimited (lines : list str) (st : aggregate) :
  processed limit (count st) lines = lines →
  trades_loop utcoffset limit lines st = trades_loop utcoffset None lines st.
Proof.
  apply (loop_unlimited count limit (trade_body utcoffset)
           (trades_loop utcoffset limit) (λ _, eq_refl) (λ _ _ _, eq_refl)
           (trades_loop utcoffset None) (λ _, eq_refl) (λ _ _ _, eq_refl)
           (trade_body_count utcoffset)).
Qed.

Lemma snapshots_loop_app (l1 l2 : list str) (n : Z) :
  snapshots_loop utcoffset limit (l1 ++ l2) n
  = snapshots_loop utcoffset limit l1 n ≫= snapshots_loop utcoffset limit l2.
Proof.
  apply (loop_app (λ n, n) limit (snapshot_step utcoffset)
           (snapshots_loop utcoffset limit) (λ _, eq_refl)
           (snapshots_loop_cons utcoffset limit)).
Qed.

Lemma trades_loop_app (l1 l2 : list str) (st : aggregate) :
  trades_loop utcoffset limit (l1 ++ l2) st
  = trades_loop utcoffset limit l1 st ≫= trades_loop utcoffset limit l2.
Proof.
  apply (loop_app count limit (trade_body utcoffset)
           (trades_loop utcoffset limit) (λ _, eq_refl) (λ _ _ _, eq_refl)).
Qed.
End Unlimited.

Lemma ticks_loop_app (utcoffset : Z → Z) (l1 l2 : list str) (n : Z) :
  ticks_loop utcoffset (l1 ++ l2) n
  = ticks_loop utcoffset l1 n ≫= ticks_loop utcoffset l2.
Proof.
  apply (loop_app (λ n, n) None (tick_step utcoffset)
           (ticks_loop utcoffset) (λ _, eq_refl) (ticks_loop_cons utcoffset)).
Qed.

(** ** Readers that differ in the pass only *)

Lemma with_open_ext {A : Type} (fs : filesystem) (path : str) (body1 body2 : list str → M A) :
  (∀ text size, fs !! path = Some (File text size) →
                body1 (readlines text []) = body2 (readlines text [])) →
  with_open fs path body1 = with_open fs path body2.
Proof.
  intros H. unfold with_open.
  destruct (fs !! path) as [[text size|size]|]; [|reflexivity|reflexivity].
  rewrite (H text size eq_refl). reflexivity.
Qed.

Lemma read_orderbook_snapshots_ext (utcoffset : Z → Z) (fs : filesystem) (path : str)
    (limit1 limit2 : option Z) :
  (∀ text size, fs !! path = Some (File text size) →
     snapshots_loop utcoffset limit1 (readlines text []) 0
     = snapshots_loop utcoffset limit2 (readlines text []) 0) →
  read_orderbook_snapshots utcoffset fs path limit1
  = read_orderbook_snapshots utcoffset fs path limit2.
Proof.
  intros H. unfold read_orderbook_snapshots, path_exists. rewrite !M_bind_ok.
  destruct (negb _); [reflexivity|].
  rewrite !print_bind.
  rewrite (with_open_ext fs path _ (λ lines, snapshots_loop utcoffset limit2 lines 0) H).
  reflexivity.
Qed.

Lemma read_trades_ext (utcoffset : Z → Z) (fs : filesystem) (path : str)
    (limit1 limit2 : option Z) :
  (∀ text size, fs !! path = Some (File text size) →
     trades_loop utcoffset limit1 (readlines text []) initial_aggregate
     = trades_loop utcoffset limit2 (readlines text []) initial_aggregate) →
  read_trades utcoffset fs path limit1 = read_trades utcoffset fs path limit2.
Proof.
  intros H. unfold read_trades, path_exists. rewrite !M_bind_ok.
  destruct (negb _); [reflexivity|].
  rewrite !print_bind.
  rewrite (with_open_ext fs path _
             (λ lines, trades_loop utcoffset limit2 lines initial_aggregate) H).
  reflexivity.
Qed.

(** ** The first failing line *)

Section LoopFails.
Context {S : Type}.
Variable count_of : S → Z.
Variable limit : option Z.
Variable body : S → str → M S.
Variable loop : list str → S → M S.

Hypothesis loop_nil : ∀ st, loop [] st = mret st.
Hypothesis loop_cons : ∀ line rest st,
  loop (line :: rest) st =
  if limit_reached limit (count_of st) then mret st
  else st' ← body st line; loop rest st'.

Lemma loop_fails (good : list str) (bad : str) (rest : list str) (e : exn)
    (st st1 : S) :
  (loop good st).2 = Ok st1 →
  limit_reached limit (count_of st1) = false →
  (body st1 bad).2 = Raise e →
  loop (good ++ bad :: rest) st
  = ((loop good st).1 ++ (body st1 bad).1, Raise e).
Proof.
  intros Hgood Hlim Hbad.
  rewrite (loop_app count_of limit body loop loop_nil loop_cons).
  rewrite (M_eta (loop good st)), Hgood, M_bind_ok.
  rewrite loop_cons, Hlim.
  rewrite (M_eta (body st1 bad)), Hbad. reflexivity.
Qed.
End LoopFails.

Lemma processed_below (limit : option Z) (lines : list str) :
  limit_reached limit (Z.of_nat (length lines)) = false →
  processed limit 0 lines = lines.
Proof.
  intros H. apply processed_all.
  destruct limit as [n|]; [|left; reflexivity]. right.
  unfold limit_reached in H. destruct (n =? 0) eqn:E.
  - left. apply Z.eqb_eq in E. subst. reflexivity.
  - right. exists n. split; [reflexivity|]. simpl in H. apply Z.leb_gt in H. lia.
Qed.

(** ** Lines of a text that grows *)

Lemma readlines_app_length (n : nat) :
  ∀ s cur more, (length s ≤ n)%nat →
    readlines (s ++ newline :: more) cur
    = readlines (s ++ [newline]) cur ++ readlines more [].
Proof.
  induction n as [|n IH]; intros s cur more Hn.
  - destruct s; [reflexivity|simpl in Hn; lia].
  - destruct s as [|c s]; [reflexivity|]. simpl in Hn.
    cbn [app readlines].
    destruct (c =? 10)%N.
    { rewrite IH by lia. reflexivity. }
    destruct (c =? 13)%N; [|apply IH; lia].
    destruct s as [|c' s]; [reflexivity|]. simpl in Hn.
    cbn [app]. destruct (c' =? 10)%N.
    + rewrite IH by lia. reflexivity.
    + change (c' :: s ++ newline :: more) with ((c' :: s) ++ newline :: more).
      change (c' :: s ++ [newline]) with ((c' :: s) ++ [newline]).
      rewrite IH by (simpl; lia). reflexivity.
Qed.

Lemma readlines_app (s more : str) :
  readlines ((s ++ [newline]) ++ more) []
  = readlines (s ++ [newline]) [] ++ readlines more [].
Proof.
  rewrite <- app_assoc. apply (readlines_app_length (length s)). lia.
Qed.

(** ** What the bodies of the loops return *)

Lemma subscript_dict (fields : list (str * value)) (k : str) :
  subscript (VDict fields) k
  = match dict_get fields k with Some w => Ok w | None => Raise KeyError end.
Proof. reflexivity. Qed.

Lemma subscript_ok_inv (v : value) (k : str) (w : value) :
  subscript v k = Ok w → ∃ fields, v = VDict fields ∧ dict_get fields k = Some w.
Proof.
  destruct v; try discriminate. simpl.
  destruct (dict_get _ _) eqn:E; [|discriminate]. intros [= <-]. eauto.
Qed.

Section Results.
Variable utcoffset : Z → Z.

Lemma print_side_result (snapshot : value) (key title : str) :
  (print_side snapshot key title).2
  = (levels ← subscript snapshot key;
     if truthy levels then
       top ← (s ← slice_to 5 levels; iter_items s);
       (print_levels top 0).2
     else Ok tt).
Proof.
  unfold print_side. rewrite snd_lift_bind.
  destruct (subscript snapshot key) as [levels|e] eqn:E; [|reflexivity].
  rewrite !Ok_bind. destruct (truthy levels); [|reflexivity].
  rewrite snd_print_bind, snd_lift_bind. reflexivity.
Qed.

Lemma snapshot_body_result (n : Z) (line : str) :
  (snapshot_body utcoffset n line).2
  = (snapshot ← json_loads line;
     _ ← time_line utcoffset snapshot;
     _ ← asset_line snapshot;
     _ ← market_line snapshot;
     _ ← btc_line snapshot;
     _ ← (print_side snapshot (lit "bids") (lit "Top 5 Bids:")).2;
     (print_side snapshot (lit "asks") (lit "Top 5 Asks:")).2).
Proof.
  unfold snapshot_body. rewrite snd_loads_bind.
  destruct (json_loads line) as [snapshot|e]; [|reflexivity].
  rewrite !Ok_bind, snd_print_bind, snd_lift_bind.
  destruct (time_line utcoffset snapshot) as [l|e]; [|reflexivity].
  rewrite !Ok_bind, snd_print_bind, snd_lift_bind.
  destruct (asset_line snapshot) as [l1|e]; [|reflexivity].
  rewrite !Ok_bind, snd_print_bind, snd_lift_bind.
  destruct (market_line snapshot) as [l2|e]; [|reflexivity].
  rewrite !Ok_bind, snd_print_bind, snd_lift_bind.
  destruct (btc_line snapshot) as [btc|e]; [|reflexivity].
  rewrite !Ok_bind.
  destruct btc as [l3|]; [rewrite snd_print_bind|rewrite M_ret_bind];
    rewrite snd_bind; reflexivity.
Qed.

Lemma tick_body_result (n : Z) (line : str) :
  (tick_body utcoffset n line).2
  = (change ← json_loads line;
     _ ← time_line utcoffset change;
     _ ← asset_line change;
     _ ← market_line change;
     _ ← tick_line change;
     Ok tt).
Proof.
  unfold tick_body. rewrite snd_loads_bind.
  destruct (json_loads line) as [change|e]; [|reflexivity].
  rewrite !Ok_bind, snd_print_bind, snd_lift_bind.
  destruct (time_line utcoffset change) as [l|e]; [|reflexivity].
  rewrite !Ok_bind, snd_print_bind, snd_lift_bind.
  destruct (asset_line change) as [l1|e]; [|reflexivity].
  rewrite !Ok_bind, snd_print_bind, snd_lift_bind.
  destruct (market_line change) as [l2|e]; [|reflexivity].
  rewrite !Ok_bind, snd_print_bind, snd_lift_bind.
  destruct (tick_line change) as [l3|e]; reflexivity.
Qed.
End Results.

(** A chain of steps raises as soon as one of them does. *)
Lemma bind_raises {A B} (r : result A) (f : A → result B) :
  (∃ e, r = Raise e) ∨ (∀ a, ∃ e, f a = Raise e) → ∃ e, r ≫= f = Raise e.
Proof.
  intros [[e ->]|H]; [exists e; reflexivity|].
  destruct r as [a|e]; [apply H|exists e; reflexivity].
Qed.

Lemma time_line_missing (utcoffset : Z → Z) (fields : list (str * value)) :
  dict_get fields (lit "timestamp") = None →
  time_line utcoffset (VDict fields) = Raise KeyError.
Proof. intros H. unfold time_line. rewrite subscript_dict, H. reflexivity. Qed.

Lemma asset_line_missing (fields : list (str * value)) :
  dict_get fields (lit "asset_id") = None → asset_line (VDict fields) = Raise KeyError.
Proof. intros H. unfold asset_line. rewrite subscript_dict, H. reflexivity. Qed.

Lemma market_line_missing (fields : list (str * value)) :
  dict_get fields (lit "market") = None → market_line (VDict fields) = Raise KeyError.
Proof. intros H. unfold market_line. rewrite subscript_dict, H. reflexivity. Qed.

Lemma print_side_missing (fields : list (str * value)) (key title : str) :
  dict_get fields key = None →
  (print_side (VDict fields) key title).2 = Raise KeyError.
Proof. intros H. rewrite print_side_result, subscript_dict, H. reflexivity. Qed.

Lemma tick_line_missing (fields : list (str * value)) :
  dict_get fields (lit "old_tick_size") = None
  ∨ dict_get fields (lit "new_tick_size") = None →
  tick_line (VDict fields) = Raise KeyError.
Proof.
  intros H. unfold tick_line. rewrite !subscript_dict.
  destruct (dict_get fields (lit "old_tick_size")); [|reflexivity].
  destruct H as [H|H]; [discriminate|]. rewrite H. reflexivity.
Qed.

Lemma side_line_missing (fields : list (str * value)) :
  dict_get fields (lit "side") = None ∨ dict_get fields (lit "price") = None
  ∨ dict_get fields (lit "size") = None →
  ∃ e, side_line (VDict fields) = Raise e.
Proof.
  intros H. unfold side_line. rewrite !subscript_dict.
  destruct (dict_get fields (lit "side")) as [side|];
    [|eexists; reflexivity].
  rewrite Ok_bind. destruct (format_s 4 side); [|eexists; reflexivity].
  rewrite Ok_bind.
  destruct (dict_get fields (lit "price")) as [price|];
    [|eexists; reflexivity].
  rewrite Ok_bind. destruct (format_s 6 price); [|eexists; reflexivity].
  rewrite Ok_bind.
  destruct H as [H|[H|H]]; try discriminate. rewrite H. eexists. reflexivity.
Qed.

Lemma fee_line_missing (fields : list (str * value)) :
  dict_get fields (lit "fee_rate_bps") = None →
  fee_line (VDict fields) = Raise KeyError.
Proof. intros H. unfold fee_line. rewrite subscript_dict, H. reflexivity. Qed.

(** ** The levels of one side of the book *)

Lemma print_levels_shown (levels : list value) :
  ∀ shown i,
    Forall2 level_shows levels shown →
    print_levels levels i
    = (imap (λ j p, EPrint [T "  "; Val (VInt (i + Z.of_nat j + 1)); T ". Price: ";
                            Lit (rjust 6 p.1); T "  Size: "; Val p.2]) shown,
       Ok tt).
Proof.
  induction levels as [|level rest IH]; intros shown i Hall.
  - apply Forall2_nil_inv_l in Hall. subst. reflexivity.
  - apply Forall2_cons_inv_l in Hall.
    destruct Hall as (p & shown' & [Hprice Hsize] & Hrest & ->).
    cbn [print_levels]. unfold level_line. rewrite Hprice, Hsize.
    rewrite !Ok_bind. cbn [format_s]. rewrite !Ok_bind.
    unfold mret at 1, result_ret. rewrite lift_ok_bind, print_bind.
    rewrite (IH shown' (i + 1) Hrest). cbn [fst snd imap].
    rewrite Z.add_0_r. f_equal. f_equal.
    apply imap_ext. intros j q _. simpl.
    replace (i + 1 + Z.of_nat j + 1) with (i + Z.of_nat (S j) + 1) by lia.
    reflexivity.
Qed.

Lemma print_side_shown (snapshot : value) (key title : str) (levels : list value)
    (shown : list (str * value)) :
  subscript snapshot key = Ok (VList levels) →
  Forall2 level_shows (take 5 levels) shown →
  print_side snapshot key title = (side_block title levels shown, Ok tt).
Proof.
  intros Hside Hshown. unfold print_side, side_block. rewrite Hside, lift_ok_bind.
  destruct levels as [|level rest]; [reflexivity|].
  cbn [truthy]. rewrite print_bind.
  repeat first [rewrite Ok_bind | progress cbn [slice_to iter_items]].
  rewrite lift_ok_bind.
  rewrite (print_levels_shown _ shown 0 Hshown). reflexivity.
Qed.

(** ** What a valid trade holds *)

Lemma asset_line_inv (fields : list (str * value)) (l : line) :
  asset_line (VDict fields) = Ok l →
  ∃ a prefix, dict_get fields (lit "asset_id") = Some a ∧ slice_to 20 a = Ok prefix
              ∧ l = [T "Asset ID: "; Val prefix; T "..."].
Proof.
  unfold asset_line. rewrite subscript_dict.
  destruct (dict_get fields (lit "asset_id")) as [a|]; [|discriminate].
  rewrite Ok_bind. destruct (slice_to 20 a) as [prefix|] eqn:E; [|discriminate].
  intros [= <-]. eauto.
Qed.

Lemma format_s_inv (w : nat) (v : value) (s : str) :
  format_s w v = Ok s → ∃ t, v = VStr t ∧ s = rjust w t.
Proof. destruct v; try discriminate. intros [= <-]. eauto. Qed.

Lemma side_line_inv (fields : list (str * value)) (l : line) :
  side_line (VDict fields) = Ok l →
  ∃ side price size,
    dict_get fields (lit "side") = Some (VStr side)
    ∧ dict_get fields (lit "price") = Some (VStr price)
    ∧ dict_get fields (lit "size") = Some size.
Proof.
  unfold side_line. rewrite !subscript_dict.
  destruct (dict_get fields (lit "side")) as [side|]; [|discriminate].
  rewrite Ok_bind. destruct (format_s 4 side) as [s1|] eqn:E1; [|discriminate].
  apply format_s_inv in E1. destruct E1 as (t1 & -> & _).
  rewrite Ok_bind.
  destruct (dict_get fields (lit "price")) as [price|]; [|discriminate].
  rewrite Ok_bind. destruct (format_s 6 price) as [s2|] eqn:E2; [|discriminate].
  apply format_s_inv in E2. destruct E2 as (t2 & -> & _).
  rewrite Ok_bind.
  destruct (dict_get fields (lit "size")) as [size|]; [|discriminate].
  intros _. exists t1, t2, size. repeat split; reflexivity.
Qed.

Lemma fee_line_inv (fields : list (str * value)) (l : line) :
  fee_line (VDict fields) = Ok l →
  ∃ fee f, dict_get fields (lit "fee_rate_bps") = Some fee ∧ py_float fee = Ok f.
Proof.
  unfold fee_line. rewrite subscript_dict.
  destruct (dict_get fields (lit "fee_rate_bps")) as [fee|]; [|discriminate].
  rewrite Ok_bind. destruct (py_float fee) as [f|] eqn:E; [|discriminate].
  intros _. exists fee, f. split; [reflexivity|exact E].
Qed.

Lemma fee_line_ok (fields : list (str * value)) (fee : value) (f : float) :
  dict_get fields (lit "fee_rate_bps") = Some fee → py_float fee = Ok f →
  fee_line (VDict fields)
  = Ok [T "Fee Rate: "; Val fee; T " bps ("; Val (VFloat (fdiv_raw f f100)); T "%)"].
Proof.
  intros H1 H2. unfold fee_line. rewrite subscript_dict, H1, Ok_bind, H2. reflexivity.
Qed.

Lemma trade_parts_spec (line : str) (x : float) (s : str) :
  trade_parts line = Ok (x, s) ↔
  ∃ fields, json_loads line = Ok (VDict fields) ∧ trade_fields_ok fields x s.
Proof.
  unfold trade_parts. split.
  - destruct (json_loads line) as [trade|]; [|discriminate]. rewrite Ok_bind.
    destruct (subscript trade (lit "timestamp")) as [ts|] eqn:Ets; [|discriminate].
    apply subscript_ok_inv in Ets. destruct Ets as (fields & -> & Hts).
    rewrite Ok_bind.
    destruct (asset_line (VDict fields)) as [l1|] eqn:E1; [|discriminate].
    apply asset_line_inv in E1. destruct E1 as (a & prefix & Ha & Hp & _).
    rewrite Ok_bind.
    destruct (side_line (VDict fields)) as [l2|] eqn:E2; [|discriminate].
    apply side_line_inv in E2. destruct E2 as (side & price & size & Hs & Hpr & Hsz).
    rewrite Ok_bind.
    destruct (fee_line (VDict fields)) as [l3|] eqn:E3; [|discriminate].
    apply fee_line_inv in E3. destruct E3 as (fee & f & Hfee & Hf).
    rewrite Ok_bind. unfold notional_of, side_key.
    rewrite !subscript_dict, Hpr, Hsz, Hs, !Ok_bind. cbn [py_float].
    destruct (float_of_str price) as [p|] eqn:Ep; [|discriminate].
    rewrite !Ok_bind.
    destruct (py_float size) as [sz|] eqn:Esz; [|discriminate].
    rewrite !Ok_bind. intros [= <- <-].
    exists fields. split; [reflexivity|].
    exists ts, a, prefix, price, size, fee, p, sz, f. repeat split; assumption.
  - intros (fields & -> & ts & a & prefix & price & size & fee & p & sz & f
            & Hts & Ha & Hp & Hs & Hpr & Ep & Hsz & Esz & Hfee & Hf & ->).
    rewrite Ok_bind, subscript_dict, Hts, Ok_bind.
    unfold asset_line. rewrite subscript_dict, Ha, Ok_bind, Hp, !Ok_bind.
    unfold side_line. rewrite !subscript_dict, Hs, Hpr, Hsz, !Ok_bind.
    cbn [format_s]. rewrite !Ok_bind.
    rewrite (fee_line_ok _ _ _ Hfee Hf), Ok_bind.
    unfold notional_of, side_key.
    rewrite !subscript_dict, Hpr, Hsz, Hs, !Ok_bind. cbn [py_float].
    rewrite Ep, !Ok_bind, Esz. reflexivity.
Qed.

(** ** The statistics reporter *)

Lemma touches_only_app (paths : list str) (t1 t2 : list event) :
  touches_only paths t1 → touches_only paths t2 → touches_only paths (t1 ++ t2).
Proof. intros H1 H2. apply Forall_app. split; assumption. Qed.

Lemma touches_only_mono (paths paths' : list str) (t : list event) :
  paths ⊆ paths' → touches_only paths t → touches_only paths' t.
Proof.
  intros Hsub Ht. eapply Forall_impl; [exact Ht|].
  intros [] H; try exact H; apply Hsub, H.
Qed.

Lemma dataset_statistics_touches (fs : filesystem) (data_dir name filename : str) :
  touches_only [path_join data_dir filename]
    (dataset_statistics fs data_dir (name, filename)).1.
Proof.
  unfold dataset_statistics. set (p := path_join data_dir filename).
  assert (Hp : p ∈ [p]) by (apply list_elem_of_here).
  destruct (fs !! p) as [[text size|size]|] eqn:E.
  - rewrite (path_exists_some _ _ _ _ E).
    rewrite (with_open_file _ _ _ _ _ E). cbn [mret M_ret fst snd app].
    rewrite M_bind_ok. unfold getsize. rewrite E, M_bind_ok.
    destruct (int_truediv size (1024 * 1024)) as [x|e].
    + rewrite lift_ok_bind, !print_bind. repeat constructor; assumption.
    + rewrite lift_raise_bind. repeat constructor; assumption.
  - rewrite (path_exists_some _ _ _ _ E). unfold with_open. rewrite E.
    repeat constructor; assumption.
  - rewrite (path_exists_none _ _ _ E). repeat constructor; assumption.
Qed.

Lemma for_each_touches {A} (paths : list str) (body : A → M unit) (l : list A) :
  (∀ x, x ∈ l → touches_only paths (body x).1) →
  touches_only paths (for_each body l).1.
Proof.
  induction l as [|x l IH]; intros H; [constructor|].
  cbn [for_each]. rewrite fst_bind. apply touches_only_app.
  - apply H. apply list_elem_of_here.
  - destruct (body x).2; [|constructor].
    apply IH. intros y Hy. apply H. apply list_elem_of_further, Hy.
Qed.

(** ** Counting lines *)

Lemma readlines_length (s : str) :
  ∀ cur, Forall (λ c, c ≠ 13%N) s →
    length (readlines s cur)
    = (terminators s
       + match last s with
         | Some c => if (c =? 10)%N then 0 else 1
         | None => match cur with [] => 0 | _ => 1 end
         end)%nat.
Proof.
  induction s as [|c s IH]; intros cur Hcr.
  - destruct cur; reflexivity.
  - apply Forall_cons in Hcr. destruct Hcr as [Hc Hs].
    cbn [readlines]. unfold terminators. cbn [List.filter].
    destruct (c =? 10)%N eqn:E10.
    + cbn [length]. rewrite (IH [] Hs). fold (terminators s).
      destruct s as [|c' s]; [simpl; rewrite E10; reflexivity|].
      rewrite last_cons_cons.
      destruct (last (c' :: s)) eqn:El; [lia|].
      apply last_None in El. discriminate.
    + replace (c =? 13)%N with false by (symmetry; apply N.eqb_neq; exact Hc).
      rewrite (IH (c :: cur) Hs). fold (terminators s).
      destruct s as [|c' s]; [simpl; rewrite E10; reflexivity|].
      rewrite last_cons_cons.
      destruct (last (c' :: s)) eqn:El; [lia|].
      apply last_None in El. discriminate.
Qed.

(** ** Statements in sequence *)

Lemma seq_ok {B} (m : M unit) (k : M B) :
  m.2 = Ok tt → (m ;; k) = (m.1 ++ k.1, k.2).
Proof.
  intros H. rewrite (M_eta m) at 1. rewrite H, M_bind_ok. reflexivity.
Qed.

Lemma seq_raise {B} (m : M unit) (k : M B) (e : exn) :
  m.2 = Raise e → (m ;; k) = (m.1, Raise e).
Proof. intros H. rewrite (M_eta m) at 1. rewrite H. reflexivity. Qed.

(** ** Decimal text of an integer, read back *)

Lemma digit_not_space (c : char) : is_digit c = true → is_ascii_space c = false.
Proof.
  unfold is_digit, is_ascii_space. intros H.
  apply andb_true_iff in H. destruct H as [H1 H2].
  apply N.leb_le in H1, H2.
  apply orb_false_iff; split;
    first [ apply andb_false_iff; rewrite !N.leb_gt; lia | apply N.eqb_neq; lia ].
Qed.

Lemma digit_is_ascii (c : char) : is_digit c = true → (c <? 127)%N = true.
Proof.
  unfold is_digit. intros H. apply andb_true_iff in H. destruct H as [_ H].
  apply N.leb_le in H. apply N.ltb_lt. lia.
Qed.

Lemma ascii_numeric_id (s : str) :
  Forall (λ c, (c <? 127)%N = true) s → ascii_numeric s = s.
Proof.
  induction 1 as [|c s Hc _ IH]; [reflexivity|].
  cbn [ascii_numeric]. rewrite Hc, IH. reflexivity.
Qed.

Lemma digit_not_underscore (c : char) : is_digit c = true → (c =? chr "_")%N = false.
Proof.
  unfold is_digit. intros H. apply andb_true_iff in H. destruct H as [H1 H2].
  apply N.leb_le in H1, H2. apply N.eqb_neq. unfold chr. simpl. lia.
Qed.

Lemma lstrip_id (c : char) (s : str) :
  is_ascii_space c = false → lstrip (c :: s) = c :: s.
Proof. intros H. unfold lstrip. simpl. rewrite H. reflexivity. Qed.

Lemma rstrip_id (s : str) (c : char) :
  last s = Some c → is_ascii_space c = false → rstrip s = s.
Proof.
  intros Hl Hc. apply last_Some in Hl. destruct Hl as [l ->].
  unfold rstrip. rewrite rev_app_distr. simpl rev at 2. simpl app.
  rewrite lstrip_id by exact Hc.
  change (c :: rev l) with ([c] ++ rev l). rewrite rev_app_distr, rev_involutive.
  reflexivity.
Qed.

Lemma strip_underscores_id (s : str) :
  ∀ prev, (prev =? chr "_")%N = false →
    Forall (λ c, (c =? chr "_")%N = false) s →
    strip_underscores prev s = Some s.
Proof.
  induction s as [|c s IH]; intros prev Hprev Hall.
  - cbn [strip_underscores]. rewrite Hprev. reflexivity.
  - apply Forall_cons in Hall. destruct Hall as [Hc Hs].
    cbn [strip_underscores]. rewrite Hc, Hprev. cbn [andb].
    rewrite (IH c Hc Hs). reflexivity.
Qed.

Lemma span_digits_all (s : str) : all_digits s → span_digits s = (s, []).
Proof.
  unfold span_digits. induction 1 as [|c s Hc _ IH]; [reflexivity|].
  simpl. rewrite Hc. injection IH as -> ->. reflexivity.
Qed.

Lemma all_digits_last (s : str) :
  all_digits s → s ≠ [] → ∃ c, last s = Some c ∧ is_digit c = true.
Proof.
  intros Hall Hne. destruct (last s) as [c|] eqn:E.
  - exists c. split; [reflexivity|].
    apply last_Some in E. destruct E as [l ->].
    apply Forall_app in Hall. destruct Hall as [_ Hc].
    apply Forall_cons in Hc. apply Hc.
  - apply last_None in E. contradiction.
Qed.

Lemma int_of_digits (neg : bool) (ds : str) :
  all_digits ds → ds ≠ [] →
  int_of_str ((if neg then [chr "-"] else []) ++ ds)
  = Ok (if neg then - digits_value ds else digits_value ds).
Proof.
  intros Hall Hne.
  destruct (all_digits_last ds Hall Hne) as (z & Hlast & Hz).
  destruct ds as [|d ds']; [contradiction|].
  pose proof Hall as Hd. apply Forall_cons in Hd. destruct Hd as [Hd _].
  assert (Hunder : Forall (λ c, (c =? chr "_")%N = false) (d :: ds')).
  { eapply Forall_impl; [exact Hall|]. intros c. apply digit_not_underscore. }
  assert (Hascii : Forall (λ c, (c <? 127)%N = true) (d :: ds')).
  { eapply Forall_impl; [exact Hall|]. intros c. apply digit_is_ascii. }
  unfold int_of_str, strip. destruct neg; cbn [app].
  - rewrite ascii_numeric_id by (constructor; [reflexivity|exact Hascii]).
    rewrite lstrip_id by reflexivity.
    rewrite (rstrip_id _ z) by
      (first [ rewrite last_cons_cons; exact Hlast | apply digit_not_space, Hz ]).
    rewrite strip_underscores_id;
      [| reflexivity | constructor; [reflexivity|exact Hunder] ].
    cbn [split_sign]. change (chr "-" =? chr "-")%N with true. cbv iota.
    rewrite span_digits_all by exact Hall. reflexivity.
  - rewrite ascii_numeric_id by exact Hascii.
    rewrite lstrip_id by (apply digit_not_space, Hd).
    rewrite (rstrip_id _ z) by
      (first [ exact Hlast | apply digit_not_space, Hz ]).
    rewrite strip_underscores_id; [| reflexivity | exact Hunder ].
    assert (Hsign : split_sign (d :: ds') = (false, d :: ds')).
    { unfold split_sign. unfold is_digit in Hd.
      apply andb_true_iff in Hd. destruct Hd as [H1 H2]. apply N.leb_le in H1, H2.
      replace (d =? chr "-")%N with false
        by (symmetry; apply N.eqb_neq; unfold chr; simpl; lia).
      replace (d =? chr "+")%N with false
        by (symmetry; apply N.eqb_neq; unfold chr; simpl; lia).
      reflexivity. }
    rewrite Hsign. rewrite span_digits_all by exact Hall. reflexivity.
Qed.

Lemma int_of_str_of_int (n : Z) : int_of_str (str_of_int n) = Ok n.
Proof.
  unfold str_of_int. destruct (n <? 0) eqn:E.
  - apply Z.ltb_lt in E.
    destruct (str_of_nonneg_value (- n)) as (Hall & Hne & Hv); [lia|].
    pose proof (int_of_digits true _ Hall Hne) as H. cbn [app] in H.
    rewrite H, Hv. f_equal. lia.
  - apply Z.ltb_ge in E.
    destruct (str_of_nonneg_value n E) as (Hall & Hne & Hv).
    pose proof (int_of_digits false _ Hall Hne) as H. cbn [app] in H.
    rewrite H, Hv. reflexivity.
Qed.

(** ** Counts by label *)

Lemma bump_lookup_exact (side s : str) (m : gmap str Z) :
  bump side m !! s
  = if bool_decide (side = s) then Some (default 0 (m !! s) + 1) else m !! s.
Proof.
  unfold bump. case_bool_decide as E.
  - subst. rewrite lookup_insert_eq. reflexivity.
  - rewrite lookup_insert_ne by assumption. reflexivity.
Qed.

Lemma record_all_lookup (parts : list (float * str)) (s : str) :
  ∀ st,
    side_counts (record_all parts st) !! s
    = match length (filter (λ x, x = s) parts.*2) with
      | O => side_counts st !! s
      | S k => Some (default 0 (side_counts st !! s) + Z.of_nat (S k))
      end.
Proof.
  induction parts as [|p parts IH]; intros st; [reflexivity|].
  unfold record_all in *. cbn [fold_left]. rewrite IH. cbn [side_counts record_trade].
  rewrite bump_lookup_exact, fmap_cons, filter_cons.
  case_bool_decide as E; case_decide as E'; try contradiction.
  - cbn [length default].
    destruct (length (filter (λ x, x = s) parts.*2)); f_equal; unfold id; lia.
  - reflexivity.
Qed.

(** ** The trace of a pass, record by record *)

Section CountLoop.
Variable limit : option Z.
Variable body : Z → str → M Z.
Variable loop : list str → Z → M Z.

Hypothesis loop_nil : ∀ n, loop [] n = mret n.
Hypothesis loop_cons : ∀ line rest n,
  loop (line :: rest) n =
  if limit_reached limit n then mret n
  else n' ← body n line; loop rest n'.
Hypothesis body_count : ∀ n line n', (body n line).2 = Ok n' → n' = n + 1.

Lemma count_loop_trace (lines : list str) :
  ∀ n n', (loop lines n).2 = Ok n' →
    (loop lines n).1
    = concat (imap (λ i line, (body (n + Z.of_nat i) line).1)
                (processed limit n lines)).
Proof.
  induction lines as [|line rest IH]; intros n n'.
  - rewrite loop_nil, processed_nil. reflexivity.
  - rewrite loop_cons. destruct (limit_reached limit n) eqn:E.
    + rewrite processed_reached by assumption. reflexivity.
    + rewrite processed_cons by assumption.
      rewrite snd_bind, fst_bind.
      destruct (body n line).2 as [n1|e] eqn:E1; [|discriminate].
      rewrite Ok_bind. intros H. rewrite (body_count _ _ _ E1) in H |- *.
      rewrite (IH _ _ H). cbn [imap concat]. rewrite Z.add_0_r. f_equal. f_equal.
      apply imap_ext. intros i x _. simpl. f_equal. f_equal. lia.
Qed.
End CountLoop.

Lemma snapshot_step_fst (utcoffset : Z → Z) (n : Z) (line : str) :
  (snapshot_step utcoffset n line).1 = (snapshot_body utcoffset n line).1.
Proof.
  unfold snapshot_step. rewrite fst_bind.
  destruct (snapshot_body utcoffset n line).2; apply app_nil_r.
Qed.

Lemma tick_step_fst (utcoffset : Z → Z) (n : Z) (line : str) :
  (tick_step utcoffset n line).1 = (tick_body utcoffset n line).1.
Proof.
  unfold tick_step. rewrite fst_bind.
  destruct (tick_body utcoffset n line).2; apply app_nil_r.
Qed.

Lemma trades_loop_trace (utcoffset : Z → Z) (limit : option Z) (lines : list str) :
  ∀ st parts,
    Forall2 (λ line p, trade_parts line = Ok p)
            (processed limit (count st) lines) parts →
    (trades_loop utcoffset limit lines st).1
    = concat (imap (λ i line,
                      (trade_body utcoffset (record_all (take i parts) st) line).1)
                (processed limit (count st) lines)).
Proof.
  induction lines as [|line rest IH]; intros st parts Hall.
  - rewrite processed_nil. reflexivity.
  - cbn [trades_loop]. destruct (limit_reached limit (count st)) eqn:E.
    + rewrite processed_reached by assumption. reflexivity.
    + rewrite processed_cons in Hall |- * by assumption.
      apply Forall2_cons_inv_l in Hall.
      destruct Hall as (p & parts' & Hp & Hrest & ->).
      rewrite fst_bind.
      assert (Hbody : (trade_body utcoffset st line).2 = Ok (record_trade st p.1 p.2)).
      { rewrite trade_body_result, Hp. reflexivity. }
      rewrite Hbody.
      rewrite (IH (record_trade st p.1 p.2) parts') by exact Hrest.
      cbn [imap concat take]. reflexivity.
Qed.

(** * The properties of the script *)

(** ** Record limit *)

Lemma trade_parts_valid (utcoffset : Z → Z) (line : str) (p : float * str) :
  trade_parts line = Ok p →
  ∀ st, ∃ st', (trade_body utcoffset st line).2 = Ok st'.
Proof.
  intros H st. rewrite trade_body_result, H. eexists. reflexivity.
Qed.

Ltac evaluate_lines :=
  match goal with
  | |- Forall _ ?l =>
      let l' := eval vm_compute in l in
      let E := fresh "E" in
      assert (E : l = l') by (vm_compute; reflexivity); rewrite E; clear E
  end.

(** C1 (amended).  Each reader under its own conditions.  With a limit
    [N >= 1], the snapshot reader called on a file of at least [N] lines
    whose first [N] lines are records that it displays, displays exactly
    [N] records (the summary shows the count [N]) and decodes the first [N]
    lines of the file and no line after them; and so does the trade reader
    on its file.  Each reader counts from zero on the file it is given, so
    the limit holds for each dataset on its own, whatever the other files
    hold.  [read_tick_size_changes] takes no limit: it decodes and displays
    every line of its file. *)
Theorem limit_caps_displayed_records
    (utcoffset : Z → Z) (fs : filesystem) (N : Z) :
  (∀ path text size,
     fs !! path = Some (File text size) →
     1 <= N →
     N <= Z.of_nat (length (readlines text [])) →
     Forall (λ line, ∀ n, (snapshot_body utcoffset n line).2 = Ok tt)
            (take (Z.to_nat N) (readlines text [])) →
     ∃ t, read_orderbook_snapshots utcoffset fs path (Some N)
          = (t ++ [EPrint [Lit (newline :: lit "Total snapshots: "); Val (VInt N)]],
             Ok tt)
        ∧ decoded t = take (Z.to_nat N) (readlines text []))
  ∧ (∀ path text size,
       fs !! path = Some (File text size) →
       1 <= N →
       N <= Z.of_nat (length (readlines text [])) →
       Forall (λ line, ∀ st, ∃ st', (trade_body utcoffset st line).2 = Ok st')
              (take (Z.to_nat N) (readlines text [])) →
       ∃ t st, read_trades utcoffset fs path (Some N)
               = (t ++ (trades_report st).1, Ok tt)
          ∧ count st = N
          ∧ decoded t = take (Z.to_nat N) (readlines text []))
  ∧ (∀ path text size,
       fs !! path = Some (File text size) →
       Forall (λ line, ∀ n, (tick_body utcoffset n line).2 = Ok tt)
              (readlines text []) →
       ∃ t, read_tick_size_changes utcoffset fs path
            = (t ++ [EPrint [Lit (newline :: lit "Total tick size changes: ");
                             Val (VInt (Z.of_nat (length (readlines text []))))]],
               Ok tt)
          ∧ decoded t = readlines text []).
Proof.
  split; [|split].
  - intros path text_s size_s Hs HN HMs Vs.
    rewrite (read_orderbook_snapshots_file _ _ _ _ _ _ Hs). cbv zeta.
    destruct (snapshots_pass utcoffset (Some N) (readlines text_s []) 0) as [H1 H2].
    { rewrite processed_limit, Z.sub_0_r by lia. exact Vs. }
    rewrite processed_limit, Z.sub_0_r in H1, H2 by lia.
    rewrite H1. rewrite length_take, Nat.min_l by lia. rewrite Z2Nat.id by lia.
    eexists. split.
    + rewrite Z.add_0_l, !app_assoc. reflexivity.
    + rewrite decoded_app, !decoded_app. simpl. rewrite H2, app_nil_r. reflexivity.
  - intros path text_t size_t Ht HN HMt Vt.
    rewrite (read_trades_file _ _ _ _ _ _ Ht). cbv zeta.
    destruct (trades_pass utcoffset (Some N) (readlines text_t []) initial_aggregate)
      as (st & H1 & H2 & H3).
    { simpl count. rewrite processed_limit, Z.sub_0_r by lia. exact Vt. }
    simpl count in H2, H3. rewrite processed_limit, Z.sub_0_r in H2, H3 by lia.
    rewrite H1. rewrite length_take, Nat.min_l in H2 by lia.
    eexists. exists st. split; [|split].
    + rewrite !app_assoc. reflexivity.
    + lia.
    + rewrite !decoded_app. simpl. rewrite H3, app_nil_r. reflexivity.
  - intros path text_c size_c Hc Vc.
    rewrite (read_tick_size_changes_file _ _ _ _ _ Hc). cbv zeta.
    destruct (ticks_pass utcoffset (readlines text_c []) 0 Vc) as [H1 H2].
    rewrite H1. eexists. split.
    + rewrite Z.add_0_l, !app_assoc. reflexivity.
    + rewrite !decoded_app. simpl. rewrite H2, app_nil_r. reflexivity.
Qed.

(** The theorem at the limit 1 on the example directory, two records in
    each file; and on a directory that holds the snapshot file only, where
    the snapshot reader stops after one record all the same. *)
Lemma limit_caps_displayed_records_witness :
  let text_s := snapshot_line ++ snapshot_line in
  let text_t := buy_line ++ sell_line in
  let text_c := change_line ++ change_line in
  (∃ t, read_orderbook_snapshots utc example_fs snapshots_json (Some 1)
        = (t ++ [EPrint [Lit (newline :: lit "Total snapshots: "); Val (VInt 1)]],
           Ok tt)
      ∧ decoded t = take (Z.to_nat 1) (readlines text_s []))
  ∧ (∃ t st, read_trades utc example_fs trades_json (Some 1)
             = (t ++ (trades_report st).1, Ok tt)
      ∧ count st = 1
      ∧ decoded t = take (Z.to_nat 1) (readlines text_t []))
  ∧ (∃ t, read_tick_size_changes utc example_fs changes_json
          = (t ++ [EPrint [Lit (newline :: lit "Total tick size changes: ");
                           Val (VInt (Z.of_nat (length (readlines text_c []))))]],
             Ok tt)
      ∧ decoded t = readlines text_c [])
  ∧ (∃ t, read_orderbook_snapshots utc snapshots_only_fs snapshots_json (Some 1)
          = (t ++ [EPrint [Lit (newline :: lit "Total snapshots: "); Val (VInt 1)]],
             Ok tt)
        ∧ decoded t = take (Z.to_nat 1) (readlines text_s [])).
Proof.
  intros text_s text_t text_c.
  destruct (limit_caps_displayed_records utc example_fs 1) as (Hs & Ht & Hc).
  destruct (limit_caps_displayed_records utc snapshots_only_fs 1) as (Hs' & _ & _).
  split; [|split; [|split]].
  - apply (Hs snapshots_json text_s (Z.of_nat (length text_s)));
      [reflexivity | lia | vm_compute; discriminate |].
    evaluate_lines.
    repeat (apply Forall_cons; split; [intros n; vm_compute; reflexivity|]).
    constructor.
  - apply (Ht trades_json text_t (Z.of_nat (length text_t)));
      [reflexivity | lia | vm_compute; discriminate |].
    evaluate_lines.
    repeat (apply Forall_cons; split;
            [eapply trade_parts_valid; vm_compute; reflexivity|]).
    constructor.
  - apply (Hc changes_json text_c (Z.of_nat (length text_c))); [reflexivity|].
    evaluate_lines.
    repeat (apply Forall_cons; split; [intros n; vm_compute; reflexivity|]).
    constructor.
  - apply (Hs' snapshots_json text_s (Z.of_nat (length text_s)));
      [reflexivity | lia | vm_compute; discriminate |].
    evaluate_lines.
    repeat (apply Forall_cons; split; [intros n; vm_compute; reflexivity|]).
    constructor.
Defined.

(** C1 as stated fails: a limit of 0 on a trades file of two records
    displays both of them, and with the limit 1 the tick-size changes are
    still displayed in full. *)
Lemma limit_is_not_always_a_cap :
  (let run := read_trades utc example_fs trades_json (Some 0) in
   run.2 = Ok tt
   ∧ decoded run.1 = [buy_line; sell_line]
   ∧ find_count (lit "Total trades: ") (printed run.1) = Some 2)
  ∧ (let run := main utc example_fs (tick_only (Some 1)) in
     run.2 = Ok tt
     ∧ decoded run.1 = [change_line; change_line]
     ∧ last (printed run.1)
       = Some [Lit (newline :: lit "Total tick size changes: "); Val (VInt 2)]).
Proof. vm_compute. repeat split; reflexivity. Qed.

(** ** Truncation of the asset identifier *)

(** C2 (amended).  An asset identifier that is a string is rendered, by the
    snapshot, trade and tick-change formatters alike, as its first 20
    characters followed by the ellipsis marker; an identifier of 20
    characters or fewer is rendered whole, and it too is followed by the
    ellipsis marker.  The line comes third in the output of each of the
    three formatters, after the record number and the time. *)
Theorem asset_id_rendering (record : value) (s : str) :
  subscript record (lit "asset_id") = Ok (VStr s) →
  ∃ l, asset_line record = Ok l
    ∧ line_text l = Some (lit "Asset ID: " ++ take 20 s ++ lit "...")
    ∧ ((length s ≤ 20)%nat → line_text l = Some (lit "Asset ID: " ++ s ++ lit "..."))
    ∧ ∀ utcoffset line tl,
        json_loads line = Ok record →
        time_line utcoffset record = Ok tl →
        (∀ n, ∃ rest, (snapshot_body utcoffset n line).1 =
           [EDecode line; EPrint [Lit (newline :: lit "Snapshot #"); Val (VInt (n + 1))];
            EPrint tl; EPrint l] ++ rest)
        ∧ (∀ st, ∃ rest, (trade_body utcoffset st line).1 =
           [EDecode line; EPrint [Lit (newline :: lit "Trade #"); Val (VInt (count st + 1))];
            EPrint tl; EPrint l] ++ rest)
        ∧ (∀ n, ∃ rest, (tick_body utcoffset n line).1 =
           [EDecode line; EPrint [Lit (newline :: lit "Change #"); Val (VInt (n + 1))];
            EPrint tl; EPrint l] ++ rest).
Proof.
  intros Hid. unfold asset_line. rewrite Hid. simpl.
  eexists. split; [reflexivity|]. split; [|split].
  - reflexivity.
  - intros Hlen. rewrite take_ge by lia. reflexivity.
  - intros utcoffset line tl Hline Htl.
    split; [|split]; intros n.
    + unfold snapshot_body. rewrite loads_bind, Hline. rewrite print_bind.
      rewrite Htl. rewrite lift_ok_bind, print_bind.
      unfold asset_line. rewrite Hid, !Ok_bind. simpl slice_to. rewrite Ok_bind.
      unfold mret, result_ret.
      rewrite lift_ok_bind, print_bind. simpl. eauto.
    + unfold trade_body. rewrite loads_bind, Hline. rewrite print_bind.
      rewrite Htl, lift_ok_bind, print_bind.
      unfold asset_line. rewrite Hid, !Ok_bind. simpl slice_to. rewrite Ok_bind.
      unfold mret, result_ret.
      rewrite lift_ok_bind, print_bind. simpl. eauto.
    + unfold tick_body. rewrite loads_bind, Hline. rewrite print_bind.
      rewrite Htl, lift_ok_bind, print_bind.
      unfold asset_line. rewrite Hid, !Ok_bind. simpl slice_to. rewrite Ok_bind.
      unfold mret, result_ret.
      rewrite lift_ok_bind, print_bind. simpl. eauto.
Qed.

(** The theorem at an identifier of 25 characters. *)
Lemma asset_id_rendering_witness :
  let record := VDict [(lit "asset_id", VStr (lit "0123456789012345678901234"))] in
  subscript record (lit "asset_id") = Ok (VStr (lit "0123456789012345678901234"))
  ∧ ∃ l, asset_line record = Ok l
      ∧ line_text l = Some (lit "Asset ID: "
                            ++ take 20 (lit "0123456789012345678901234") ++ lit "...").
Proof.
  intros record.
  assert (H : subscript record (lit "asset_id")
              = Ok (VStr (lit "0123456789012345678901234"))) by reflexivity.
  split; [exact H|].
  destruct (asset_id_rendering record _ H) as (l & H1 & H2 & _).
  exists l. split; assumption.
Defined.

(** C2 as stated fails: the identifier [abc], shorter than 20 characters,
    is not rendered unchanged but followed by the ellipsis marker. *)
Lemma short_identifier_gets_ellipsis :
  let record := VDict [(lit "asset_id", VStr (lit "abc"))] in
  (length (lit "abc") ≤ 20)%nat
  ∧ (l ← asset_line record; mret (line_text l)) = Ok (Some (lit "Asset ID: abc..."))
  ∧ (l ← asset_line record; mret (line_text l)) ≠ Ok (Some (lit "Asset ID: abc")).
Proof.
  split; [vm_compute; lia|]. split; [reflexivity|]. vm_compute. discriminate.
Qed.

(** ** Timestamps *)

(** C3 (amended).  [format_timestamp] never raises, and its result is one
    of two: when [int] accepts the input and [datetime.fromtimestamp]
    converts the value divided by 1000.0, the result is the local calendar
    time as [strftime] writes it, year, month, day, hour, minute and
    second - nineteen characters of the form [YYYY-MM-DD HH:MM:SS] when
    the year has four digits, that is from the year 1000 on; in every
    other case - the input is not an integer, or the conversion fails, for
    instance because the time is out of range - the result is the input
    itself. *)
Theorem format_timestamp_spec (utcoffset : Z → Z) (ts_str : value) :
  (∃ n x ts dt,
      py_int ts_str = Ok n ∧ float_of_int n = Ok x ∧ fdiv x f1000 = Ok ts
      ∧ fromtimestamp utcoffset ts = Ok dt
      ∧ format_timestamp utcoffset ts_str = VStr (strftime dt)
      ∧ in_calendar_range dt
      ∧ (1000 <= year dt → is_calendar_string (strftime dt) = true))
  ∨ ((∃ e, (n ← py_int ts_str; x ← float_of_int n; ts ← fdiv x f1000;
            fromtimestamp utcoffset ts) = Raise e)
     ∧ format_timestamp utcoffset ts_str = ts_str).
Proof.
  unfold format_timestamp.
  destruct (py_int ts_str) as [n|e] eqn:En; [|right; split; [eexists|]; reflexivity].
  rewrite !Ok_bind.
  destruct (float_of_int n) as [x|e] eqn:Ex; [|right; split; [eexists|]; reflexivity].
  rewrite !Ok_bind.
  destruct (fdiv x f1000) as [ts|e] eqn:Ets; [|right; split; [eexists|]; reflexivity].
  rewrite !Ok_bind.
  destruct (fromtimestamp utcoffset ts) as [dt|e] eqn:Edt; [|right; split; [eexists|]; reflexivity].
  left. exists n, x, ts, dt.
  pose proof (fromtimestamp_range _ _ _ Edt) as Hrange.
  repeat split; try reflexivity; try assumption; try apply Hrange.
  intros Hy. apply strftime_calendar; assumption.
Qed.

Example format_timestamp_epoch_ms :
  format_timestamp utc (VStr (lit "1700000000000")) = VStr (lit "2023-11-14 22:13:20").
Proof. vm_compute. reflexivity. Qed.

Example format_timestamp_not_a_number :
  format_timestamp utc (VStr (lit "yesterday")) = VStr (lit "yesterday").
Proof. vm_compute. reflexivity. Qed.

Example format_timestamp_null : format_timestamp utc VNone = VNone.
Proof. reflexivity. Qed.

Example format_timestamp_before_year_1000 :
  format_timestamp utc (VStr (lit "-50000000000000")) = VStr (lit "385-07-25 07:06:40").
Proof. vm_compute. reflexivity. Qed.

(** [int] and [float] read the decimal digits of every script and skip
    the white space of Unicode outside ASCII, but of the ASCII control
    characters they skip the C white space only: here the Arabic-Indic
    digits of 12 and of 1.5, a 5 between two no-break spaces, and a 5 after
    the information separator U+001C. *)
Example int_reads_digits_of_any_script :
  py_int (VStr [1633; 1634]%N) = Ok 12
  ∧ py_float (VStr [1633; 46; 1637]%N) = Ok (S754_finite false 6755399441055744 (-52))
  ∧ py_int (VStr [160; 53; 160]%N) = Ok 5.
Proof. vm_compute. repeat split; reflexivity. Qed.

Example int_keeps_information_separators :
  py_int (VStr [28; 53]%N) = Raise ValueError
  ∧ py_float (VStr [28; 53]%N) = Raise ValueError
  ∧ format_timestamp utc (VStr [28; 53]%N) = VStr [28; 53]%N.
Proof. vm_compute. repeat split; reflexivity. Qed.

(** C3 as stated fails: an input that parses as an integer but names a
    time beyond the year 9999 is returned unchanged, and is not a calendar
    string. *)
Lemma integer_out_of_range_is_echoed :
  py_int (VStr (lit "999999999999999999")) = Ok 999999999999999999
  ∧ format_timestamp utc (VStr (lit "999999999999999999"))
    = VStr (lit "999999999999999999")
  ∧ is_calendar_string (lit "999999999999999999") = false.
Proof. vm_compute. repeat split; reflexivity. Qed.

(** ** Total volume *)

(** C4 (amended).  After a pass over valid trades the total volume is the
    binary64 sum of the notionals [float(price) * float(size)], added to
    0.0 one by one in the order of the stream, and this is the value that
    the final report shows with two decimals.  For the example file of two
    lines (BUY 0.55 x 10, SELL 0.60 x 5) the report shows the total volume
    8.50, one buy and one sell. *)
Theorem total_volume_is_running_sum
    (utcoffset : Z → Z) (limit : option Z) (lines : list str)
    (parts : list (float * str)) :
  Forall2 (λ line p, trade_parts line = Ok p) (processed limit 0 lines) parts →
  (∃ t st,
      trades_loop utcoffset limit lines initial_aggregate = (t, Ok st)
      ∧ total_volume st = fold_left fadd parts.*1 fzero
      ∧ printed (trades_report st).1 !! 2%nat
        = Some [T "Total volume: $"; Lit (format_f false false 2 (total_volume st))])
  ∧ (let run := read_trades utc example_fs trades_json None in
     run.2 = Ok tt
     ∧ printed run.1 !! 17%nat = Some [T "Total volume: $"; Lit (lit "8.50")]
     ∧ printed run.1 !! 18%nat = Some [T "Buy trades: "; Val (VInt 1)]
     ∧ printed run.1 !! 19%nat = Some [T "Sell trades: "; Val (VInt 1)]).
Proof.
  intros Hall. split.
  - pose proof (trades_loop_ok utcoffset limit lines initial_aggregate parts Hall) as H.
    eexists. eexists. split; [|split].
    + rewrite (M_eta (trades_loop _ _ _ _)), H. reflexivity.
    + apply record_all_volume.
    + rewrite trades_report_lines. reflexivity.
  - vm_compute. repeat split; reflexivity.
Qed.

(** The theorem at the two lines of the example. *)
Lemma total_volume_is_running_sum_witness :
  Forall2 (λ line p, trade_parts line = Ok p)
          (processed None 0 [buy_line; sell_line])
          [(S754_finite false 6192449487634432 (-50), lit "BUY");
           (S754_finite false 6755399441055744 (-51), lit "SELL")]
  ∧ ∃ t st,
      trades_loop utc None [buy_line; sell_line] initial_aggregate = (t, Ok st)
      ∧ total_volume st
        = fold_left fadd [S754_finite false 6192449487634432 (-50);
                          S754_finite false 6755399441055744 (-51)] fzero.
Proof.
  assert (H : Forall2 (λ line p, trade_parts line = Ok p)
          (processed None 0 [buy_line; sell_line])
          [(S754_finite false 6192449487634432 (-50), lit "BUY");
           (S754_finite false 6755399441055744 (-51), lit "SELL")]).
  { repeat constructor. }
  split; [exact H|].
  destruct (total_volume_is_running_sum utc None [buy_line; sell_line] _ H)
    as [(t & st & H1 & H2 & _) _].
  exists t, st. split; assumption.
Defined.

(** C4 as stated fails: the sum depends on the order.  The notionals
    1e16, 1 and 1 add up to 10000000000000000.00 in this order, and to
    10000000000000002.00 when the large one comes last. *)
Lemma total_volume_depends_on_order :
  ∃ st1 st2,
    (trades_loop utc None [big_line; unit_line; unit_line] initial_aggregate).2 = Ok st1
    ∧ (trades_loop utc None [unit_line; unit_line; big_line] initial_aggregate).2 = Ok st2
    ∧ [big_line; unit_line; unit_line] ≡ₚ [unit_line; unit_line; big_line]
    ∧ total_volume st1 ≠ total_volume st2
    ∧ format_f false false 2 (total_volume st1) = lit "10000000000000000.00"
    ∧ format_f false false 2 (total_volume st2) = lit "10000000000000002.00".
Proof.
  eexists. eexists. split; [vm_compute; reflexivity|].
  split; [vm_compute; reflexivity|].
  split; [|split; [|split]].
  - change [big_line; unit_line; unit_line] with ([big_line] ++ [unit_line; unit_line]).
    change [unit_line; unit_line; big_line] with ([unit_line; unit_line] ++ [big_line]).
    apply Permutation_app_comm.
  - vm_compute. discriminate.
  - vm_compute. reflexivity.
  - vm_compute. reflexivity.
Qed.

(** ** The running aggregate *)

(** C5.  During a pass over a trades file with any side labels, take the
    running aggregate after [j] lines and after [k >= j] lines: the
    per-side counts of the later one add up to its record count, and the
    record count has not decreased from the earlier to the later. *)
Theorem side_counts_sum_to_count
    (utcoffset : Z → Z) (limit : option Z) (lines : list str) (j k : nat)
    (t_j t_k : list event) (st_j st_k : aggregate) :
  (j ≤ k)%nat →
  trades_loop utcoffset limit (take j lines) initial_aggregate = (t_j, Ok st_j) →
  trades_loop utcoffset limit (take k lines) initial_aggregate = (t_k, Ok st_k) →
  sum_counts (side_counts st_k) = count st_k ∧ count st_j <= count st_k.
Proof.
  intros Hjk Hj Hk.
  apply (f_equal snd) in Hj, Hk. simpl in Hj, Hk.
  apply trades_loop_inv in Hj, Hk.
  destruct Hj as (pj & Aj & ->). destruct Hk as (pk & Ak & ->).
  split.
  - apply record_all_sum. exact sum_counts_empty.
  - rewrite !record_all_count. apply Forall2_length in Aj, Ak.
    simpl count in Aj, Ak.
    pose proof (processed_take_length limit lines j k Hjk). lia.
Qed.

(** The theorem after one and after two lines of the example. *)
Lemma side_counts_sum_to_count_witness :
  ∃ t1 st1 t2 st2,
    trades_loop utc None (take 1 [buy_line; sell_line]) initial_aggregate = (t1, Ok st1)
    ∧ trades_loop utc None (take 2 [buy_line; sell_line]) initial_aggregate = (t2, Ok st2)
    ∧ sum_counts (side_counts st2) = count st2 ∧ count st1 <= count st2.
Proof.
  eexists. eexists. eexists. eexists.
  split; [vm_compute; reflexivity|]. split; [vm_compute; reflexivity|].
  eapply (side_counts_sum_to_count utc None [buy_line; sell_line] 1 2);
    [lia | vm_compute; reflexivity | vm_compute; reflexivity].
Defined.

(** ** Line by line decoding *)

(** C6 (amended).  Each of the three loops decodes the lines of the file
    one by one, in the order of the file and up to its limit, with one
    call of [json.loads] per line; a blank line is decoded like any other
    line and raises the decoding error, which ends the pass: the lines
    before it have been decoded, the lines after it are not. *)
Theorem every_line_is_decoded (utcoffset : Z → Z) (limit : option Z) :
  (∀ line, is_blank line = true → json_loads line = Raise JSONDecodeError)
  ∧ decodes_line_by_line limit (λ n, n)
      (snapshot_step utcoffset) (snapshots_loop utcoffset limit)
  ∧ decodes_line_by_line limit count
      (trade_body utcoffset) (trades_loop utcoffset limit)
  ∧ decodes_line_by_line None (λ n, n)
      (tick_step utcoffset) (ticks_loop utcoffset).
Proof.
  split; [exact blank_line_is_not_json|].
  split; [|split]; (split; [|split]).
  - apply (loop_decoded_prefix (λ n, n) limit (snapshot_step utcoffset));
      [reflexivity | apply snapshots_loop_cons | apply snapshot_step_trace].
  - apply (loop_ok_decoded (λ n, n) limit (snapshot_step utcoffset));
      [reflexivity | apply snapshots_loop_cons | apply snapshot_step_trace
      | apply snapshot_step_count].
  - intros good blank rest st Hb Hl Hg.
    apply (loop_raise (λ n, n) limit (snapshot_step utcoffset));
      [apply snapshots_loop_cons | apply snapshot_step_trace
      | apply snapshot_step_count | assumption | assumption
      | intros; apply snapshot_step_blank; assumption].
  - apply (loop_decoded_prefix count limit (trade_body utcoffset));
      [reflexivity | reflexivity | apply trade_body_trace].
  - apply (loop_ok_decoded count limit (trade_body utcoffset));
      [reflexivity | reflexivity | apply trade_body_trace | apply trade_body_count].
  - intros good blank rest st Hb Hl Hg.
    apply (loop_raise count limit (trade_body utcoffset));
      [reflexivity | apply trade_body_trace
      | apply trade_body_count | assumption | assumption
      | intros; apply trade_body_blank; assumption].
  - apply (loop_decoded_prefix (λ n, n) None (tick_step utcoffset));
      [reflexivity | apply ticks_loop_cons | apply tick_step_trace].
  - apply (loop_ok_decoded (λ n, n) None (tick_step utcoffset));
      [reflexivity | apply ticks_loop_cons | apply tick_step_trace
      | apply tick_step_count].
  - intros good blank rest st Hb Hl Hg.
    apply (loop_raise (λ n, n) None (tick_step utcoffset));
      [apply ticks_loop_cons | apply tick_step_trace
      | apply tick_step_count | assumption | assumption
      | intros; apply tick_step_blank; assumption].
Qed.

(** C6 as stated fails: with a blank line between two trades the reader
    raises the decoding error at the blank line, and the second trade is
    never decoded. *)
Lemma blank_line_stops_the_reader :
  let fs : filesystem :=
    {[ trades_json := file_of (buy_line ++ [newline] ++ sell_line) ]} in
  let run := read_trades utc fs trades_json None in
  is_blank [newline] = true
  ∧ run.2 = Raise JSONDecodeError
  ∧ decoded run.1 = [buy_line; [newline]].
Proof. vm_compute. repeat split; reflexivity. Qed.

(** ** Price movement *)


Example btc_line_up :
  (v ← json_loads snapshot_line; l ← btc_line v; mret (l ≫= line_text))
  = Ok (Some (lit "BTC 1H Candle: Open=$50,000.00 Current=$50,100.50 (+100.50 / +0.20%) "
              ++ movement_label UP)).
Proof. vm_compute. reflexivity. Qed.

Example btc_line_tie :
  (v ← json_loads (sample "{'btc_price_current': 50000.0, 'btc_price_hourly': 50000}");
   l ← btc_line v; mret (l ≫= line_text))
  = Ok (Some (lit "BTC 1H Candle: Open=$50,000.00 Current=$50,000.00 (+0.00 / +0.00%) "
              ++ movement_label UP)).
Proof. vm_compute. reflexivity. Qed.

Example btc_line_down :
  (v ← json_loads (sample "{'btc_price_current': 49000.0, 'btc_price_hourly_open': 50000.0, 'btc_price_hourly': 1}");
   l ← btc_line v; mret (l ≫= line_text))
  = Ok (Some (lit "BTC 1H Candle: Open=$50,000.00 Current=$49,000.00 (-1000.00 / -2.00%) "
              ++ movement_label DOWN)).
Proof. vm_compute. reflexivity. Qed.

Example btc_line_current_only :
  (v ← json_loads (sample "{'btc_price_current': 49000.5}");
   l ← btc_line v; mret (l ≫= line_text))
  = Ok (Some (lit "BTC Price: $49,000.50")).
Proof. vm_compute. reflexivity. Qed.

Example btc_line_integers_up :
  (v ← json_loads (sample "{'btc_price_current': 50100, 'btc_price_hourly_open': 50000}");
   l ← btc_line v; mret (l ≫= line_text))
  = Ok (Some (lit "BTC 1H Candle: Open=$50,000.00 Current=$50,100.00 (+100.00 / +0.20%) "
              ++ movement_label UP)).
Proof. vm_compute. reflexivity. Qed.

Example btc_line_integers_down :
  (v ← json_loads (sample "{'btc_price_current': 49000, 'btc_price_hourly': 50000}");
   l ← btc_line v; mret (l ≫= line_text))
  = Ok (Some (lit "BTC 1H Candle: Open=$50,000.00 Current=$49,000.00 (-1000.00 / -2.00%) "
              ++ movement_label DOWN)).
Proof. vm_compute. reflexivity. Qed.

Example btc_line_integer_current_only :
  (v ← json_loads (sample "{'btc_price_current': 49000}");
   l ← btc_line v; mret (l ≫= line_text))
  = Ok (Some (lit "BTC Price: $49,000.00")).
Proof. vm_compute. reflexivity. Qed.

Example btc_line_no_current :
  (v ← json_loads (sample "{'btc_price_current': 0, 'btc_price_hourly_open': 50000.0}");
   btc_line v) = Ok None.
Proof. vm_compute. reflexivity. Qed.

(** ** The final report on trades *)

(** C8 (amended).  After a pass over valid trades the final report is
    produced without failure.  When at least one trade was processed it
    shows the number of trades whose side is [BUY] and the number whose
    side is [SELL], which is 0 for a side that was never seen; when no
    trade was processed it shows neither of the two counts. *)
Theorem final_report_counts
    (utcoffset : Z → Z) (limit : option Z) (lines : list str)
    (parts : list (float * str)) :
  Forall2 (λ line p, trade_parts line = Ok p) (processed limit 0 lines) parts →
  ∃ t st,
    trades_loop utcoffset limit lines initial_aggregate = (t, Ok st)
    ∧ (trades_report st).2 = Ok tt
    ∧ (parts ≠ [] →
       find_count (lit "Buy trades: ") (printed (trades_report st).1)
       = Some (Z.of_nat (length (filter (λ s, s = lit "BUY") parts.*2)))
       ∧ find_count (lit "Sell trades: ") (printed (trades_report st).1)
         = Some (Z.of_nat (length (filter (λ s, s = lit "SELL") parts.*2))))
    ∧ (parts = [] →
       find_count (lit "Buy trades: ") (printed (trades_report st).1) = None
       ∧ find_count (lit "Sell trades: ") (printed (trades_report st).1) = None).
Proof.
  intros Hall.
  pose proof (trades_loop_ok utcoffset limit lines initial_aggregate parts Hall) as H.
  eexists. eexists. split; [|split; [|split]].
  - rewrite (M_eta (trades_loop _ _ _ _)), H. reflexivity.
  - apply trades_report_ok.
  - intros Hne. rewrite trades_report_lines.
    rewrite bool_decide_eq_false_2
      by (apply record_all_nonempty; left; exact Hne).
    pose proof (record_all_sides parts (lit "BUY") initial_aggregate) as Hb.
    pose proof (record_all_sides parts (lit "SELL") initial_aggregate) as Hs.
    simpl side_counts in Hb, Hs. rewrite lookup_empty in Hb, Hs.
    simpl default in Hb at 2. simpl default in Hs at 2.
    rewrite Z.add_0_l in Hb, Hs. rewrite <- Hb, <- Hs.
    split; reflexivity.
  - intros ->. rewrite trades_report_lines. split; reflexivity.
Qed.

(** The theorem at two buys and no sell. *)
Lemma final_report_counts_witness :
  Forall2 (λ line p, trade_parts line = Ok p)
          (processed None 0 [buy_line; buy_line])
          [(S754_finite false 6192449487634432 (-50), lit "BUY");
           (S754_finite false 6192449487634432 (-50), lit "BUY")]
  ∧ ∃ t st,
      trades_loop utc None [buy_line; buy_line] initial_aggregate = (t, Ok st)
      ∧ find_count (lit "Buy trades: ") (printed (trades_report st).1) = Some 2
      ∧ find_count (lit "Sell trades: ") (printed (trades_report st).1) = Some 0.
Proof.
  assert (H : Forall2 (λ line p, trade_parts line = Ok p)
          (processed None 0 [buy_line; buy_line])
          [(S754_finite false 6192449487634432 (-50), lit "BUY");
           (S754_finite false 6192449487634432 (-50), lit "BUY")]).
  { repeat constructor. }
  split; [exact H|].
  destruct (final_report_counts utc None [buy_line; buy_line] _ H)
    as (t & st & H1 & _ & H2 & _).
  exists t, st. split; [exact H1|]. apply H2. discriminate.
Defined.

(** C8 as stated fails: the report on an empty trades file shows no count
    for either side. *)
Lemma empty_stream_report_has_no_side_counts :
  let fs : filesystem := {[ trades_json := File [] 0 ]} in
  let run := read_trades utc fs trades_json None in
  run.2 = Ok tt
  ∧ printed run.1
    = [ [Lit (newline :: rule)]; [T "TRADES"]; [Lit rule];
        [Lit (newline :: rule)];
        [T "Total trades: "; Val (VInt 0)];
        [T "Total volume: $"; Lit (lit "0.00")] ]
  ∧ find_count (lit "Buy trades: ") (printed run.1) = None
  ∧ find_count (lit "Sell trades: ") (printed run.1) = None.
Proof. vm_compute. repeat split; reflexivity. Qed.

(** ** Dataset statistics *)

(** C9.  When each of the three dataset paths is a regular file or is
    missing, [get_statistics] reports the three datasets in their fixed
    order, each by its own path only: for a file, its number of lines and
    its size divided by 1024 * 1024, with two decimals; for a missing
    file, the notice that there is no data yet. *)
Theorem statistics_report (fs : filesystem) (data_dir : str) :
  let path := path_join data_dir in
  Forall (λ entry, file_or_missing (fs !! path entry.2)) files →
  get_statistics fs data_dir
  = ([ EPrint [Lit (newline :: rule)]; EPrint [T "DATA STATISTICS"];
       EPrint [Lit rule] ]
     ++ expected_statistics (lit "Orderbook Snapshots")
          (path (lit "orderbook_snapshots.json"))
          (fs !! path (lit "orderbook_snapshots.json"))
     ++ expected_statistics (lit "Trades")
          (path (lit "trades.json")) (fs !! path (lit "trades.json"))
     ++ expected_statistics (lit "Tick Size Changes")
          (path (lit "tick_size_changes.json"))
          (fs !! path (lit "tick_size_changes.json")),
     Ok tt).
Proof.
  intros path Hall. unfold files in Hall.
  apply Forall_cons in Hall. destruct Hall as [H1 Hall].
  apply Forall_cons in Hall. destruct Hall as [H2 Hall].
  apply Forall_cons in Hall. destruct Hall as [H3 _].
  cbn [snd] in H1, H2, H3.
  unfold get_statistics, files. rewrite !print_bind. cbn [for_each].
  rewrite (dataset_statistics_spec _ _ _ _ H1), M_bind_ok.
  rewrite (dataset_statistics_spec _ _ _ _ H2), M_bind_ok.
  rewrite (dataset_statistics_spec _ _ _ _ H3), M_bind_ok.
  cbn [fst snd mret M_ret]. rewrite app_nil_r. reflexivity.
Qed.

(** The theorem on a directory that holds the trades file only. *)
Lemma statistics_report_witness :
  Forall (λ entry, file_or_missing (trades_only_fs !! path_join (lit "data") entry.2))
         files
  ∧ printed (get_statistics trades_only_fs (lit "data")).1
    = [ [Lit (newline :: rule)]; [T "DATA STATISTICS"]; [Lit rule];
        [Lit [newline]; Lit (lit "Orderbook Snapshots"); T ": No data yet"];
        [Lit [newline]; Lit (lit "Trades"); T ":"];
        [T "  File: "; Lit (lit "data/trades.json")];
        [T "  Messages: "; Val (VInt 2)];
        [T "  Size: "; Lit (lit "1.50"); T " MB"];
        [Lit [newline]; Lit (lit "Tick Size Changes"); T ": No data yet"] ].
Proof.
  assert (H : Forall (λ entry,
      file_or_missing (trades_only_fs !! path_join (lit "data") entry.2)) files).
  { unfold files.
    apply Forall_cons; split; [vm_compute; exact I|].
    apply Forall_cons; split; [vm_compute; split; [discriminate|reflexivity]|].
    apply Forall_cons; split; [vm_compute; exact I|constructor]. }
  split; [exact H|].
  rewrite (statistics_report trades_only_fs (lit "data") H). vm_compute. reflexivity.
Defined.

(** ** The disabled price-change reader *)

(** C10.  For every path and every limit, [read_price_changes] prints the
    fixed notice and does nothing else: its trace holds no call to the file
    system and no decoded line.  The function takes no file system at all,
    so its behaviour cannot depend on whether the file exists. *)
Theorem read_price_changes_no_access (filepath : str) (limit : option Z) :
  read_price_changes filepath limit
  = ([EPrint [T "price_changes.json storage is disabled."]], Ok tt)
  ∧ file_accesses (read_price_changes filepath limit).1 = []
  ∧ decoded (read_price_changes filepath limit).1 = [].
Proof. repeat split. Qed.

(** * Further properties of the script *)

(** ** Calls to the file system *)

(** X1.  Whatever the file system holds, whatever the limit, and whether
    the pass ends normally or with an exception, each of the three readers
    calls the file system on its own path only: one existence test, then
    one [open] if the path exists, then one close if the path is a file
    that could be opened.  A reader never asks for a size and never leaves
    the file open. *)
Theorem readers_close_what_they_open
    (utcoffset : Z → Z) (fs : filesystem) (path : str) (limit : option Z) :
  file_accesses (read_orderbook_snapshots utcoffset fs path limit).1
  = reader_accesses fs path
  ∧ file_accesses (read_trades utcoffset fs path limit).1 = reader_accesses fs path
  ∧ file_accesses (read_tick_size_changes utcoffset fs path).1
    = reader_accesses fs path.
Proof.
  unfold reader_accesses.
  destruct (fs !! path) as [[text size|size]|] eqn:E.
  - rewrite (read_orderbook_snapshots_file utcoffset fs _ _ _ limit E).
    rewrite (read_trades_file utcoffset fs _ _ _ limit E).
    rewrite (read_tick_size_changes_file utcoffset fs _ _ _ E).
    cbv zeta. cbn [fst].
    rewrite !file_accesses_app.
    rewrite snapshots_loop_no_access, trades_loop_no_access, ticks_loop_no_access.
    repeat split.
    + destruct (snapshots_loop _ _ _ _).2; reflexivity.
    + destruct (trades_loop _ _ _ _).2 as [st|]; [|reflexivity].
      cbn [app]. rewrite (only_prints_accesses _ (trades_report_prints st)).
      reflexivity.
    + destruct (ticks_loop _ _ _).2; reflexivity.
  - unfold read_orderbook_snapshots, read_trades, read_tick_size_changes.
    rewrite !(path_exists_some _ _ _ _ E). simpl negb. cbv iota.
    rewrite !print_bind. unfold with_open. rewrite E. repeat split.
  - unfold read_orderbook_snapshots, read_trades, read_tick_size_changes.
    rewrite !(path_exists_none _ _ _ E). repeat split.
Qed.

(** ** A missing file *)

(** X2.  When the path does not exist, each of the three readers prints the
    one line [File not found: <path>] and returns normally: no header, no
    summary, nothing opened and nothing decoded. *)
Theorem missing_file_is_reported
    (utcoffset : Z → Z) (fs : filesystem) (path : str) (limit : option Z) :
  fs !! path = None →
  let report := ([EExists path; EPrint [T "File not found: "; Lit path]], Ok tt) in
  read_orderbook_snapshots utcoffset fs path limit = report
  ∧ read_trades utcoffset fs path limit = report
  ∧ read_tick_size_changes utcoffset fs path = report.
Proof.
  intros H report.
  unfold read_orderbook_snapshots, read_trades, read_tick_size_changes.
  rewrite !(path_exists_none _ _ _ H). repeat split.
Qed.

(** The theorem on an empty file system. *)
Lemma missing_file_is_reported_witness :
  let report := ([EExists trades_json; EPrint [T "File not found: "; Lit trades_json]],
                 Ok tt) in
  read_orderbook_snapshots utc ∅ trades_json (Some 3) = report
  ∧ read_trades utc ∅ trades_json (Some 3) = report
  ∧ read_tick_size_changes utc ∅ trades_json = report.
Proof.
  apply (missing_file_is_reported utc ∅ trades_json (Some 3)). reflexivity.
Defined.

(** ** Limits without effect *)

(** X3.  A limit of 0 is no limit: for every file system and path, the
    snapshot reader and the trade reader called with the limit 0 behave
    exactly as when called without a limit (same calls, same output, same
    result). *)
Theorem limit_zero_is_no_limit (utcoffset : Z → Z) (fs : filesystem) (path : str) :
  read_orderbook_snapshots utcoffset fs path (Some 0)
  = read_orderbook_snapshots utcoffset fs path None
  ∧ read_trades utcoffset fs path (Some 0) = read_trades utcoffset fs path None.
Proof.
  split.
  - apply read_orderbook_snapshots_ext. intros text size _.
    apply snapshots_loop_unlimited. reflexivity.
  - apply read_trades_ext. intros text size _.
    apply trades_loop_unlimited. reflexivity.
Qed.

(** X4.  A limit that is not below the number of lines of the file has no
    effect either: the snapshot reader and the trade reader behave exactly
    as when called without a limit. *)
Theorem limit_above_length_is_no_limit
    (utcoffset : Z → Z) (fs : filesystem) (path text : str) (size N : Z) :
  fs !! path = Some (File text size) →
  Z.of_nat (length (readlines text [])) <= N →
  read_orderbook_snapshots utcoffset fs path (Some N)
  = read_orderbook_snapshots utcoffset fs path None
  ∧ read_trades utcoffset fs path (Some N) = read_trades utcoffset fs path None.
Proof.
  intros Hfile HN.
  assert (Hall : ∀ text' size', fs !! path = Some (File text' size') →
                 processed (Some N) 0 (readlines text' []) = readlines text' []).
  { intros text' size' H. rewrite Hfile in H. injection H as <- _.
    apply processed_all. right. right. exists N. split; [reflexivity|lia]. }
  split.
  - apply read_orderbook_snapshots_ext. intros text' size' H.
    apply snapshots_loop_unlimited. exact (Hall _ _ H).
  - apply read_trades_ext. intros text' size' H.
    apply trades_loop_unlimited. exact (Hall _ _ H).
Qed.

(** The theorem at the limit 2 on the example directory, whose trades file
    has two lines. *)
Lemma limit_above_length_is_no_limit_witness :
  read_orderbook_snapshots utc example_fs trades_json (Some 2)
  = read_orderbook_snapshots utc example_fs trades_json None
  ∧ read_trades utc example_fs trades_json (Some 2)
    = read_trades utc example_fs trades_json None.
Proof.
  apply (limit_above_length_is_no_limit utc example_fs trades_json
           (buy_line ++ sell_line) (Z.of_nat (length (buy_line ++ sell_line))) 2).
  - reflexivity.
  - vm_compute. discriminate.
Defined.

(** X5.  A negative limit stops the pass before the first line: on an
    existing file, whatever it holds, the snapshot reader and the trade
    reader open and close the file, decode nothing, and print the header
    and a summary of zero records. *)
Theorem negative_limit_displays_nothing
    (utcoffset : Z → Z) (fs : filesystem) (path text : str) (size N : Z) :
  fs !! path = Some (File text size) →
  N < 0 →
  read_orderbook_snapshots utcoffset fs path (Some N)
  = ([EExists path; EPrint [Lit (newline :: rule)]; EPrint [T "ORDERBOOK SNAPSHOTS"];
      EPrint [Lit rule]; EOpen path; EClose path;
      EPrint [Lit (newline :: lit "Total snapshots: "); Val (VInt 0)]], Ok tt)
  ∧ read_trades utcoffset fs path (Some N)
    = ([EExists path; EPrint [Lit (newline :: rule)]; EPrint [T "TRADES"];
        EPrint [Lit rule]; EOpen path; EClose path;
        EPrint [Lit (newline :: rule)];
        EPrint [T "Total trades: "; Val (VInt 0)];
        EPrint [T "Total volume: $"; Lit (lit "0.00")]], Ok tt).
Proof.
  intros Hfile HN.
  assert (Hstop : ∀ c, 0 <= c → limit_reached (Some N) c = true).
  { intros c Hc. unfold limit_reached.
    apply andb_true_intro. split.
    - apply negb_true_iff, Z.eqb_neq. lia.
    - apply Z.leb_le. lia. }
  split.
  - rewrite (read_orderbook_snapshots_file utcoffset fs _ _ _ _ Hfile). cbv zeta.
    rewrite (loop_reached (λ n, n) (Some N) (snapshot_step utcoffset)
               (snapshots_loop utcoffset (Some N)) (λ _, eq_refl)
               (snapshots_loop_cons utcoffset (Some N))) by (apply Hstop; lia).
    reflexivity.
  - rewrite (read_trades_file utcoffset fs _ _ _ _ Hfile). cbv zeta.
    rewrite (loop_reached count (Some N) (trade_body utcoffset)
               (trades_loop utcoffset (Some N)) (λ _, eq_refl) (λ _ _ _, eq_refl))
      by (apply Hstop; simpl; lia).
    reflexivity.
Qed.

(** The theorem at the limit -1 on the example directory. *)
Lemma negative_limit_displays_nothing_witness :
  decoded (read_orderbook_snapshots utc example_fs snapshots_json (Some (-1))).1 = []
  ∧ find_count (lit "Total trades: ")
      (printed (read_trades utc example_fs snapshots_json (Some (-1))).1) = Some 0.
Proof.
  destruct (negative_limit_displays_nothing utc example_fs snapshots_json
              (snapshot_line ++ snapshot_line)
              (Z.of_nat (length (snapshot_line ++ snapshot_line))) (-1))
    as [H1 H2]; [reflexivity | lia |].
  rewrite H1, H2. split; reflexivity.
Defined.

(** ** A line that fails *)

(** X6.  The first line on which the body of the loop raises ends the
    pass.  The reader has then printed its header, displayed the records
    before that line exactly as a pass over them alone does, and printed
    what the body prints before it fails; it closes the file, prints no
    summary, and raises the exception of the body.  No line after the
    failing one is decoded. *)
Theorem failing_line_ends_the_pass
    (utcoffset : Z → Z) (fs : filesystem) (path text : str) (size : Z)
    (good : list str) (bad : str) (rest : list str) (e : exn) :
  fs !! path = Some (File text size) →
  readlines text [] = good ++ bad :: rest →
  let n := Z.of_nat (length good) in
  (∀ limit,
     limit_reached limit n = false →
     Forall (λ line, ∀ n, (snapshot_body utcoffset n line).2 = Ok tt) good →
     (snapshot_body utcoffset n bad).2 = Raise e →
     read_orderbook_snapshots utcoffset fs path limit
     = ([EExists path; EPrint [Lit (newline :: rule)];
         EPrint [T "ORDERBOOK SNAPSHOTS"]; EPrint [Lit rule]; EOpen path]
        ++ (snapshots_loop utcoffset limit good 0).1
        ++ (snapshot_body utcoffset n bad).1 ++ [EClose path], Raise e))
  ∧ (∀ limit parts,
       limit_reached limit n = false →
       Forall2 (λ line p, trade_parts line = Ok p) good parts →
       trade_parts bad = Raise e →
       read_trades utcoffset fs path limit
       = ([EExists path; EPrint [Lit (newline :: rule)]; EPrint [T "TRADES"];
           EPrint [Lit rule]; EOpen path]
          ++ (trades_loop utcoffset limit good initial_aggregate).1
          ++ (trade_body utcoffset (record_all parts initial_aggregate) bad).1
          ++ [EClose path], Raise e))
  ∧ (Forall (λ line, ∀ n, (tick_body utcoffset n line).2 = Ok tt) good →
     (tick_body utcoffset n bad).2 = Raise e →
     read_tick_size_changes utcoffset fs path
     = ([EExists path; EPrint [Lit (newline :: rule)];
         EPrint [T "TICK SIZE CHANGES"]; EPrint [Lit rule]; EOpen path]
        ++ (ticks_loop utcoffset good 0).1
        ++ (tick_body utcoffset n bad).1 ++ [EClose path], Raise e)).
Proof.
  intros Hfile Hlines n. split; [|split].
  - intros limit Hlim Hgood Hbad.
    rewrite (read_orderbook_snapshots_file utcoffset fs _ _ _ limit Hfile). cbv zeta.
    rewrite Hlines.
    destruct (snapshots_pass utcoffset limit good 0) as [Hok _].
    { rewrite processed_below by exact Hlim. exact Hgood. }
    rewrite processed_below, Z.add_0_l in Hok by exact Hlim.
    rewrite (loop_fails (λ n, n) limit (snapshot_step utcoffset)
               (snapshots_loop utcoffset limit) (λ _, eq_refl)
               (snapshots_loop_cons utcoffset limit) good bad rest e 0 n Hok Hlim).
    + cbn [fst snd]. unfold snapshot_step at 1. rewrite fst_bind, Hbad, app_nil_r.
      rewrite <- !app_assoc. reflexivity.
    + unfold snapshot_step. rewrite snd_bind, Hbad. reflexivity.
  - intros limit parts Hlim Hgood Hbad.
    rewrite (read_trades_file utcoffset fs _ _ _ limit Hfile). cbv zeta.
    rewrite Hlines.
    assert (Hok : (trades_loop utcoffset limit good initial_aggregate).2
                  = Ok (record_all parts initial_aggregate)).
    { apply trades_loop_ok. simpl count. rewrite processed_below by exact Hlim.
      exact Hgood. }
    rewrite (loop_fails count limit (trade_body utcoffset)
               (trades_loop utcoffset limit) (λ _, eq_refl) (λ _ _ _, eq_refl)
               good bad rest e _ _ Hok).
    + cbn [fst snd]. rewrite <- !app_assoc. reflexivity.
    + rewrite record_all_count. apply Forall2_length in Hgood.
      simpl count. rewrite Z.add_0_l, <- Hgood. exact Hlim.
    + rewrite trade_body_result, Hbad. reflexivity.
  - intros Hgood Hbad.
    rewrite (read_tick_size_changes_file utcoffset fs _ _ _ Hfile). cbv zeta.
    rewrite Hlines.
    destruct (ticks_pass utcoffset good 0 Hgood) as [Hok _].
    rewrite Z.add_0_l in Hok.
    rewrite (loop_fails (λ n, n) None (tick_step utcoffset)
               (ticks_loop utcoffset) (λ _, eq_refl)
               (ticks_loop_cons utcoffset) good bad rest e 0 n Hok eq_refl).
    + cbn [fst snd]. unfold tick_step at 1. rewrite fst_bind, Hbad, app_nil_r.
      rewrite <- !app_assoc. reflexivity.
    + unfold tick_step. rewrite snd_bind, Hbad. reflexivity.
Qed.

(** The theorem on a trades file of three lines, the second of which has
    a timestamp and nothing else. *)
Lemma failing_line_ends_the_pass_witness :
  let fs : filesystem := {[ trades_json := file_of (buy_line ++ stub_line ++ sell_line) ]} in
  let run := read_trades utc fs trades_json None in
  run.2 = Raise KeyError
  ∧ decoded run.1 = [buy_line; stub_line]
  ∧ last run.1 = Some (EClose trades_json).
Proof.
  intros fs run.
  destruct (failing_line_ends_the_pass utc fs trades_json
              (buy_line ++ stub_line ++ sell_line)
              (Z.of_nat (length (buy_line ++ stub_line ++ sell_line)))
              [buy_line] stub_line [sell_line] KeyError)
    as (_ & H & _); [reflexivity | vm_compute; reflexivity |].
  subst run.
  rewrite (H None [(S754_finite false 6192449487634432 (-50), lit "BUY")]);
    [| reflexivity | repeat constructor | vm_compute; reflexivity].
  vm_compute. repeat split; reflexivity.
Defined.

(** ** A file that grows *)

(** X7.  The readers go through a file part by part: a pass over the lines
    [l1 ++ l2] is the pass over [l1] followed, from the state it ends in,
    by the pass over [l2].  So when records are appended to a file that
    ends with a line terminator, the lines of the old file are read as
    before, and the pass over the new file is the pass over the old one
    continued on the appended lines: what was displayed for the old records
    is displayed again, unchanged, before anything else. *)
Theorem pass_over_appended_records
    (utcoffset : Z → Z) (limit : option Z) (old more : str) :
  let l1 := readlines (old ++ [newline]) [] in
  let l2 := readlines more [] in
  readlines ((old ++ [newline]) ++ more) [] = l1 ++ l2
  ∧ (∀ n, snapshots_loop utcoffset limit (l1 ++ l2) n
          = snapshots_loop utcoffset limit l1 n ≫= snapshots_loop utcoffset limit l2)
  ∧ (∀ st, trades_loop utcoffset limit (l1 ++ l2) st
           = trades_loop utcoffset limit l1 st ≫= trades_loop utcoffset limit l2)
  ∧ (∀ n, ticks_loop utcoffset (l1 ++ l2) n
          = ticks_loop utcoffset l1 n ≫= ticks_loop utcoffset l2).
Proof.
  intros l1 l2. split; [apply readlines_app|]. split; [|split].
  - intros n. apply snapshots_loop_app.
  - intros st. apply trades_loop_app.
  - intros n. apply ticks_loop_app.
Qed.

(** ** Records and their fields *)

Ltac raises :=
  repeat first
    [ solve [ eexists; first
                [ apply time_line_missing | apply asset_line_missing
                | apply market_line_missing | apply print_side_missing
                | apply tick_line_missing | apply fee_line_missing ]; auto ]
    | solve [ apply side_line_missing; auto ]
    | apply bind_raises; first [ left; raises; fail | right; intros _ ] ].

(** X8.  A line that decodes to an object without one of the fields that
    its reader needs is fatal for the pass: the body of the loop raises, so
    the record is neither displayed in full nor counted, and it is not
    skipped either.  The fields are read in a fixed order; when it is the
    timestamp, the first of them, that is missing, the body has printed
    the record number and nothing more, and the exception is [KeyError]. *)
Theorem missing_field_is_fatal
    (utcoffset : Z → Z) (line : str) (fields : list (str * value)) (k : str) :
  json_loads line = Ok (VDict fields) →
  dict_get fields k = None →
  (k ∈ snapshot_fields → ∀ n, ∃ e, (snapshot_body utcoffset n line).2 = Raise e)
  ∧ (k ∈ trade_fields → ∀ st, ∃ e, (trade_body utcoffset st line).2 = Raise e)
  ∧ (k ∈ tick_fields → ∀ n, ∃ e, (tick_body utcoffset n line).2 = Raise e)
  ∧ (k = lit "timestamp" →
     (∀ n, snapshot_body utcoffset n line
           = ([EDecode line;
               EPrint [Lit (newline :: lit "Snapshot #"); Val (VInt (n + 1))]],
              Raise KeyError))
     ∧ (∀ st, trade_body utcoffset st line
              = ([EDecode line;
                  EPrint [Lit (newline :: lit "Trade #"); Val (VInt (count st + 1))]],
                 Raise KeyError))
     ∧ (∀ n, tick_body utcoffset n line
             = ([EDecode line;
                 EPrint [Lit (newline :: lit "Change #"); Val (VInt (n + 1))]],
                Raise KeyError))).
Proof.
  intros Hline Hk. split; [|split; [|split]].
  - intros Hin n. rewrite snapshot_body_result, Hline, Ok_bind.
    unfold snapshot_fields in Hin. rewrite !elem_of_cons, elem_of_nil in Hin.
    destruct Hin as [->|[->|[->|[->|[->|[]]]]]]; raises.
  - intros Hin st. rewrite trade_body_result. unfold trade_parts.
    rewrite Hline, Ok_bind.
    unfold trade_fields in Hin. rewrite !elem_of_cons, elem_of_nil in Hin.
    apply bind_raises. left. apply bind_raises.
    destruct Hin as [->|[->|[->|[->|[->|[->|[]]]]]]];
      try (left; eexists; rewrite subscript_dict, Hk; reflexivity);
      right; intros _; raises.
  - intros Hin n. rewrite tick_body_result, Hline, Ok_bind.
    unfold tick_fields in Hin. rewrite !elem_of_cons, elem_of_nil in Hin.
    destruct Hin as [->|[->|[->|[->|[->|[]]]]]]; raises.
  - intros ->. split; [|split]; intros n.
    + unfold snapshot_body. rewrite loads_bind, Hline, print_bind.
      rewrite (time_line_missing _ _ Hk). reflexivity.
    + unfold trade_body. rewrite loads_bind, Hline, print_bind.
      rewrite (time_line_missing _ _ Hk). reflexivity.
    + unfold tick_body. rewrite loads_bind, Hline, print_bind.
      rewrite (time_line_missing _ _ Hk). reflexivity.
Qed.

(** The theorem at a line that has a timestamp only, and the field
    [market]. *)
Lemma missing_field_is_fatal_witness :
  json_loads stub_line = Ok (VDict [(lit "timestamp", VStr (lit "1700000000000"))])
  ∧ (∃ e, (snapshot_body utc 0 stub_line).2 = Raise e)
  ∧ (∃ e, (tick_body utc 0 stub_line).2 = Raise e).
Proof.
  assert (H : json_loads stub_line
              = Ok (VDict [(lit "timestamp", VStr (lit "1700000000000"))]))
    by (vm_compute; reflexivity).
  split; [exact H|].
  destruct (missing_field_is_fatal utc stub_line _ (lit "market") H eq_refl)
    as (Hs & _ & Ht & _).
  split.
  - apply Hs. unfold snapshot_fields. rewrite !elem_of_cons. auto.
  - apply Ht. unfold tick_fields. rewrite !elem_of_cons. auto.
Defined.

(** X9.  What a tick-size change must hold, and how it is displayed.  A
    line is displayed in full exactly when it decodes to an object that has
    the five fields and whose asset identifier can be sliced (a string or a
    list).  The display is then five lines: the record number, the time,
    the first 20 items of the identifier followed by the ellipsis, the
    market, and the old and the new tick size, the last three values shown
    as they were decoded, whatever their type. *)
Theorem tick_record_display (utcoffset : Z → Z) (n : Z) (line : str) :
  (∀ fields ts a prefix m o w,
     json_loads line = Ok (VDict fields) →
     dict_get fields (lit "timestamp") = Some ts →
     dict_get fields (lit "asset_id") = Some a →
     slice_to 20 a = Ok prefix →
     dict_get fields (lit "market") = Some m →
     dict_get fields (lit "old_tick_size") = Some o →
     dict_get fields (lit "new_tick_size") = Some w →
     tick_body utcoffset n line
     = ([EDecode line;
         EPrint [Lit (newline :: lit "Change #"); Val (VInt (n + 1))];
         EPrint [T "Time: "; Val (format_timestamp utcoffset ts)];
         EPrint [T "Asset ID: "; Val prefix; T "..."];
         EPrint [T "Market: "; Val m];
         EPrint [T "Old Tick Size: "; Val o; T " -> New Tick Size: "; Val w]],
        Ok tt))
  ∧ ((tick_body utcoffset n line).2 = Ok tt →
     ∃ fields ts a prefix m o w,
       json_loads line = Ok (VDict fields)
       ∧ dict_get fields (lit "timestamp") = Some ts
       ∧ dict_get fields (lit "asset_id") = Some a
       ∧ slice_to 20 a = Ok prefix
       ∧ dict_get fields (lit "market") = Some m
       ∧ dict_get fields (lit "old_tick_size") = Some o
       ∧ dict_get fields (lit "new_tick_size") = Some w).
Proof.
  split.
  - intros fields ts a prefix m o w Hline Hts Ha Hp Hm Ho Hw.
    unfold tick_body. rewrite loads_bind, Hline, print_bind.
    unfold time_line, asset_line, market_line, tick_line.
    rewrite !subscript_dict, Hts, Ha, Hm, Ho, Hw, !Ok_bind, Hp, !Ok_bind.
    unfold mret, result_ret.
    repeat first [rewrite lift_ok_bind | rewrite print_bind]. reflexivity.
  - rewrite tick_body_result.
    destruct (json_loads line) as [change|]; [|discriminate]. rewrite Ok_bind.
    unfold time_line.
    destruct (subscript change (lit "timestamp")) as [ts|] eqn:Ets; [|discriminate].
    apply subscript_ok_inv in Ets. destruct Ets as (fields & -> & Hts).
    rewrite !Ok_bind.
    destruct (asset_line (VDict fields)) as [l1|] eqn:E1; [|discriminate].
    apply asset_line_inv in E1. destruct E1 as (a & prefix & Ha & Hp & _).
    rewrite Ok_bind. unfold market_line, tick_line. rewrite !subscript_dict.
    destruct (dict_get fields (lit "market")) as [m|] eqn:Hm; [|discriminate].
    destruct (dict_get fields (lit "old_tick_size")) as [o|] eqn:Ho; [|discriminate].
    destruct (dict_get fields (lit "new_tick_size")) as [w|] eqn:Hw; [|discriminate].
    intros _. exists fields, ts, a, prefix, m, o, w. repeat split; assumption.
Qed.

(** The theorem at a line of the example file. *)
Lemma tick_record_display_witness :
  tick_body utc 0 change_line
  = ([EDecode change_line;
      EPrint [Lit (newline :: lit "Change #"); Val (VInt 1)];
      EPrint [T "Time: "; Val (VStr (lit "2023-11-14 22:13:20"))];
      EPrint [T "Asset ID: "; Val (VStr (lit "abc123...")); T "..."];
      EPrint [T "Market: "; Val (VStr (lit "0xabc"))];
      EPrint [T "Old Tick Size: "; Val (VStr (lit "0.01"));
              T " -> New Tick Size: "; Val (VStr (lit "0.001"))]], Ok tt).
Proof.
  destruct (tick_record_display utc 0 change_line) as [H _].
  rewrite (H [(lit "timestamp", VStr (lit "1700000000000"));
              (lit "asset_id", VStr (lit "abc123..."));
              (lit "market", VStr (lit "0xabc"));
              (lit "old_tick_size", VStr (lit "0.01"));
              (lit "new_tick_size", VStr (lit "0.001"))]
             (VStr (lit "1700000000000")) (VStr (lit "abc123..."))
             (VStr (lit "abc123...")) (VStr (lit "0xabc"))
             (VStr (lit "0.01")) (VStr (lit "0.001")));
    vm_compute; reflexivity.
Defined.

(** X10.  What a trade must hold, and how it is displayed and counted.
    The body of the trade loop succeeds on a line exactly when the line
    decodes to an object with a timestamp, an asset identifier that can be
    sliced, a side and a price that are strings, the price being the text
    of a float, a size and a fee rate that [float] accepts.  It then
    displays six lines - the fee rate also as [float(fee) / 100] per cent,
    the notional [float(price) * float(size)] with two decimals - and adds
    one to the count, the notional to the total volume and one to the count
    of the side. *)
Theorem trade_record_display (utcoffset : Z → Z) (st : aggregate) (line : str) :
  (∀ fields ts a prefix side price size fee p s f,
     json_loads line = Ok (VDict fields) →
     dict_get fields (lit "timestamp") = Some ts →
     dict_get fields (lit "asset_id") = Some a →
     slice_to 20 a = Ok prefix →
     dict_get fields (lit "side") = Some (VStr side) →
     dict_get fields (lit "price") = Some (VStr price) →
     float_of_str price = Ok p →
     dict_get fields (lit "size") = Some size →
     py_float size = Ok s →
     dict_get fields (lit "fee_rate_bps") = Some fee →
     py_float fee = Ok f →
     trade_body utcoffset st line
     = ([EDecode line;
         EPrint [Lit (newline :: lit "Trade #"); Val (VInt (count st + 1))];
         EPrint [T "Time: "; Val (format_timestamp utcoffset ts)];
         EPrint [T "Asset ID: "; Val prefix; T "..."];
         EPrint [T "Side: "; Lit (rjust 4 side); T "  Price: "; Lit (rjust 6 price);
                 T "  Size: "; Val size];
         EPrint [T "Fee Rate: "; Val fee; T " bps (";
                 Val (VFloat (fdiv_raw f f100)); T "%)"];
         EPrint [T "Notional Value: $"; Lit (format_f false false 2 (fmul p s))]],
        Ok {| count := count st + 1;
              total_volume := fadd (total_volume st) (fmul p s);
              side_counts := bump side (side_counts st) |}))
  ∧ (∀ st', (trade_body utcoffset st line).2 = Ok st' →
       ∃ fields x side,
         json_loads line = Ok (VDict fields)
         ∧ trade_fields_ok fields x side
         ∧ st' = record_trade st x side).
Proof.
  split.
  - intros fields ts a prefix side price size fee p s f
           Hline Hts Ha Hp Hs Hpr Ep Hsz Esz Hfee Hf.
    unfold trade_body. rewrite loads_bind, Hline, print_bind.
    rewrite (fee_line_ok _ _ _ Hfee Hf).
    unfold time_line, asset_line, side_line, notional_of, side_key.
    rewrite !subscript_dict, Hts, Ha, Hs, Hpr, Hsz.
    unfold mret at 1 2 3 4 5 6, result_ret.
    repeat first [ rewrite Ok_bind | rewrite lift_ok_bind | rewrite print_bind
                 | rewrite Hp | rewrite Ep | rewrite Esz
                 | progress cbn [format_s py_float] ].
    reflexivity.
  - intros st'. rewrite trade_body_result.
    destruct (trade_parts line) as [[x side]|] eqn:E; [|discriminate].
    intros [= <-]. apply trade_parts_spec in E. destruct E as (fields & Hline & Hok).
    exists fields, x, side. repeat split; assumption.
Qed.

(** The theorem at the first line of the example file: 0.55 x 10, with a
    fee rate of 50 basis points. *)
Lemma trade_record_display_witness :
  printed (trade_body utc initial_aggregate buy_line).1
  = [ [Lit (newline :: lit "Trade #"); Val (VInt 1)];
      [T "Time: "; Val (VStr (lit "2023-11-14 22:13:20"))];
      [T "Asset ID: "; Val (VStr (lit "abc123...")); T "..."];
      [T "Side: "; Lit (lit " BUY"); T "  Price: "; Lit (lit "  0.55");
       T "  Size: "; Val (VStr (lit "10"))];
      [T "Fee Rate: "; Val (VStr (lit "50")); T " bps (";
       Val (VFloat (S754_finite false 4503599627370496 (-53))); T "%)"];
      [T "Notional Value: $"; Lit (lit "5.50")] ].
Proof.
  destruct (trade_record_display utc initial_aggregate buy_line) as [H _].
  rewrite (H [(lit "timestamp", VStr (lit "1700000000000"));
              (lit "asset_id", VStr (lit "abc123..."));
              (lit "side", VStr (lit "BUY"));
              (lit "price", VStr (lit "0.55"));
              (lit "size", VStr (lit "10"));
              (lit "fee_rate_bps", VStr (lit "50"))]
             (VStr (lit "1700000000000")) (VStr (lit "abc123..."))
             (VStr (lit "abc123...")) (lit "BUY") (lit "0.55")
             (VStr (lit "10")) (VStr (lit "50"))
             (S754_finite false 4953959590107546 (-53))
             (S754_finite false 5629499534213120 (-49))
             (S754_finite false 7036874417766400 (-47)));
    vm_compute; reflexivity.
Defined.

(** ** The levels of the book *)

(** X11.  One side of the book.  When the side is a list of levels, at
    most its first five levels are displayed, in the order of the list and
    numbered from 1, each with its price right-aligned in six columns and
    its size as decoded.  The levels after the fifth are not looked at, so
    they cannot make the display fail.  When the list is empty nothing is
    printed, not even the title. *)
Theorem top_five_levels
    (snapshot : value) (key title : str) (levels : list value)
    (shown : list (str * value)) :
  subscript snapshot key = Ok (VList levels) →
  Forall2 level_shows (take 5 levels) shown →
  print_side snapshot key title
  = (match levels with
     | [] => []
     | _ => EPrint [Lit (newline :: title)] :: level_lines shown
     end, Ok tt)
  ∧ (length shown = length levels `min` 5)%nat.
Proof.
  intros Hside Hshown. split.
  - apply (print_side_shown _ _ _ _ _ Hside Hshown).
  - apply Forall2_length in Hshown. rewrite length_take in Hshown. lia.
Qed.

(** The theorem on a side of six levels, the sixth of which is not an
    object. *)
Lemma top_five_levels_witness :
  let levels := [example_level "0.55"; example_level "0.54"; example_level "0.53";
                 example_level "0.52"; example_level "0.51"; VNone] in
  let snapshot := VDict [(lit "bids", VList levels)] in
  printed (print_side snapshot (lit "bids") (lit "Top 5 Bids:")).1
  = [Lit (newline :: lit "Top 5 Bids:")]
    :: ((λ ip : Z * str,
           [T "  "; Val (VInt ip.1); T ". Price: "; Lit (lit "  " ++ ip.2);
            T "  Size: "; Val (VStr (lit "10"))])
        <$> [(1, lit "0.55"); (2, lit "0.54"); (3, lit "0.53"); (4, lit "0.52");
             (5, lit "0.51")]).
Proof.
  intros levels snapshot.
  destruct (top_five_levels snapshot (lit "bids") (lit "Top 5 Bids:") levels
              ((λ p, (p, VStr (lit "10")))
               <$> [lit "0.55"; lit "0.54"; lit "0.53"; lit "0.52"; lit "0.51"]))
    as [H _].
  - reflexivity.
  - repeat constructor.
  - rewrite H. reflexivity.
Defined.

(** X12.  How a snapshot is displayed.  For a line that decodes to an
    object with a timestamp, an asset identifier that can be sliced, a
    market, and two sides that are lists of levels, the display is: the
    record number, the time, the identifier, the market, the price line if
    there is one, then the bids and then the asks, each side with its
    title and at most five levels.  The two sides are displayed
    independently: an empty side prints nothing and does not keep the other
    side from being displayed. *)
Theorem snapshot_record_display
    (utcoffset : Z → Z) (n : Z) (btc : option line) (line : str)
    (fields : list (str * value)) (ts a prefix m : value) (bids asks : list value)
    (shown_bids shown_asks : list (str * value)) :
  json_loads line = Ok (VDict fields) →
  dict_get fields (lit "timestamp") = Some ts →
  dict_get fields (lit "asset_id") = Some a →
  slice_to 20 a = Ok prefix →
  dict_get fields (lit "market") = Some m →
  btc_line (VDict fields) = Ok btc →
  dict_get fields (lit "bids") = Some (VList bids) →
  dict_get fields (lit "asks") = Some (VList asks) →
  Forall2 level_shows (take 5 bids) shown_bids →
  Forall2 level_shows (take 5 asks) shown_asks →
  snapshot_body utcoffset n line
  = ([EDecode line;
      EPrint [Lit (newline :: lit "Snapshot #"); Val (VInt (n + 1))];
      EPrint [T "Time: "; Val (format_timestamp utcoffset ts)];
      EPrint [T "Asset ID: "; Val prefix; T "..."];
      EPrint [T "Market: "; Val m]]
     ++ match btc with Some l => [EPrint l] | None => [] end
     ++ side_block (lit "Top 5 Bids:") bids shown_bids
     ++ side_block (lit "Top 5 Asks:") asks shown_asks, Ok tt).
Proof.
  intros Hline Hts Ha Hp Hm Hbtc Hbids Hasks Hsb Hsa.
  unfold snapshot_body. rewrite loads_bind, Hline, print_bind, Hbtc.
  rewrite (print_side_shown (VDict fields) (lit "bids") _ bids shown_bids)
    by (first [rewrite subscript_dict, Hbids; reflexivity | exact Hsb]).
  rewrite (print_side_shown (VDict fields) (lit "asks") _ asks shown_asks)
    by (first [rewrite subscript_dict, Hasks; reflexivity | exact Hsa]).
  unfold time_line, asset_line, market_line.
  rewrite !subscript_dict, Hts, Ha, Hm.
  unfold mret at 1 2 3, result_ret.
  repeat first [ rewrite Ok_bind | rewrite lift_ok_bind | rewrite print_bind
               | rewrite Hp ].
  destruct btc as [l|].
  - rewrite print_bind, M_bind_ok. cbn [fst snd app]. reflexivity.
  - rewrite M_ret_bind, M_bind_ok. cbn [fst snd app]. reflexivity.
Qed.

(** The theorem on a snapshot with no bids and one ask. *)
Lemma snapshot_record_display_witness :
  printed (snapshot_body utc 0 asks_only_line).1
  = [ [Lit (newline :: lit "Snapshot #"); Val (VInt 1)];
      [T "Time: "; Val (VStr (lit "2023-11-14 22:13:20"))];
      [T "Asset ID: "; Val (VStr (lit "abc123...")); T "..."];
      [T "Market: "; Val (VStr (lit "0xabc"))];
      [Lit (newline :: lit "Top 5 Asks:")];
      [T "  "; Val (VInt 1); T ". Price: "; Lit (lit "  0.56"); T "  Size: ";
       Val (VStr (lit "100"))] ].
Proof.
  rewrite (snapshot_record_display utc 0 None asks_only_line
             [(lit "timestamp", VStr (lit "1700000000000"));
              (lit "asset_id", VStr (lit "abc123..."));
              (lit "market", VStr (lit "0xabc"));
              (lit "bids", VList []);
              (lit "asks", VList [VDict [(lit "price", VStr (lit "0.56"));
                                         (lit "size", VStr (lit "100"))]])]
             (VStr (lit "1700000000000")) (VStr (lit "abc123..."))
             (VStr (lit "abc123...")) (VStr (lit "0xabc"))
             [] [VDict [(lit "price", VStr (lit "0.56"));
                        (lit "size", VStr (lit "100"))]]
             [] [(lit "0.56", VStr (lit "100"))]);
    try (vm_compute; reflexivity); repeat constructor.
Defined.

(** ** The dispatcher *)

(** X13.  When the data directory does not exist, [main] prints its two
    lines of error and returns: whatever the flags and the limit, it runs
    none of the readers, so the file system is asked nothing but whether
    the directory exists. *)
Theorem main_without_data_directory
    (utcoffset : Z → Z) (fs : filesystem) (args : Args) :
  fs !! arg_data_dir args = None →
  main utcoffset fs args
  = ([EExists (arg_data_dir args);
      EPrint [T "Error: Data directory '"; Lit (arg_data_dir args);
              T "' does not exist."];
      EPrint [T "Run the Go client first to generate data."]], Ok tt).
Proof.
  intros H. unfold main. rewrite (path_exists_none _ _ _ H). reflexivity.
Qed.

(** The theorem for [--tick-changes] on an empty file system. *)
Lemma main_without_data_directory_witness :
  main utc ∅ (tick_only None)
  = ([EExists (lit "data");
      EPrint [T "Error: Data directory '"; Lit (lit "data"); T "' does not exist."];
      EPrint [T "Run the Go client first to generate data."]], Ok tt).
Proof. apply (main_without_data_directory utc ∅ (tick_only None)). reflexivity. Defined.

(** X14.  Without any of [--stats], [--snapshots], [--trades],
    [--tick-changes] and [--all], [main] behaves as with [--stats]; the
    flag [--price-changes] does not count as a selection, so given alone it
    shows the statistics too, followed by the notice of the disabled
    reader.  No reader of a dataset is run. *)
Theorem main_defaults_to_statistics
    (utcoffset : Z → Z) (fs : filesystem) (price_changes : bool) (limit : option Z)
    (data_dir : str) :
  main utcoffset fs (no_selection price_changes limit data_dir)
  = main utcoffset fs (stats_only price_changes limit data_dir)
  ∧ (is_Some (fs !! data_dir) →
     main utcoffset fs (no_selection price_changes limit data_dir)
     = (EExists data_dir :: (get_statistics fs data_dir).1
        ++ match (get_statistics fs data_dir).2 with
           | Ok _ =>
               if price_changes
               then [EPrint [T "price_changes.json storage is disabled."]]
               else []
           | Raise _ => []
           end,
        (get_statistics fs data_dir).2)).
Proof.
  split; [reflexivity|].
  intros [node H]. unfold main, no_selection. cbn [arg_stats arg_snapshots arg_trades
    arg_tick_changes arg_all arg_price_changes arg_limit arg_data_dir orb].
  rewrite (path_exists_some _ _ _ _ H). cbn [negb]. cbv iota.
  unfold when.
  destruct (get_statistics fs data_dir) as [t [[]|e]] eqn:E.
  - rewrite M_bind_ok, M_ret_bind. cbn [fst snd].
    destruct price_changes.
    + unfold read_price_changes. rewrite print_bind, !M_ret_bind. reflexivity.
    + rewrite !M_ret_bind. reflexivity.
  - rewrite M_bind_raise. cbn [fst snd]. rewrite app_nil_r. reflexivity.
Qed.

(** The theorem for [--price-changes] alone on the directory that holds
    the trades file only. *)
Lemma main_defaults_to_statistics_witness :
  printed (main utc trades_only_fs (no_selection true None (lit "data"))).1
  = printed (get_statistics trades_only_fs (lit "data")).1
    ++ [[T "price_changes.json storage is disabled."]].
Proof.
  destruct (main_defaults_to_statistics utc trades_only_fs true None (lit "data"))
    as [_ H].
  rewrite H by (vm_compute; eauto). vm_compute. reflexivity.
Defined.

(** X15.  With [--all] the datasets are processed one after the other -
    statistics, snapshots, trades, tick-size changes - and an exception in
    one of them ends the run: when the snapshot reader raises, [main]
    raises the same exception and neither the trade reader nor the
    tick-size reader is run; when the snapshot reader returns and the
    trade reader raises, the tick-size reader is not run; when both
    return, the tick-size reader ends the run.  The reader of price changes
    is not part of [--all]. *)
Theorem failure_stops_the_run
    (utcoffset : Z → Z) (fs : filesystem) (args : Args) (e : exn) :
  arg_all args = true →
  is_Some (fs !! arg_data_dir args) →
  (get_statistics fs (arg_data_dir args)).2 = Ok tt →
  let dir := arg_data_dir args in
  let statistics := get_statistics fs dir in
  let snapshots :=
    read_orderbook_snapshots utcoffset fs (dir ++ lit "/orderbook_snapshots.json")
      (arg_limit args) in
  let notice := when (arg_price_changes args)
                  (read_price_changes (dir ++ lit "/price_changes.json")
                     (arg_limit args)) in
  let trades := read_trades utcoffset fs (dir ++ lit "/trades.json") (arg_limit args) in
  let changes :=
    read_tick_size_changes utcoffset fs (dir ++ lit "/tick_size_changes.json") in
  (snapshots.2 = Raise e →
   main utcoffset fs args
   = (EExists dir :: statistics.1 ++ snapshots.1, Raise e))
  ∧ (snapshots.2 = Ok tt → trades.2 = Raise e →
     main utcoffset fs args
     = (EExists dir :: statistics.1 ++ snapshots.1 ++ notice.1 ++ trades.1, Raise e))
  ∧ (snapshots.2 = Ok tt → trades.2 = Ok tt →
     main utcoffset fs args
     = (EExists dir :: statistics.1 ++ snapshots.1 ++ notice.1 ++ trades.1
        ++ changes.1, changes.2)).
Proof.
  intros Hall [node Hdir] Hstats dir statistics snapshots notice trades changes.
  assert (Hnotice : notice.2 = Ok tt).
  { subst notice. destruct (arg_price_changes args); reflexivity. }
  unfold main. rewrite (path_exists_some _ _ _ _ Hdir). cbn [negb]. cbv iota.
  rewrite Hall, !orb_true_r. change (when true ?m) with m.
  fold dir. fold statistics. fold snapshots. fold notice. fold trades. fold changes.
  rewrite (seq_ok statistics) by exact Hstats. cbn [fst snd].
  split; [|split].
  - intros Hs. rewrite (seq_raise snapshots _ e Hs). reflexivity.
  - intros Hs Ht. rewrite (seq_ok snapshots) by exact Hs.
    rewrite (seq_ok notice) by exact Hnotice.
    rewrite (seq_raise trades _ e Ht). reflexivity.
  - intros Hs Ht. rewrite (seq_ok snapshots) by exact Hs.
    rewrite (seq_ok notice) by exact Hnotice.
    rewrite (seq_ok trades) by exact Ht. reflexivity.
Qed.

(** The theorem for [--all] on a directory whose snapshot file holds one
    line, an object with a timestamp and nothing else. *)
Lemma failure_stops_the_run_witness :
  (main utc broken_fs all_datasets).2 = Raise KeyError
  ∧ decoded (main utc broken_fs all_datasets).1 = [stub_line].
Proof.
  destruct (failure_stops_the_run utc broken_fs all_datasets KeyError) as [H _].
  - reflexivity.
  - vm_compute. eauto.
  - vm_compute. reflexivity.
  - rewrite H by (vm_compute; reflexivity). vm_compute. split; reflexivity.
Defined.

(** ** The statistics reporter *)

(** X16.  [get_statistics] works from the file system alone: whatever the
    three files hold, and also when it fails, it decodes no line, and its
    calls to the file system are all on the three dataset paths of the data
    directory. *)
Theorem statistics_touch_three_paths (fs : filesystem) (data_dir : str) :
  touches_only [path_join data_dir (lit "orderbook_snapshots.json");
                path_join data_dir (lit "trades.json");
                path_join data_dir (lit "tick_size_changes.json")]
    (get_statistics fs data_dir).1
  ∧ decoded (get_statistics fs data_dir).1 = [].
Proof.
  assert (H : touches_only
                [path_join data_dir (lit "orderbook_snapshots.json");
                 path_join data_dir (lit "trades.json");
                 path_join data_dir (lit "tick_size_changes.json")]
                (get_statistics fs data_dir).1).
  { unfold get_statistics. rewrite !print_bind. cbn [fst].
    repeat (constructor; [exact I|]).
    apply for_each_touches. intros [name filename] Hin.
    eapply touches_only_mono; [|apply dataset_statistics_touches].
    intros p Hp. apply list_elem_of_singleton in Hp. subst p.
    unfold files in Hin. rewrite !elem_of_cons, elem_of_nil in Hin.
    destruct Hin as [[= -> ->]|[[= -> ->]|[[= -> ->]|[]]]];
      rewrite !elem_of_cons; auto. }
  split; [exact H|].
  induction H as [|ev t Hev _ IH]; [reflexivity|].
  destruct ev; try contradiction; exact IH.
Qed.

(** X17.  The number of messages that the statistics show for a file
    without carriage returns is its number of line terminators, plus one
    when the file ends with a line that has none.  Lines are counted as
    they are: blank lines and lines that are not JSON count too. *)
Theorem messages_count_lines
    (fs : filesystem) (data_dir name filename text : str) (size : Z) :
  fs !! path_join data_dir filename = Some (File text size) →
  0 <= size < 2 ^ 63 →
  Forall (λ c, c ≠ 13%N) text →
  find_count (lit "  Messages: ")
    (printed (dataset_statistics fs data_dir (name, filename)).1)
  = Some (Z.of_nat (terminators text + (if unterminated text then 1 else 0))).
Proof.
  intros Hfile Hsize Hcr.
  rewrite dataset_statistics_spec by (rewrite Hfile; exact Hsize).
  rewrite Hfile. cbn [fst expected_statistics printed omap].
  rewrite (readlines_length text [] Hcr).
  unfold unterminated. destruct (last text) as [c|]; [|reflexivity].
  destruct (c =? 10)%N; reflexivity.
Qed.

(** The theorem on a trades file of three lines: a trade, a blank line and
    a trade whose line is not terminated. *)
Lemma messages_count_lines_witness :
  let text := buy_line ++ [newline] ++ lit "{}" in
  let fs : filesystem := {[ trades_json := file_of text ]} in
  find_count (lit "  Messages: ")
    (printed (dataset_statistics fs (lit "data") (lit "Trades", lit "trades.json")).1)
  = Some 3.
Proof.
  intros text fs.
  rewrite (messages_count_lines fs (lit "data") (lit "Trades") (lit "trades.json")
             text (Z.of_nat (length text))).
  - reflexivity.
  - reflexivity.
  - vm_compute. split; [discriminate|reflexivity].
  - vm_compute. repeat (constructor; [discriminate|]). constructor.
Defined.

(** ** Counts by side label *)

(** X18.  After a pass over valid trades the per-side mapping holds, for
    every label that occurred as the side of a processed trade, the number
    of these trades, and it holds no entry for any other label.  Labels are
    compared as they are written: a side other than [BUY] and [SELL] gets a
    count of its own. *)
Theorem side_counts_by_label
    (utcoffset : Z → Z) (limit : option Z) (lines : list str)
    (parts : list (float * str)) :
  Forall2 (λ line p, trade_parts line = Ok p) (processed limit 0 lines) parts →
  ∃ t st,
    trades_loop utcoffset limit lines initial_aggregate = (t, Ok st)
    ∧ ∀ label,
        side_counts st !! label
        = match length (filter (λ s, s = label) parts.*2) with
          | O => None
          | n => Some (Z.of_nat n)
          end.
Proof.
  intros Hall.
  pose proof (trades_loop_ok utcoffset limit lines initial_aggregate parts Hall) as H.
  eexists. eexists. split.
  - rewrite (M_eta (trades_loop _ _ _ _)), H. reflexivity.
  - intros label. rewrite record_all_lookup.
    destruct (length _); [apply lookup_empty|].
    cbn [side_counts initial_aggregate]. rewrite lookup_empty. reflexivity.
Qed.

(** The theorem at two buys and one trade with the side [buy]. *)
Lemma side_counts_by_label_witness :
  ∃ t st,
    trades_loop utc None [buy_line; lower_line; buy_line] initial_aggregate = (t, Ok st)
    ∧ side_counts st !! lit "BUY" = Some 2
    ∧ side_counts st !! lit "buy" = Some 1
    ∧ side_counts st !! lit "SELL" = None.
Proof.
  destruct (side_counts_by_label utc None [buy_line; lower_line; buy_line]
              [(S754_finite false 6192449487634432 (-50), lit "BUY");
               (S754_finite false 6192449487634432 (-50), lit "buy");
               (S754_finite false 6192449487634432 (-50), lit "BUY")])
    as (t & st & H1 & H2).
  { repeat constructor. }
  exists t, st. split; [exact H1|].
  rewrite !H2. repeat split; reflexivity.
Defined.

(** ** Timestamps as numbers *)

(** X19.  A timestamp given as a JSON integer and the same timestamp
    given as decimal text are formatted alike: whenever the number is
    formatted as a calendar string, its decimal text is formatted as the
    same string. *)
Theorem timestamp_number_or_text (utcoffset : Z → Z) (n : Z) (s : str) :
  format_timestamp utcoffset (VInt n) = VStr s →
  format_timestamp utcoffset (VStr (str_of_int n)) = VStr s.
Proof.
  assert (H : py_int (VStr (str_of_int n)) = py_int (VInt n))
    by apply int_of_str_of_int.
  unfold format_timestamp. rewrite H.
  destruct (_ ≫= _) as [s'|e]; [intros E; exact E|discriminate].
Qed.

(** The theorem at 1700000000000 milliseconds. *)
Lemma timestamp_number_or_text_witness :
  format_timestamp utc (VInt 1700000000000) = VStr (lit "2023-11-14 22:13:20")
  ∧ format_timestamp utc (VStr (str_of_int 1700000000000))
    = VStr (lit "2023-11-14 22:13:20").
Proof.
  assert (H : format_timestamp utc (VInt 1700000000000)
              = VStr (lit "2023-11-14 22:13:20")) by (vm_compute; reflexivity).
  split; [exact H|].
  apply (timestamp_number_or_text utc 1700000000000 _ H).
Defined.

(** ** The output of a pass *)

(** X20.  The output of a pass that ends normally is made of the displays
    of its records, one after the other in the order of the file, the
    record at position [i] (from 0) being displayed with the number
    [i + 1]; for trades, with the aggregate of the [i] trades before it.
    Nothing else is printed during the pass. *)
Theorem pass_displays_records_in_order
    (utcoffset : Z → Z) (limit : option Z) (lines : list str) :
  (∀ n, (snapshots_loop utcoffset limit lines 0).2 = Ok n →
     (snapshots_loop utcoffset limit lines 0).1
     = concat (imap (λ i line, (snapshot_body utcoffset (Z.of_nat i) line).1)
                 (processed limit 0 lines)))
  ∧ (∀ parts,
       Forall2 (λ line p, trade_parts line = Ok p) (processed limit 0 lines) parts →
       (trades_loop utcoffset limit lines initial_aggregate).1
       = concat (imap (λ i line,
                         (trade_body utcoffset
                            (record_all (take i parts) initial_aggregate) line).1)
                   (processed limit 0 lines)))
  ∧ (∀ n, (ticks_loop utcoffset lines 0).2 = Ok n →
       (ticks_loop utcoffset lines 0).1
       = concat (imap (λ i line, (tick_body utcoffset (Z.of_nat i) line).1) lines)).
Proof.
  split; [|split].
  - intros n H.
    rewrite (count_loop_trace limit (snapshot_step utcoffset)
               (snapshots_loop utcoffset limit) (λ _, eq_refl)
               (snapshots_loop_cons utcoffset limit)
               (snapshot_step_count utcoffset) lines 0 n H).
    f_equal. apply imap_ext. intros i x _. simpl.
    rewrite Z.add_0_l. apply snapshot_step_fst.
  - intros parts Hall.
    apply (trades_loop_trace utcoffset limit lines initial_aggregate parts Hall).
  - intros n H.
    rewrite (count_loop_trace None (tick_step utcoffset)
               (ticks_loop utcoffset) (λ _, eq_refl)
               (ticks_loop_cons utcoffset)
               (tick_step_count utcoffset) lines 0 n H).
    f_equal. apply imap_ext. intros i x _. simpl.
    rewrite Z.add_0_l. apply tick_step_fst.
Qed.

(** The theorem for the two tick-size changes of the example file. *)
Lemma pass_displays_records_in_order_witness :
  (ticks_loop utc [change_line; change_line] 0).1
  = (tick_body utc 0 change_line).1 ++ (tick_body utc 1 change_line).1.
Proof.
  destruct (pass_displays_records_in_order utc None [change_line; change_line])
    as (_ & _ & H).
  rewrite (H 2) by (vm_compute; reflexivity).
  cbn [imap concat]. rewrite app_nil_r. reflexivity.
Defined.

(** X21.  The count of the summary is the number of lines decoded.  When
    a reader returns normally from a file, whatever the file holds and
    whatever the limit, the number that its summary shows is the number of
    lines that it has decoded, and these are the lines that the limit lets
    through. *)
Theorem summary_counts_decoded_lines
    (utcoffset : Z → Z) (fs : filesystem) (path text : str) (size : Z)
    (limit : option Z) :
  fs !! path = Some (File text size) →
  (let run := read_orderbook_snapshots utcoffset fs path limit in
   run.2 = Ok tt →
   decoded run.1 = processed limit 0 (readlines text [])
   ∧ last run.1 = Some (EPrint [Lit (newline :: lit "Total snapshots: ");
                                Val (VInt (Z.of_nat (length (decoded run.1))))]))
  ∧ (let run := read_trades utcoffset fs path limit in
     run.2 = Ok tt →
     decoded run.1 = processed limit 0 (readlines text [])
     ∧ ∃ t st, run.1 = t ++ (trades_report st).1
               ∧ count st = Z.of_nat (length (decoded run.1)))
  ∧ (let run := read_tick_size_changes utcoffset fs path in
     run.2 = Ok tt →
     decoded run.1 = readlines text []
     ∧ last run.1 = Some (EPrint [Lit (newline :: lit "Total tick size changes: ");
                                  Val (VInt (Z.of_nat (length (decoded run.1))))])).
Proof.
  intros Hfile. split; [|split]; cbv zeta.
  - rewrite (read_orderbook_snapshots_file utcoffset fs _ _ _ limit Hfile). cbv zeta.
    cbn [fst snd].
    destruct (snapshots_loop utcoffset limit (readlines text []) 0).2 as [n|e] eqn:E;
      [|discriminate].
    intros _.
    destruct (loop_ok_decoded (λ n, n) limit (snapshot_step utcoffset)
                (snapshots_loop utcoffset limit) (λ _, eq_refl)
                (snapshots_loop_cons utcoffset limit)
                (snapshot_step_trace utcoffset)
                (snapshot_step_count utcoffset) _ _ _ E) as [H1 H2].
    assert (Hd : decoded
              ([EExists path; EPrint [Lit (newline :: rule)];
                EPrint [T "ORDERBOOK SNAPSHOTS"]; EPrint [Lit rule]; EOpen path]
               ++ (snapshots_loop utcoffset limit (readlines text []) 0).1
               ++ [EClose path]
               ++ [EPrint [Lit (newline :: lit "Total snapshots: "); Val (VInt n)]])
              = processed limit 0 (readlines text [])).
    { rewrite !decoded_app, H1. cbn. apply app_nil_r. }
    split; [exact Hd|]. rewrite Hd, !app_assoc, last_snoc. rewrite H2.
    rewrite Z.add_0_l. reflexivity.
  - rewrite (read_trades_file utcoffset fs _ _ _ limit Hfile). cbv zeta.
    cbn [fst snd].
    destruct (trades_loop utcoffset limit (readlines text []) initial_aggregate).2
      as [st|e] eqn:E; [|discriminate].
    intros _.
    destruct (loop_ok_decoded count limit (trade_body utcoffset)
                (trades_loop utcoffset limit) (λ _, eq_refl) (λ _ _ _, eq_refl)
                (trade_body_trace utcoffset)
                (trade_body_count utcoffset) _ _ _ E) as [H1 H2].
    cbn [count initial_aggregate] in H1, H2.
    assert (Hd : decoded
              ([EExists path; EPrint [Lit (newline :: rule)]; EPrint [T "TRADES"];
                EPrint [Lit rule]; EOpen path]
               ++ (trades_loop utcoffset limit (readlines text []) initial_aggregate).1
               ++ [EClose path] ++ (trades_report st).1)
              = processed limit 0 (readlines text [])).
    { rewrite !decoded_app, H1.
      rewrite (only_prints_decoded _ (trades_report_prints st)). cbn.
      rewrite app_nil_r. reflexivity. }
    split; [exact Hd|]. rewrite Hd.
    eexists. exists st. split; [rewrite !app_assoc; reflexivity|].
    rewrite H2. lia.
  - rewrite (read_tick_size_changes_file utcoffset fs _ _ _ Hfile). cbv zeta.
    cbn [fst snd].
    destruct (ticks_loop utcoffset (readlines text []) 0).2 as [n|e] eqn:E;
      [|discriminate].
    intros _.
    destruct (loop_ok_decoded (λ n, n) None (tick_step utcoffset)
                (ticks_loop utcoffset) (λ _, eq_refl)
                (ticks_loop_cons utcoffset)
                (tick_step_trace utcoffset)
                (tick_step_count utcoffset) _ _ _ E) as [H1 H2].
    cbn [processed] in H1, H2.
    assert (Hd : decoded
              ([EExists path; EPrint [Lit (newline :: rule)];
                EPrint [T "TICK SIZE CHANGES"]; EPrint [Lit rule]; EOpen path]
               ++ (ticks_loop utcoffset (readlines text []) 0).1
               ++ [EClose path]
               ++ [EPrint [Lit (newline :: lit "Total tick size changes: ");
                           Val (VInt n)]])
              = readlines text []).
    { rewrite !decoded_app, H1. cbn. apply app_nil_r. }
    split; [exact Hd|]. rewrite Hd, !app_assoc, last_snoc. rewrite H2.
    rewrite Z.add_0_l. reflexivity.
Qed.

(** The theorem for the tick-size changes of the example directory. *)
Lemma summary_counts_decoded_lines_witness :
  let run := read_tick_size_changes utc example_fs changes_json in
  decoded run.1 = [change_line; change_line]
  ∧ last run.1 = Some (EPrint [Lit (newline :: lit "Total tick size changes: ");
                               Val (VInt (Z.of_nat (length (decoded run.1))))]).
Proof.
  destruct (summary_counts_decoded_lines utc example_fs changes_json
              (change_line ++ change_line)
              (Z.of_nat (length (change_line ++ change_line))) None eq_refl)
    as (_ & _ & H).
  cbv zeta in H. destruct H as [H1 H2]; [vm_compute; reflexivity|].
  cbv zeta. split; [rewrite H1; vm_compute; reflexivity|exact H2].
Defined.
